(** * POSIX threading primitives of wxWidgets (src/unix/threadpsx.cpp)

    A shallow embedding of [wxMutexInternal], [wxSemaphoreInternal],
    [wxThreadInternal], [wxThread] and [wxThreadModule], with the properties
    of the threading specification stated and proved over it.

    Conventions.
    - A C++ member function becomes a function on the record of the object's
      fields; the calling OS thread ([wxThread::GetCurrentId()]) is the
      explicit argument [self].
    - A call that can suspend the caller returns an [outcome]: [Returned v],
      or [Blocked] when the call cannot complete in the given state.  With
      [Blocked] comes the state the call was given: what the suspended call
      has done by then is not part of the result ([Sema.Wait_sleeping] gives
      the semaphore as a sleeping waiter leaves it).
    - What the operating system or other threads decide (an error code of a
      pthread call, the value a joined thread returned, the fields seen when
      a condition wait returns) is an explicit argument of the function.
    - The public classes [wxMutex], [wxCondition] and [wxSemaphore] forward
      to the internal ones modelled here; a critical section, a user hook
      ([Entry], [OnExit], [OnDelete]) and a call on a file-scope object are
      recorded as events.  The cancellation handler that [PthreadStart]
      installs is removed without being run on the paths modelled. *)

From stdpp Require Import gmap list.
From Stdlib Require Import ZArith Lia.

Open Scope Z_scope.

(** ** Machine integers and [errno] values *)

Definition SIZE_MAX : Z := 2 ^ 64 - 1.

(** [(size_t)x]: conversion to a 64-bit unsigned integer. *)
Definition to_size_t (x : Z) : Z := x mod 2 ^ 64.

(** [(long)x]: conversion to a 64-bit signed integer. *)
Definition to_long (x : Z) : Z := (x + 2 ^ 63) mod 2 ^ 64 - 2 ^ 63.

(** Range of the C type [int]. *)
Definition is_int (x : Z) : Prop := - 2 ^ 31 <= x < 2 ^ 31.

(** The values of <errno.h> on Linux. *)
Definition EPERM : Z := 1.
Definition EBUSY : Z := 16.
Definition EINVAL : Z := 22.
Definition EDEADLK : Z := 35.
Definition ETIMEDOUT : Z := 110.

(** Result of a call that may suspend the calling thread. *)
Inductive outcome (A : Type) : Type :=
| Returned (v : A)
| Blocked.
Arguments Returned {A} v.
Arguments Blocked {A}.

Definition is_blocked {A} (o : outcome A) : bool :=
  match o with Blocked => true | Returned _ => false end.

(** ** wxMutexInternal *)

Module Mutex.

Inductive wxMutexType := wxMUTEX_DEFAULT | wxMUTEX_RECURSIVE.

Inductive wxMutexError :=
| wxMUTEX_NO_ERROR
| wxMUTEX_INVALID
| wxMUTEX_DEAD_LOCK
| wxMUTEX_BUSY
| wxMUTEX_UNLOCKED
| wxMUTEX_TIMEOUT
| wxMUTEX_MISC_ERROR.

#[global] Instance wxMutexType_eq_dec : EqDecision wxMutexType.
Proof. solve_decision. Defined.

#[global] Instance wxMutexError_eq_dec : EqDecision wxMutexError.
Proof. solve_decision. Defined.

(** The native lock.  [PM_invalid] is a [pthread_mutex_t] whose
    initialisation failed; [PM_held t d] is held by thread [t], with [d]
    further recursive acquisitions on top of the first. *)
Inductive pthread_mutex_t :=
| PM_invalid
| PM_free
| PM_held (holder : Z) (depth : nat).

#[global] Instance pthread_mutex_t_eq_dec : EqDecision pthread_mutex_t.
Proof. solve_decision. Defined.

Record wxMutexInternal := mkMutex {
  m_mutex : pthread_mutex_t;
  m_isOk : bool;
  m_type : wxMutexType;
  m_owningThread : Z
}.

Definition set_mutex (pm : pthread_mutex_t) (m : wxMutexInternal) :=
  mkMutex pm (m_isOk m) (m_type m) (m_owningThread m).

Definition set_owner (o : Z) (m : wxMutexInternal) :=
  mkMutex (m_mutex m) (m_isOk m) (m_type m) o.

(** *** The pthread calls

    [None] means that the calling thread is suspended: the lock is held by
    another thread, or by the caller itself on a non-recursive lock. *)

Definition pthread_mutex_lock (ty : wxMutexType) (self : Z)
    (pm : pthread_mutex_t) : option (Z * pthread_mutex_t) :=
  match pm with
  | PM_invalid => Some (EINVAL, pm)
  | PM_free => Some (0, PM_held self 0)
  | PM_held h d =>
      if bool_decide (h = self) && bool_decide (ty = wxMUTEX_RECURSIVE)
      then Some (0, PM_held h (S d))
      else None
  end.

(** The timed variant gives up where the plain one would stay suspended:
    with [ETIMEDOUT] when the deadline is reached, with [EINVAL] at once
    when the nanoseconds of the deadline are not below one second. *)
Definition pthread_mutex_timedlock (ty : wxMutexType) (self : Z)
    (pm : pthread_mutex_t) (ts_sec ts_nsec : Z) : Z * pthread_mutex_t :=
  match pthread_mutex_lock ty self pm with
  | Some r => r
  | None =>
      if bool_decide (0 <= ts_nsec) && bool_decide (ts_nsec < 1000000000)
      then (ETIMEDOUT, pm) else (EINVAL, pm)
  end.

Definition pthread_mutex_trylock (ty : wxMutexType) (self : Z)
    (pm : pthread_mutex_t) : Z * pthread_mutex_t :=
  match pthread_mutex_lock ty self pm with
  | Some r => r
  | None => (EBUSY, pm)
  end.

(** A lock initialised with default attributes, as the constructor does for
    the default kind, keeps no track of its holder: the call releases it and
    answers 0 whoever makes it, also when the lock is free.  A recursive
    lock answers [EPERM] to a thread that does not hold it. *)
Definition pthread_mutex_unlock (ty : wxMutexType) (self : Z)
    (pm : pthread_mutex_t) : Z * pthread_mutex_t :=
  match pm with
  | PM_invalid => (EINVAL, pm)
  | PM_free =>
      if bool_decide (ty = wxMUTEX_RECURSIVE) then (EPERM, pm) else (0, pm)
  | PM_held h d =>
      if bool_decide (ty = wxMUTEX_RECURSIVE) then
        if bool_decide (h = self)
        then (0, match d with O => PM_free | S d' => PM_held h d' end)
        else (EPERM, pm)
      else (0, PM_free)
  end.

(** *** Member functions *)

(** [wxMutexInternal::wxMutexInternal(mutexType)]; [err] is the result of
    [pthread_mutex_init]. *)
Definition ctor (mutexType : wxMutexType) (err : Z) : wxMutexInternal :=
  {| m_mutex := if bool_decide (err = 0) then PM_free else PM_invalid;
     m_isOk := bool_decide (err = 0);
     m_type := mutexType;
     m_owningThread := 0 |}.

Definition HandleLockResult (self : Z) (err : Z) (m : wxMutexInternal)
    : wxMutexError * wxMutexInternal :=
  if bool_decide (err = EDEADLK) then (wxMUTEX_DEAD_LOCK, m)
  else if bool_decide (err = EINVAL) then (wxMUTEX_MISC_ERROR, m)
  else if bool_decide (err = ETIMEDOUT) then (wxMUTEX_TIMEOUT, m)
  else if bool_decide (err = 0) then
    (wxMUTEX_NO_ERROR,
     if bool_decide (m_type m = wxMUTEX_DEFAULT) then set_owner self m else m)
  else (wxMUTEX_MISC_ERROR, m).

Definition Lock (self : Z) (m : wxMutexInternal)
    : outcome wxMutexError * wxMutexInternal :=
  if bool_decide (m_type m = wxMUTEX_DEFAULT)
     && negb (bool_decide (m_owningThread m = 0))
     && bool_decide (m_owningThread m = self)
  then (Returned wxMUTEX_DEAD_LOCK, m)
  else
    match pthread_mutex_lock (m_type m) self (m_mutex m) with
    | None => (Blocked, m)
    | Some (err, pm) =>
        let '(r, m') := HandleLockResult self err (set_mutex pm m) in
        (Returned r, m')
    end.

(** [Lock(unsigned long ms)].  [have_timedlock] is the build flag
    HAVE_PTHREAD_MUTEX_TIMEDLOCK; [tv] is what [wxGetTimeOfDay] stores
    ([None] when it fails) and [now] what [time(NULL)] returns. *)
Definition LockTimeout (have_timedlock : bool) (self : Z) (ms : Z)
    (tv : option (Z * Z)) (now : Z) (m : wxMutexInternal)
    : wxMutexError * wxMutexInternal :=
  if have_timedlock then
    let MSEC_IN_SEC := 1000 in
    let NSEC_IN_MSEC := 1000000 in
    let NSEC_IN_USEC := 1000 in
    let NSEC_IN_SEC := MSEC_IN_SEC * NSEC_IN_MSEC in
    let seconds := ms / MSEC_IN_SEC in
    let nanoseconds := (ms mod MSEC_IN_SEC) * NSEC_IN_MSEC in
    let '(sec0, nsec0) :=
      match tv with
      | Some (tv_sec, tv_usec) => (tv_sec, tv_usec * NSEC_IN_USEC)
      | None => (now, 0)
      end in
    let sec1 := sec0 + seconds in
    let nsec1 := nsec0 + nanoseconds in
    let '(sec2, nsec2) :=
      if bool_decide (NSEC_IN_SEC < nsec1)
      then (sec1 + 1, nsec1 - NSEC_IN_SEC) else (sec1, nsec1) in
    let '(err, pm) :=
      pthread_mutex_timedlock (m_type m) self (m_mutex m) sec2 nsec2 in
    HandleLockResult self err (set_mutex pm m)
  else (wxMUTEX_MISC_ERROR, m).

Definition TryLock (self : Z) (m : wxMutexInternal)
    : wxMutexError * wxMutexInternal :=
  let '(err, pm) := pthread_mutex_trylock (m_type m) self (m_mutex m) in
  let m1 := set_mutex pm m in
  if bool_decide (err = EBUSY) then (wxMUTEX_BUSY, m1)
  else if bool_decide (err = EINVAL) then (wxMUTEX_MISC_ERROR, m1)
  else if bool_decide (err = 0) then
    (wxMUTEX_NO_ERROR,
     if bool_decide (m_type m1 = wxMUTEX_DEFAULT) then set_owner self m1 else m1)
  else (wxMUTEX_MISC_ERROR, m1).

Definition Unlock (self : Z) (m : wxMutexInternal)
    : wxMutexError * wxMutexInternal :=
  let m0 := set_owner 0 m in
  let '(err, pm) := pthread_mutex_unlock (m_type m0) self (m_mutex m0) in
  let m1 := set_mutex pm m0 in
  if bool_decide (err = EPERM) then (wxMUTEX_UNLOCKED, m1)
  else if bool_decide (err = EINVAL) then (wxMUTEX_MISC_ERROR, m1)
  else if bool_decide (err = 0) then (wxMUTEX_NO_ERROR, m1)
  else (wxMUTEX_MISC_ERROR, m1).

(** *** Sequences of calls *)

Inductive mutex_call :=
| CallLock
| CallLockTimeout (have_timedlock : bool) (ms : Z) (tv : option (Z * Z)) (now : Z)
| CallTryLock
| CallUnlock.

Definition call (self : Z) (c : mutex_call) (m : wxMutexInternal)
    : outcome wxMutexError * wxMutexInternal :=
  match c with
  | CallLock => Lock self m
  | CallLockTimeout h ms tv now =>
      let '(r, m') := LockTimeout h self ms tv now m in (Returned r, m')
  | CallTryLock => let '(r, m') := TryLock self m in (Returned r, m')
  | CallUnlock => let '(r, m') := Unlock self m in (Returned r, m')
  end.

(** Calls issued one after the other; each comes with the thread issuing it.
    The result lists what each call returned. *)
Fixpoint run (cs : list (Z * mutex_call)) (m : wxMutexInternal)
    : list (outcome wxMutexError) * wxMutexInternal :=
  match cs with
  | [] => ([], m)
  | (self, c) :: cs' =>
      let '(r, m1) := call self c m in
      let '(rs, m2) := run cs' m1 in
      (r :: rs, m2)
  end.

(** The calls of one thread. *)
Definition by_thread (self : Z) (cs : list mutex_call) : list (Z * mutex_call) :=
  map (fun c => (self, c)) cs.

(** The owner is tracked only for a default mutex and names the thread that
    holds the native lock. *)
Definition owner_tracks_holder (m : wxMutexInternal) : Prop :=
  m_owningThread m ≠ 0 →
  m_type m = wxMUTEX_DEFAULT ∧ m_mutex m = PM_held (m_owningThread m) 0.

(** In a run of a single thread, the native lock state and the tracked owner
    agree in both directions. *)
Definition single_thread_inv (self : Z) (m : wxMutexInternal) : Prop :=
  m_type m = wxMUTEX_DEFAULT ∧
  ((m_mutex m = PM_invalid ∧ m_owningThread m = 0) ∨
   (m_mutex m = PM_free ∧ m_owningThread m = 0) ∨
   (m_mutex m = PM_held self 0 ∧ m_owningThread m = self)).

End Mutex.

(** ** wxConditionInternal and wxSemaphoreInternal *)

Module Sema.

Import Mutex.

Inductive wxCondError :=
| wxCOND_NO_ERROR
| wxCOND_INVALID
| wxCOND_TIMEOUT
| wxCOND_MISC_ERROR.

Inductive wxSemaError :=
| wxSEMA_NO_ERROR
| wxSEMA_INVALID
| wxSEMA_BUSY
| wxSEMA_TIMEOUT
| wxSEMA_OVERFLOW
| wxSEMA_MISC_ERROR.

#[global] Instance wxCondError_eq_dec : EqDecision wxCondError.
Proof. solve_decision. Defined.

#[global] Instance wxSemaError_eq_dec : EqDecision wxSemaError.
Proof. solve_decision. Defined.

(** What a semaphore operation does, in program order. *)
Inductive event :=
| EvLock (self : Z) (r : wxMutexError)
| EvUnlock (self : Z) (r : wxMutexError)
| EvStoreCount (v : Z)
| EvCondWait
| EvCondWaitTimeout (remainingTime : Z)
| EvCondSignal.

#[global] Instance event_eq_dec : EqDecision event.
Proof. solve_decision. Defined.

(** The return of [pthread_cond_wait] or [pthread_cond_timedwait]: its error
    code, and the shared fields as the other threads left them while the
    caller had released the mutex. *)
Record wake := mkWake {
  wake_err : Z;
  wake_count : Z;
  wake_owner : Z
}.

(** [wxConditionInternal::Wait] and [WaitTimeout], from the error of the
    native wait. *)
Definition cond_Wait (err : Z) : wxCondError :=
  if bool_decide (err = 0) then wxCOND_NO_ERROR else wxCOND_MISC_ERROR.

Definition cond_WaitTimeout (err : Z) : wxCondError :=
  if bool_decide (err = ETIMEDOUT) then wxCOND_TIMEOUT
  else if bool_decide (err = 0) then wxCOND_NO_ERROR
  else wxCOND_MISC_ERROR.

(** [wxConditionInternal::Signal]; [pthread_cond_signal] fails on a
    condition that was not initialised. *)
Definition cond_Signal (cond_ok : bool) : wxCondError :=
  let err := if cond_ok then 0 else EINVAL in
  if bool_decide (err = 0) then wxCOND_NO_ERROR else wxCOND_MISC_ERROR.

Record wxSemaphoreInternal := mkSema {
  m_mutex : wxMutexInternal;
  m_cond_isOk : bool;
  m_count : Z;
  m_maxcount : Z;
  m_isOk : bool
}.

Definition set_mx (mx : wxMutexInternal) (s : wxSemaphoreInternal) :=
  mkSema mx (m_cond_isOk s) (m_count s) (m_maxcount s) (m_isOk s).

Definition set_count (c : Z) (s : wxSemaphoreInternal) :=
  mkSema (m_mutex s) (m_cond_isOk s) c (m_maxcount s) (m_isOk s).

Definition set_maxcount (c : Z) (s : wxSemaphoreInternal) :=
  mkSema (m_mutex s) (m_cond_isOk s) (m_count s) c (m_isOk s).

Definition set_isOk (b : bool) (s : wxSemaphoreInternal) :=
  mkSema (m_mutex s) (m_cond_isOk s) (m_count s) (m_maxcount s) b.

(** The scalar fields of the storage the object is constructed in: a field
    the constructor does not assign keeps what the storage held. *)
Record raw_fields := mkRaw {
  raw_count : Z;
  raw_maxcount : Z;
  raw_isOk : bool
}.

(** [wxSemaphoreInternal::wxSemaphoreInternal(initialcount, maxcount)].
    [mutex_err] and [cond_err] are the results of [pthread_mutex_init] and
    [pthread_cond_init] for the two members, which are constructed first.
    [m_mutex.IsOk()] and [m_cond.IsOk()] report whether the member kept its
    implementation object: the mutex when its initialisation succeeded, the
    condition when its own succeeded and its mutex is ok. *)
Definition ctor (raw : raw_fields) (initialcount maxcount : Z)
    (mutex_err cond_err : Z) : wxSemaphoreInternal :=
  let mx := Mutex.ctor wxMUTEX_DEFAULT mutex_err in
  let cond_ok := bool_decide (cond_err = 0) in
  let s0 := mkSema mx cond_ok (raw_count raw) (raw_maxcount raw) (raw_isOk raw) in
  let s1 :=
    if bool_decide (initialcount < 0) || bool_decide (maxcount < 0)
       || (bool_decide (0 < maxcount) && bool_decide (maxcount < initialcount))
    then set_isOk false s0
    else set_count (to_size_t initialcount)
           (set_maxcount (to_size_t maxcount) s0) in
  set_isOk (Mutex.m_isOk mx && (cond_ok && Mutex.m_isOk mx)) s1.

Definition IsOk (s : wxSemaphoreInternal) : bool := m_isOk s.

(** The argument pairs the constructor tests for. *)
Definition invalid_args (initialcount maxcount : Z) : Prop :=
  initialcount < 0 ∨ maxcount < 0 ∨ (0 < maxcount ∧ maxcount < initialcount).

Definition result : Type :=
  outcome wxSemaError * wxSemaphoreInternal * list event.

(** Modelled from the spec: [wxMutexLocker] (wx/thread.h, not part of the
    sources at hand) acquires the mutex where it is declared and releases it
    when the scope is left, on every path, provided the acquisition
    succeeded.  When the acquisition or the body suspends the caller, the
    result is [Blocked] with the semaphore as it was given and no events. *)
Definition with_locker (self : Z) (s : wxSemaphoreInternal)
    (body : wxSemaphoreInternal → result) : result :=
  match Lock self (m_mutex s) with
  | (Blocked, _) => (Blocked, s, [])
  | (Returned e, mx) =>
      match body (set_mx mx s) with
      | (Blocked, _, _) => (Blocked, s, [])
      | (Returned r, s2, evs) =>
          if bool_decide (e = wxMUTEX_NO_ERROR) then
            let '(u, mx') := Unlock self (m_mutex s2) in
            (Returned r, set_mx mx' s2,
             EvLock self e :: evs ++ [EvUnlock self u])
          else (Returned r, s2, EvLock self e :: evs)
      end
  end.

(** The fields after a native wait returned: the mutex is held again as it
    was before the wait; a wait that failed released nothing. *)
Definition on_wake (w : wake) (s : wxSemaphoreInternal) : wxSemaphoreInternal :=
  if bool_decide (wake_err w = 0) || bool_decide (wake_err w = ETIMEDOUT)
  then set_mx (set_owner (wake_owner w) (m_mutex s)) (set_count (wake_count w) s)
  else s.

(** The semaphore while a [Wait] or [WaitTimeout] of thread [self] sleeps in
    its first condition wait: the locker has taken the mutex, the count was
    found at 0, and [pthread_cond_wait] has released the native lock, which
    no member function of the mutex is told.  [None] when the call does not
    get there. *)
Definition Wait_sleeping (self : Z) (s : wxSemaphoreInternal)
    : option wxSemaphoreInternal :=
  match Lock self (m_mutex s) with
  | (Returned wxMUTEX_NO_ERROR, mx) =>
      if bool_decide (m_count s = 0)
      then Some (set_mx (set_mutex PM_free mx) s)
      else None
  | _ => None
  end.

(** The loop of [Wait]; [wakes] lists the returns of [m_cond.Wait()] seen so
    far.  When the list is used up the caller is still suspended. *)
Fixpoint Wait_loop (wakes : list wake) (s : wxSemaphoreInternal) : result :=
  if bool_decide (m_count s = 0) then
    match wakes with
    | [] => (Blocked, s, [])
    | w :: wakes' =>
        if bool_decide (cond_Wait (wake_err w) = wxCOND_NO_ERROR) then
          let '(r, s', evs) := Wait_loop wakes' (on_wake w s) in
          (r, s', EvCondWait :: evs)
        else (Returned wxSEMA_MISC_ERROR, on_wake w s, [EvCondWait])
    end
  else
    let c := to_size_t (m_count s - 1) in
    (Returned wxSEMA_NO_ERROR, set_count c s, [EvStoreCount c]).

Definition Wait (self : Z) (wakes : list wake) (s : wxSemaphoreInternal)
    : result :=
  with_locker self s (Wait_loop wakes).

Definition TryWait (self : Z) (s : wxSemaphoreInternal) : result :=
  with_locker self s (fun s =>
    if bool_decide (m_count s = 0) then (Returned wxSEMA_BUSY, s, [])
    else
      let c := to_size_t (m_count s - 1) in
      (Returned wxSEMA_NO_ERROR, set_count c s, [EvStoreCount c])).

(** [wxLongLong::GetLo()]: the low 32 bits. *)
Definition GetLo (x : Z) : Z := x mod 2 ^ 32.

(** The loop of [WaitTimeout]; each step gives the reading of
    [wxGetLocalTimeMillis()] at the head of the loop body and the return of
    the timed wait that follows it. *)
Fixpoint WaitTimeout_loop (milliseconds startTime : Z)
    (steps : list (Z * wake)) (s : wxSemaphoreInternal) : result :=
  if bool_decide (m_count s = 0) then
    match steps with
    | [] => (Blocked, s, [])
    | (now, w) :: steps' =>
        let elapsed := now - startTime in
        let remainingTime :=
          to_long (to_long milliseconds - to_long (GetLo elapsed)) in
        if bool_decide (remainingTime <= 0)
        then (Returned wxSEMA_TIMEOUT, s, [])
        else
          match cond_WaitTimeout (wake_err w) with
          | wxCOND_TIMEOUT =>
              (Returned wxSEMA_TIMEOUT, on_wake w s,
               [EvCondWaitTimeout remainingTime])
          | wxCOND_NO_ERROR =>
              let '(r, s', evs) :=
                WaitTimeout_loop milliseconds startTime steps' (on_wake w s) in
              (r, s', EvCondWaitTimeout remainingTime :: evs)
          | _ =>
              (Returned wxSEMA_MISC_ERROR, on_wake w s,
               [EvCondWaitTimeout remainingTime])
          end
    end
  else
    let c := to_size_t (m_count s - 1) in
    (Returned wxSEMA_NO_ERROR, set_count c s, [EvStoreCount c]).

Definition WaitTimeout (self : Z) (milliseconds startTime : Z)
    (steps : list (Z * wake)) (s : wxSemaphoreInternal) : result :=
  with_locker self s (WaitTimeout_loop milliseconds startTime steps).

Definition Post_body (s : wxSemaphoreInternal) : result :=
  if bool_decide (0 < m_maxcount s) && bool_decide (m_count s = m_maxcount s)
  then (Returned wxSEMA_OVERFLOW, s, [])
  else
    let c := to_size_t (m_count s + 1) in
    (Returned (if bool_decide (cond_Signal (m_cond_isOk s) = wxCOND_NO_ERROR)
               then wxSEMA_NO_ERROR else wxSEMA_MISC_ERROR),
     set_count c s, [EvStoreCount c; EvCondSignal]).

Definition Post (self : Z) (s : wxSemaphoreInternal) : result :=
  with_locker self s Post_body.

(** The fields have the range of their type [size_t]. *)
Definition in_range (s : wxSemaphoreInternal) : Prop :=
  0 <= m_count s <= SIZE_MAX ∧ 0 <= m_maxcount s <= SIZE_MAX.

(** The invariant of a bounded semaphore. *)
Definition bounded_inv (s : wxSemaphoreInternal) : Prop :=
  0 < m_maxcount s → 0 <= m_count s <= m_maxcount s.

Definition counters_ok (c m : Z) : Prop :=
  (0 <= c <= SIZE_MAX ∧ 0 <= m <= SIZE_MAX) ∧ (0 < m → 0 <= c <= m).

(** The fields are in range and within the bound. *)
Definition sem_ok (s : wxSemaphoreInternal) : Prop := in_range s ∧ bounded_inv s.

(** What a waiter may assume about the count it finds on waking up: the other
    threads kept it in range and within the bound. *)
Definition wake_ok (maxcount : Z) (w : wake) : Prop :=
  0 <= wake_count w <= SIZE_MAX ∧
  (0 < maxcount → wake_count w <= maxcount).

(** No operation is in progress on the semaphore: its mutex is free and
    tracks no owner. *)
Definition idle (s : wxSemaphoreInternal) : Prop :=
  Mutex.m_mutex (m_mutex s) = PM_free ∧
  Mutex.m_type (m_mutex s) = wxMUTEX_DEFAULT ∧
  Mutex.m_owningThread (m_mutex s) = 0.

(** *** The four operations as calls *)

Inductive sema_call :=
| CallWait (wakes : list wake)
| CallTryWait
| CallWaitTimeout (milliseconds startTime : Z) (steps : list (Z * wake))
| CallPost.

Definition call (self : Z) (c : sema_call) (s : wxSemaphoreInternal) : result :=
  match c with
  | CallWait wakes => Wait self wakes s
  | CallTryWait => TryWait self s
  | CallWaitTimeout ms start steps => WaitTimeout self ms start steps s
  | CallPost => Post self s
  end.

(** Every wake-up a call sees finds the count as [wake_ok] says. *)
Definition call_wakes_ok (maxcount : Z) (c : sema_call) : Prop :=
  match c with
  | CallWait wakes => Forall (wake_ok maxcount) wakes
  | CallWaitTimeout _ _ steps => Forall (wake_ok maxcount) (map snd steps)
  | _ => True
  end.

End Sema.

(** ** wxThreadInternal *)

Module ThreadInternal.

Import Mutex Sema.

Inductive wxThreadState :=
| STATE_NEW
| STATE_RUNNING
| STATE_PAUSED
| STATE_EXITED.

Inductive wxThreadError :=
| wxTHREAD_NO_ERROR
| wxTHREAD_NO_RESOURCE
| wxTHREAD_RUNNING
| wxTHREAD_NOT_RUNNING
| wxTHREAD_KILLED
| wxTHREAD_MISC_ERROR.

#[global] Instance wxThreadState_eq_dec : EqDecision wxThreadState.
Proof. solve_decision. Defined.

#[global] Instance wxThreadError_eq_dec : EqDecision wxThreadError.
Proof. solve_decision. Defined.

(** [wxThread::ExitCode] is a pointer-sized value. *)
Definition ExitCode : Type := Z.

Definition EXITCODE_CANCELLED : ExitCode := -1.

(** [wxPRIORITY_DEFAULT] of wx/thread.h. *)
Definition wxPRIORITY_DEFAULT : Z := 50.

(** What a member function of the thread does, in program order. *)
Inductive event :=
| EvSemRun (e : Sema.event)
| EvSemSuspend (e : Sema.event)
| EvMutexGuiLeave
| EvMutexGuiEnter
| EvEnterJoinFlag
| EvLeaveJoinFlag
| EvPthreadJoin (tid : Z) (rc : Z)
| EvPthreadCreate (rc : Z).

#[global] Instance event_eq_dec : EqDecision event.
Proof. solve_decision. Defined.

Record wxThreadInternal := mkInternal {
  m_threadId : Z;
  m_state : wxThreadState;
  m_prio : Z;
  m_created : bool;
  m_cancelled : bool;
  m_isPaused : bool;
  m_exitcode : ExitCode;
  m_shouldBeJoined : bool;
  m_isDetached : bool;
  m_semRun : wxSemaphoreInternal;
  m_semSuspend : wxSemaphoreInternal
}.

Definition set_threadId (v : Z) (t : wxThreadInternal) :=
  mkInternal v (m_state t) (m_prio t) (m_created t) (m_cancelled t)
    (m_isPaused t) (m_exitcode t) (m_shouldBeJoined t) (m_isDetached t)
    (m_semRun t) (m_semSuspend t).

Definition SetState (v : wxThreadState) (t : wxThreadInternal) :=
  mkInternal (m_threadId t) v (m_prio t) (m_created t) (m_cancelled t)
    (m_isPaused t) (m_exitcode t) (m_shouldBeJoined t) (m_isDetached t)
    (m_semRun t) (m_semSuspend t).

Definition SetPriority (v : Z) (t : wxThreadInternal) :=
  mkInternal (m_threadId t) (m_state t) v (m_created t) (m_cancelled t)
    (m_isPaused t) (m_exitcode t) (m_shouldBeJoined t) (m_isDetached t)
    (m_semRun t) (m_semSuspend t).

Definition set_created (v : bool) (t : wxThreadInternal) :=
  mkInternal (m_threadId t) (m_state t) (m_prio t) v (m_cancelled t)
    (m_isPaused t) (m_exitcode t) (m_shouldBeJoined t) (m_isDetached t)
    (m_semRun t) (m_semSuspend t).

Definition SetCancelFlag (t : wxThreadInternal) :=
  mkInternal (m_threadId t) (m_state t) (m_prio t) (m_created t) true
    (m_isPaused t) (m_exitcode t) (m_shouldBeJoined t) (m_isDetached t)
    (m_semRun t) (m_semSuspend t).

Definition SetReallyPaused (v : bool) (t : wxThreadInternal) :=
  mkInternal (m_threadId t) (m_state t) (m_prio t) (m_created t)
    (m_cancelled t) v (m_exitcode t) (m_shouldBeJoined t) (m_isDetached t)
    (m_semRun t) (m_semSuspend t).

Definition SetExitCode (v : ExitCode) (t : wxThreadInternal) :=
  mkInternal (m_threadId t) (m_state t) (m_prio t) (m_created t)
    (m_cancelled t) (m_isPaused t) v (m_shouldBeJoined t) (m_isDetached t)
    (m_semRun t) (m_semSuspend t).

Definition set_shouldBeJoined (v : bool) (t : wxThreadInternal) :=
  mkInternal (m_threadId t) (m_state t) (m_prio t) (m_created t)
    (m_cancelled t) (m_isPaused t) (m_exitcode t) v (m_isDetached t)
    (m_semRun t) (m_semSuspend t).

Definition set_semRun (v : wxSemaphoreInternal) (t : wxThreadInternal) :=
  mkInternal (m_threadId t) (m_state t) (m_prio t) (m_created t)
    (m_cancelled t) (m_isPaused t) (m_exitcode t) (m_shouldBeJoined t)
    (m_isDetached t) v (m_semSuspend t).

Definition set_semSuspend (v : wxSemaphoreInternal) (t : wxThreadInternal) :=
  mkInternal (m_threadId t) (m_state t) (m_prio t) (m_created t)
    (m_cancelled t) (m_isPaused t) (m_exitcode t) (m_shouldBeJoined t)
    (m_isDetached t) (m_semRun t) v.

Definition GetState := m_state.
Definition WasCreated := m_created.
Definition WasCancelled := m_cancelled.
Definition GetExitCode := m_exitcode.
Definition IsReallyPaused := m_isPaused.
Definition GetId := m_threadId.

(** [wxThreadInternal::wxThreadInternal()].  The two member semaphores are
    built by the default constructor of [wxSemaphore] (wx/thread.h); they are
    given here as already constructed. *)
Definition ctor (semRun semSuspend : wxSemaphoreInternal) : wxThreadInternal :=
  {| m_threadId := 0;
     m_state := STATE_NEW;
     m_prio := wxPRIORITY_DEFAULT;
     m_created := false;
     m_cancelled := false;
     m_isPaused := false;
     m_exitcode := 0;
     m_shouldBeJoined := true;
     m_isDetached := false;
     m_semRun := semRun;
     m_semSuspend := semSuspend |}.

(** [Detach()]: the fields it leaves; the join lock it takes for the two
    stores is recorded by [Create], its only caller. *)
Definition Detach (t : wxThreadInternal) : wxThreadInternal :=
  mkInternal (m_threadId t) (m_state t) (m_prio t) (m_created t)
    (m_cancelled t) (m_isPaused t) (m_exitcode t) false true
    (m_semRun t) (m_semSuspend t).

(** The scheduling priority [Create] asks for, from the range the policy
    allows; [None] where the source leaves the attribute alone. *)
Definition sched_priority (min_prio max_prio prio : Z) : option Z :=
  if bool_decide (min_prio = -1) || bool_decide (max_prio = -1) then None
  else if bool_decide (max_prio = min_prio) then None
  else Some (min_prio + (prio * (max_prio - min_prio)) `quot` 100).

(** [wxThreadInternal::Create(thread, stackSize)].  [thread_detached] is
    [thread->IsDetached()]; [rc] is the result of [pthread_create] and [tid]
    the identifier it stores on success. *)
Definition Create (thread_detached : bool) (rc tid : Z) (t : wxThreadInternal)
    : wxThreadError * wxThreadInternal * list event :=
  if negb (bool_decide (GetState t = STATE_NEW))
  then (wxTHREAD_RUNNING, t, [])
  else
    let t1 := if thread_detached then Detach t else t in
    let detach :=
      if thread_detached then [EvEnterJoinFlag; EvLeaveJoinFlag] else [] in
    let t2 := if bool_decide (rc = 0) then set_threadId tid t1 else t1 in
    if negb (bool_decide (rc = 0))
    then (wxTHREAD_NO_RESOURCE, SetState STATE_EXITED t2,
          detach ++ [EvPthreadCreate rc])
    else (wxTHREAD_NO_ERROR, set_created true t2,
          detach ++ [EvPthreadCreate rc]).

(** [SignalRun()]: [m_semRun.Post()], its result dropped. *)
Definition SignalRun (self : Z) (t : wxThreadInternal)
    : outcome unit * wxThreadInternal * list event :=
  match Sema.Post self (m_semRun t) with
  | (Blocked, _, _) => (Blocked, t, [])
  | (Returned _, s, evs) => (Returned tt, set_semRun s t, map EvSemRun evs)
  end.

Definition Run (self : Z) (t : wxThreadInternal)
    : outcome wxThreadError * wxThreadInternal * list event :=
  match SignalRun self (SetState STATE_RUNNING t) with
  | (Blocked, _, _) => (Blocked, t, [])
  | (Returned _, t', evs) => (Returned wxTHREAD_NO_ERROR, t', evs)
  end.

(** [wxThreadInternal::Wait()].  [isMain] is [wxThread::IsMain()] for the
    caller; [join] is what [pthread_join] returns once the joined thread has
    terminated: its error code and the value the thread returned. *)
Definition Wait (isMain : bool) (join : Z * ExitCode) (t : wxThreadInternal)
    : wxThreadInternal * list event :=
  let leave := if isMain then [EvMutexGuiLeave] else [] in
  let '(t', joined) :=
    if m_shouldBeJoined t then
      let t1 := if bool_decide (join.1 = 0) then SetExitCode join.2 t else t in
      (set_shouldBeJoined false t1, [EvPthreadJoin (GetId t) join.1])
    else (t, []) in
  let enter := if isMain then [EvMutexGuiEnter] else [] in
  (t', leave ++ [EvEnterJoinFlag] ++ joined ++ [EvLeaveJoinFlag] ++ enter).

(** [wxThreadInternal::Pause()]: [m_semSuspend.Wait()]. *)
Definition Pause (self : Z) (wakes : list wake) (t : wxThreadInternal)
    : outcome unit * wxThreadInternal * list event :=
  match Sema.Wait self wakes (m_semSuspend t) with
  | (Blocked, _, _) => (Blocked, t, [])
  | (Returned _, s, evs) =>
      (Returned tt, set_semSuspend s t, map EvSemSuspend evs)
  end.

Definition Resume (self : Z) (t : wxThreadInternal)
    : outcome unit * wxThreadInternal * list event :=
  if IsReallyPaused t then
    match Sema.Post self (m_semSuspend t) with
    | (Blocked, _, _) => (Blocked, t, [])
    | (Returned _, s, evs) =>
        (Returned tt,
         SetState STATE_RUNNING (SetReallyPaused false (set_semSuspend s t)),
         map EvSemSuspend evs)
    end
  else (Returned tt, SetState STATE_RUNNING t, []).

(** Number of [pthread_join] calls among the events. *)
Definition is_join (e : event) : bool :=
  match e with EvPthreadJoin _ _ => true | _ => false end.

Definition joins (evs : list event) : nat :=
  length (List.filter is_join evs).

(** Successive [wxThread::Wait()] calls on one thread; each returns
    [GetExitCode()] after [wxThreadInternal::Wait()]. *)
Fixpoint Wait_seq (calls : list (bool * (Z * ExitCode))) (t : wxThreadInternal)
    : list (ExitCode * list event) * wxThreadInternal :=
  match calls with
  | [] => ([], t)
  | (isMain, join) :: calls' =>
      let '(t1, evs) := Wait isMain join t in
      let '(rs, t2) := Wait_seq calls' t1 in
      ((GetExitCode t1, evs) :: rs, t2)
  end.

End ThreadInternal.

(** ** wxThread and the process-wide data *)

Module Thread.

Import Mutex Sema ThreadInternal.

(** What the threads of the process do, in program order.  Thread objects
    are named by their address. *)
Inductive event :=
| EvInternal (a : Z) (e : ThreadInternal.event)
| EvEnterCritsect (a : Z)
| EvLeaveCritsect (a : Z)
| EvCallEntry (a : Z)
| EvOnExit (a : Z)
| EvOnDelete (a : Z)
| EvDestroy (a : Z)
| EvPthreadSetspecific (v : Z)
| EvPthreadExit (status : ExitCode)
| EvWaitAllDeleted
| EvSignalAllDeleted
| EvDeleteMutexAllThreads
| EvMutexGuiUnlock
| EvDeleteMutexGui
| EvPthreadKeyDelete
| EvDeleteCondAllDeleted
| EvDeleteMutexDeleteThread.

#[global] Instance event_eq_dec : EqDecision event.
Proof. solve_decision. Defined.

Record wxThread := mkThread {
  m_internal : wxThreadInternal;
  m_isDetached : bool
}.

(** The thread objects alive, and the file-scope data of threadpsx.cpp. *)
Record world := mkWorld {
  heap : gmap Z wxThread;
  gs_allThreads : list Z;
  gs_nThreadsBeingDeleted : Z;
  trace : list event
}.

(** A computation on the world: it completes with a value, stays suspended,
    or touches a thread object that is not alive. *)
Inductive res (A : Type) : Type :=
| Done (v : A) (w : world)
| Suspended
| Undefined.
Arguments Done {A} v w.
Arguments Suspended {A}.
Arguments Undefined {A}.

Definition M (A : Type) : Type := world → res A.

#[global] Instance M_ret : MRet M := λ A v w, Done v w.

#[global] Instance M_bind : MBind M := λ A B f m w,
  match m w with
  | Done v w' => f v w'
  | Suspended => Suspended
  | Undefined => Undefined
  end.

Definition get : M world := λ w, Done w w.

Definition emit (e : event) : M unit := λ w,
  Done tt (mkWorld (heap w) (gs_allThreads w) (gs_nThreadsBeingDeleted w)
             (trace w ++ [e])).

(** The other threads run. *)
Definition modify (f : world → world) : M unit := λ w, Done tt (f w).

Definition suspend : M unit := λ _, Suspended.

Definition fault : M unit := λ _, Undefined.

Definition get_thread (a : Z) : M wxThread := λ w,
  match heap w !! a with
  | Some t => Done t w
  | None => Undefined
  end.

Definition put_thread (a : Z) (t : wxThread) : M unit := λ w,
  Done tt (mkWorld (<[a:=t]> (heap w)) (gs_allThreads w)
             (gs_nThreadsBeingDeleted w) (trace w)).

Definition set_nThreadsBeingDeleted (n : Z) : M unit := λ w,
  Done tt (mkWorld (heap w) (gs_allThreads w) n (trace w)).

(** A member function of [m_internal] run on the thread object at [a]. *)
Definition internal {A} (a : Z)
    (f : wxThreadInternal → outcome A * wxThreadInternal * list ThreadInternal.event)
    : M A := λ w,
  match heap w !! a with
  | None => Undefined
  | Some t =>
      match f (m_internal t) with
      | (Blocked, _, _) => Suspended
      | (Returned v, ti, evs) =>
          Done v (mkWorld (<[a:=mkThread ti (m_isDetached t)]> (heap w))
                    (gs_allThreads w) (gs_nThreadsBeingDeleted w)
                    (trace w ++ map (EvInternal a) evs))
      end
  end.

Definition modify_internal (a : Z) (f : wxThreadInternal → wxThreadInternal)
    : M unit :=
  internal a (λ ti, (Returned tt, f ti, [])).

(** [wxArray::Remove]: the first occurrence goes. *)
Fixpoint array_Remove (a : Z) (l : list Z) : list Z :=
  match l with
  | [] => []
  | x :: l' => if bool_decide (x = a) then l' else x :: array_Remove a l'
  end.

(** [wxThread::wxThread(kind)] for the object at address [a]. *)
Definition ctor (detached : bool) (a : Z)
    (semRun semSuspend : wxSemaphoreInternal) : M unit := λ w,
  Done tt (mkWorld
             (<[a:=mkThread (ThreadInternal.ctor semRun semSuspend) detached]>
                (heap w))
             (gs_allThreads w ++ [a]) (gs_nThreadsBeingDeleted w) (trace w)).

(** [wxThread::~wxThread()], run by [delete]. *)
Definition free_thread (a : Z) : M unit := λ w,
  Done tt (mkWorld (delete a (heap w)) (array_Remove a (gs_allThreads w))
             (gs_nThreadsBeingDeleted w) (trace w)).

Definition dtor (a : Z) : M unit :=
  get_thread a;;
  emit (EvEnterCritsect a);;
  emit (EvLeaveCritsect a);;
  emit (EvDestroy a);;
  free_thread a.

Definition Create (a : Z) (rc tid : Z) : M wxThreadError :=
  t ← get_thread a;
  emit (EvEnterCritsect a);;
  r ← internal a (λ ti,
         let '(r, ti', evs) := ThreadInternal.Create (m_isDetached t) rc tid ti in
         (Returned r, ti', evs));
  emit (EvLeaveCritsect a);;
  mret r.

(** [wxThread::Run()]; [rc] and [tid] are used when the thread has to be
    created first. *)
Definition Run (a self : Z) (rc tid : Z) : M wxThreadError :=
  t ← get_thread a;
  emit (EvEnterCritsect a);;
  rv ← (if negb (WasCreated (m_internal t)) then
          internal a (λ ti,
            let '(r, ti', evs) :=
              ThreadInternal.Create (m_isDetached t) rc tid ti in
            (Returned r, ti', evs))
        else mret wxTHREAD_NO_ERROR);
  if negb (bool_decide (rv = wxTHREAD_NO_ERROR))
  then emit (EvLeaveCritsect a);; mret rv
  else
    r ← internal a (ThreadInternal.Run self);
    emit (EvLeaveCritsect a);;
    mret r.

Definition Pause (a : Z) : M wxThreadError :=
  t ← get_thread a;
  emit (EvEnterCritsect a);;
  if negb (bool_decide (GetState (m_internal t) = STATE_RUNNING))
  then emit (EvLeaveCritsect a);; mret wxTHREAD_NOT_RUNNING
  else
    modify_internal a (SetState STATE_PAUSED);;
    emit (EvLeaveCritsect a);;
    mret wxTHREAD_NO_ERROR.

Definition Resume (a self : Z) : M wxThreadError :=
  t ← get_thread a;
  emit (EvEnterCritsect a);;
  r ← match GetState (m_internal t) with
      | STATE_PAUSED =>
          internal a (ThreadInternal.Resume self);; mret wxTHREAD_NO_ERROR
      | STATE_EXITED => mret wxTHREAD_NO_ERROR
      | _ => mret wxTHREAD_MISC_ERROR
      end;
  emit (EvLeaveCritsect a);;
  mret r.

(** [wxThread::Wait()]. *)
Definition Wait (a : Z) (isMain : bool) (join : Z * ExitCode) : M ExitCode :=
  internal a (λ ti,
    let '(ti', evs) := ThreadInternal.Wait isMain join ti in
    (Returned tt, ti', evs));;
  t ← get_thread a;
  mret (GetExitCode (m_internal t)).

(** [wxThread::Delete(rc)].  [want_rc] tells whether [rc] is non-null; the
    second component of the result is what is stored through it. *)
Definition Delete (a self : Z) (want_rc isMain : bool) (join : Z * ExitCode)
    : M (wxThreadError * option ExitCode) :=
  t ← get_thread a;
  let isDetached := m_isDetached t in
  emit (EvEnterCritsect a);;
  let state := GetState (m_internal t) in
  modify_internal a SetCancelFlag;;
  emit (EvLeaveCritsect a);;
  emit (EvOnDelete a);;
  let wait_for_it : M (option ExitCode) :=
    if negb isDetached then
      internal a (λ ti,
        let '(ti', evs) := ThreadInternal.Wait isMain join ti in
        (Returned tt, ti', evs));;
      t' ← get_thread a;
      mret (if want_rc then Some (GetExitCode (m_internal t')) else None)
    else mret None in
  rc ← match state with
       | STATE_NEW => internal a (SignalRun self);; mret None
       | STATE_EXITED => mret None
       | STATE_PAUSED => internal a (ThreadInternal.Resume self);; wait_for_it
       | STATE_RUNNING => wait_for_it
       end;
  mret (if bool_decide (state = STATE_NEW) then wxTHREAD_MISC_ERROR
        else wxTHREAD_NO_ERROR, rc).

Definition ScheduleThreadForDeletion : M unit :=
  w ← get;
  set_nThreadsBeingDeleted (to_size_t (gs_nThreadsBeingDeleted w + 1)).

Definition DeleteThread (a : Z) : M unit :=
  dtor a;;
  w ← get;
  let n := to_size_t (gs_nThreadsBeingDeleted w - 1) in
  set_nThreadsBeingDeleted n;;
  if bool_decide (n = 0) then emit EvSignalAllDeleted else mret tt.

(** [wxThread::Exit(status)].  [pthread_exit] ends the OS thread; the value
    returned here is the one the thread terminates with. *)
Definition Exit (a : Z) (status : ExitCode) : M ExitCode :=
  t ← get_thread a;
  (if m_isDetached t then ScheduleThreadForDeletion else mret tt);;
  emit (EvOnExit a);;
  (if m_isDetached t then
     DeleteThread a;;
     emit (EvPthreadSetspecific 0)
   else
     emit (EvEnterCritsect a);;
     modify_internal a (SetState STATE_EXITED);;
     emit (EvLeaveCritsect a));;
  emit (EvPthreadExit status);;
  mret status.

(** [wxThreadInternal::PthreadStart(thread)], the entry function of the OS
    thread [self] made for the object at [a].  [rc] is the result of
    [pthread_setspecific], [wakes] the wake-ups seen while waiting on
    [m_semRun], [entry] the value returned by the user's [Entry()].  The
    result is the value the OS thread terminates with. *)
Definition PthreadStart (a self : Z) (rc : Z) (wakes : list wake)
    (entry : ExitCode) : M ExitCode :=
  get_thread a;;
  emit (EvPthreadSetspecific a);;
  if negb (bool_decide (rc = 0)) then mret (-1)
  else
    internal a (λ ti,
      match Sema.Wait self wakes (m_semRun ti) with
      | (Blocked, _, _) => (Blocked, ti, [])
      | (Returned _, s, evs) => (Returned tt, set_semRun s ti, map EvSemRun evs)
      end);;
    emit (EvEnterCritsect a);;
    t ← get_thread a;
    let dontRunAtAll :=
      bool_decide (GetState (m_internal t) = STATE_NEW)
      && WasCancelled (m_internal t) in
    emit (EvLeaveCritsect a);;
    (if negb dontRunAtAll then
       emit (EvCallEntry a);;
       modify_internal a (SetExitCode entry);;
       emit (EvEnterCritsect a);;
       modify_internal a (SetState STATE_EXITED);;
       emit (EvLeaveCritsect a)
     else mret tt);;
    if dontRunAtAll then
      dtor a;;
      mret EXITCODE_CANCELLED
    else
      t' ← get_thread a;
      Exit a (m_exitcode (m_internal t')).

End Thread.

(** ** wxThreadModule *)

Module ThreadModule.

Import Mutex Sema ThreadInternal Thread.

(** What happens around one [Delete()] call of the shutdown loop: the result
    [pthread_join] gives if it is called, and the progress the other OS
    threads make until the call returns. *)
Record delete_env := mkEnv {
  env_join : Z * ExitCode;
  env_others : world → world
}.

(** The loop of [OnExit]: [k] iterations are left, [n] were done. *)
Fixpoint OnExit_loop (self : Z) (isMain : bool) (sched : nat → delete_env)
    (n k : nat) : M unit :=
  match k with
  | O => mret tt
  | S k' =>
      w ← get;
      match gs_allThreads w with
      | [] => fault
      | a :: _ =>
          Delete a self false isMain (env_join (sched n));;
          modify (env_others (sched n));;
          OnExit_loop self isMain sched (S n) k'
      end
  end.

(** [wxThreadModule::OnExit()].  [woken] is the progress of the other
    threads while the caller waits on [gs_condAllDeleted]; [None] when the
    condition has not been signalled. *)
Definition OnExit (self : Z) (isMain : bool) (woken : option (world → world))
    (sched : nat → delete_env) : M unit :=
  w ← get;
  let nThreadsBeingDeleted := gs_nThreadsBeingDeleted w in
  (if bool_decide (0 < nThreadsBeingDeleted) then
     emit EvWaitAllDeleted;;
     match woken with
     | None => suspend
     | Some others => modify others
     end
   else mret tt);;
  w1 ← get;
  let count := length (gs_allThreads w1) in
  OnExit_loop self isMain sched 0 count;;
  emit EvDeleteMutexAllThreads;;
  emit EvMutexGuiUnlock;;
  emit EvDeleteMutexGui;;
  emit EvPthreadKeyDelete;;
  emit EvDeleteCondAllDeleted;;
  emit EvDeleteMutexDeleteThread.

(** Nothing else runs while the shutdown loop does. *)
Definition alone (join : Z * ExitCode) : nat → delete_env :=
  λ _, mkEnv join (λ w, w).

End ThreadModule.

(** ** Scenarios *)

Module Scenario.

Import Mutex Sema ThreadInternal Thread ThreadModule.

(** A gate semaphore as the specification has it: count 0, at most 1. *)
Definition gate : wxSemaphoreInternal := Sema.ctor (mkRaw 0 0 false) 0 1 0 0.

Definition empty_world : world := mkWorld ∅ [] 0 [].

(** The world a computation leaves when it completes. *)
Definition after {A} (m : M A) (w : world) : world :=
  match m w with
  | Done _ w' => w'
  | _ => w
  end.

(** The main thread, and the OS thread made for the object at address 1. *)
Definition main_thread : Z := 100.
Definition worker : Z := 77.

(** A joinable thread is constructed and created. *)
Definition joinable_created : world :=
  after (ctor false 1 gate gate;; Create 1 0 worker) empty_world.

(** A joinable thread is constructed and created, then [Delete()] is called
    on it before any [Run()]. *)
Definition joinable_deleted_before_run : world :=
  after (ctor false 1 gate gate;;
         Create 1 0 worker;;
         Delete 1 main_thread false true (0, 0)) empty_world.

(** A joinable thread is constructed, run to the end of an [Entry()] that
    returns 42, and joined; its object is still alive. *)
Definition joinable_finished : world :=
  after (ctor false 1 gate gate;;
         Run 1 main_thread 0 worker;;
         PthreadStart 1 worker 0 [] 42;;
         Wait 1 true (0, 42)) empty_world.

(** Two such threads, at addresses 1 and 2. *)
Definition two_joinable_finished : world :=
  after (ctor false 2 gate gate;;
         Run 2 main_thread 0 78;;
         PthreadStart 2 78 0 [] 43;;
         Wait 2 true (0, 43)) joinable_finished.

(** A detached thread is constructed and created but never run. *)
Definition detached_created : world :=
  after (ctor true 1 gate gate;; Create 1 0 worker) empty_world.

(** While the shutdown loop deletes it, the OS thread of the detached thread
    runs its entry function. *)
Definition worker_runs : nat → delete_env :=
  λ _, mkEnv (0, 0) (after (PthreadStart 1 worker 0 [] 42)).

(** A computation that leaves the registry of threads as it found it. *)
Definition keeps_registry {A} (m : M A) : Prop :=
  ∀ w v w', m w = Done v w' → gs_allThreads w' = gs_allThreads w.

(** Number of [Delete()] calls on the object at [a] among the events. *)
Definition deletes (a : Z) (evs : list event) : nat :=
  length (List.filter (λ e, bool_decide (e = EvOnDelete a)) evs).

(** Number of calls of the user's [Entry()] among the events. *)
Definition entries (evs : list event) : nat :=
  length (List.filter
            (λ e, match e with EvCallEntry _ => true | _ => false end) evs).

End Scenario.

(** ** Deadlines of the timed calls *)

Module Timespec.

Import Mutex Sema.

(** The [timespec] that [wxMutexInternal::Lock(ms)] hands to
    [pthread_mutex_timedlock]: seconds and nanoseconds. *)
Definition Lock_timespec (ms : Z) (tv : option (Z * Z)) (now : Z) : Z * Z :=
  let MSEC_IN_SEC := 1000 in
  let NSEC_IN_MSEC := 1000000 in
  let NSEC_IN_USEC := 1000 in
  let NSEC_IN_SEC := MSEC_IN_SEC * NSEC_IN_MSEC in
  let seconds := ms / MSEC_IN_SEC in
  let nanoseconds := (ms mod MSEC_IN_SEC) * NSEC_IN_MSEC in
  let '(sec0, nsec0) :=
    match tv with
    | Some (tv_sec, tv_usec) => (tv_sec, tv_usec * NSEC_IN_USEC)
    | None => (now, 0)
    end in
  let sec1 := sec0 + seconds in
  let nsec1 := nsec0 + nanoseconds in
  if bool_decide (NSEC_IN_SEC < nsec1)
  then (sec1 + 1, nsec1 - NSEC_IN_SEC) else (sec1, nsec1).

(** [(int)x]: conversion to a 32-bit signed integer. *)
Definition to_int (x : Z) : Z := (x + 2 ^ 31) mod 2 ^ 32 - 2 ^ 31.

(** The [timespec] that [wxConditionInternal::WaitTimeout(milliseconds)]
    hands to [pthread_cond_timedwait]; [now] is what [wxGetUTCTimeMillis()]
    returns.  The 64-bit values of [wxLongLong] are integers here, its
    division truncates, and [GetLo()] is its low 32 bits. *)
Definition WaitTimeout_timespec (now milliseconds : Z) : Z * Z :=
  let curtime := now + milliseconds in
  let temp := curtime `quot` 1000 in
  let sec := to_int (GetLo temp) in
  let temp1 := temp * 1000 in
  let temp2 := curtime - temp1 in
  let millis := to_int (GetLo temp2) in
  (sec, millis * 1000 * 1000).

End Timespec.

(** ** Runs of semaphore calls *)

Module SemaRun.

Import Mutex Sema.

Definition is_store (e : Sema.event) : bool :=
  match e with EvStoreCount _ => true | _ => false end.

(** Number of stores to [m_count] among the events. *)
Definition stores (evs : list Sema.event) : nat :=
  length (List.filter is_store evs).

(** Calls issued one after the other, each with the thread issuing it; the
    log pairs each call with what it returned. *)
Fixpoint run (cs : list (Z * sema_call)) (s : wxSemaphoreInternal)
    : list (sema_call * outcome wxSemaError) * wxSemaphoreInternal :=
  match cs with
  | [] => ([], s)
  | (self, c) :: cs' =>
      let '(r, s1, _) := call self c s in
      let '(log, s2) := run cs' s1 in
      ((c, r) :: log, s2)
  end.

(** A call during which no other thread touches the semaphore: a post, a
    [TryWait], or a [Wait] that sees no wake-up. *)
Definition undisturbed (c : sema_call) : Prop :=
  match c with
  | CallPost | CallTryWait | CallWait [] => True
  | _ => False
  end.

(** A wait that took a unit. *)
Definition took (x : sema_call * outcome wxSemaError) : bool :=
  match x with
  | (CallTryWait, Returned wxSEMA_NO_ERROR)
  | (CallWait _, Returned wxSEMA_NO_ERROR)
  | (CallWaitTimeout _ _ _, Returned wxSEMA_NO_ERROR) => true
  | _ => false
  end.

(** A post that added a unit: it returned, and not with an overflow. *)
Definition gave (x : sema_call * outcome wxSemaError) : bool :=
  match x with
  | (CallPost, Returned wxSEMA_OVERFLOW) => false
  | (CallPost, Returned _) => true
  | _ => false
  end.

Definition takes (log : list (sema_call * outcome wxSemaError)) : Z :=
  Z.of_nat (length (List.filter took log)).

Definition gives (log : list (sema_call * outcome wxSemaError)) : Z :=
  Z.of_nat (length (List.filter gave log)).

(** A wake-up that finds nothing to take. *)
Definition spurious (w : wake) : Prop := wake_err w = 0 ∧ wake_count w = 0.

(** The timeouts handed to the condition among the events. *)
Fixpoint timeouts (evs : list Sema.event) : list Z :=
  match evs with
  | [] => []
  | EvCondWaitTimeout r :: evs' => r :: timeouts evs'
  | _ :: evs' => timeouts evs'
  end.

End SemaRun.

(** ** Further member functions of wxThread *)

Module ThreadExtra.

Import Mutex Sema ThreadInternal Thread ThreadModule Timespec.

Definition IsRunning (a : Z) : M bool :=
  t ← get_thread a;
  emit (EvEnterCritsect a);;
  emit (EvLeaveCritsect a);;
  mret (bool_decide (GetState (m_internal t) = STATE_RUNNING)).

Definition IsAlive (a : Z) : M bool :=
  t ← get_thread a;
  emit (EvEnterCritsect a);;
  emit (EvLeaveCritsect a);;
  mret (match GetState (m_internal t) with
        | STATE_RUNNING | STATE_PAUSED => true
        | _ => false
        end).

Definition IsPaused (a : Z) : M bool :=
  t ← get_thread a;
  emit (EvEnterCritsect a);;
  emit (EvLeaveCritsect a);;
  mret (bool_decide (GetState (m_internal t) = STATE_PAUSED)).

(** [(unsigned int)x]. *)
Definition to_unsigned (x : Z) : Z := x mod 2 ^ 32.

(** [wxThread::GetPriority()]: the [int] kept by [m_internal], as an
    [unsigned int]. *)
Definition GetPriority (a : Z) : M Z :=
  t ← get_thread a;
  emit (EvEnterCritsect a);;
  emit (EvLeaveCritsect a);;
  mret (to_unsigned (ThreadInternal.m_prio (m_internal t))).

(** The system call [SetPriority] makes on a started thread. *)
Inductive priority_call :=
| Setpriority (nice : Z)
| PthreadSetschedparam (tid : Z) (sched_priority : Z).

(** The nice value for a priority on Linux: [-(2*(int)prio)/5 + 20], in the
    arithmetic of [int]: the conversion of [prio], the product and the
    negation wrap. *)
Definition linux_nice (prio : Z) : Z :=
  to_int (- to_int (2 * to_int prio)) `quot` 5 + 20.

(** [wxThread::SetPriority(prio)].  [have_prio] and [linux] are the build
    flags HAVE_THREAD_PRIORITY_FUNCTIONS and __LINUX__; the result is the
    system call made, if any.  The [unsigned int] [prio] is converted to
    [int] where it is stored and where it is handed on. *)
Definition SetPriority (have_prio linux : bool) (a : Z) (prio : Z)
    : M (option priority_call) :=
  t ← get_thread a;
  emit (EvEnterCritsect a);;
  r ← match GetState (m_internal t) with
      | STATE_NEW =>
          modify_internal a (ThreadInternal.SetPriority (to_int prio));;
          mret None
      | STATE_RUNNING | STATE_PAUSED =>
          mret (if have_prio then
                  Some (if linux then Setpriority (linux_nice prio)
                        else PthreadSetschedparam (GetId (m_internal t))
                               (to_int prio))
                else None)
      | STATE_EXITED => mret None
      end;
  emit (EvLeaveCritsect a);;
  mret r.

(** What [Kill] does besides changing the world: the user hook [OnKill()]
    is called, and [pthread_cancel] may be. *)
Inductive kill_action :=
| KillOnKill
| KillPthreadCancel (tid : Z).

(** The part of [wxThread::Kill()] under [default:], for the thread at [a].
    [have_cancel] and [have_cleanup] are the build flags HAVE_PTHREAD_CANCEL
    and wxHAVE_PTHREAD_CLEANUP; [cancel_rc] is the result of
    [pthread_cancel]. *)
Definition Kill_cancel (have_cancel have_cleanup : bool) (a : Z) (cancel_rc : Z)
    : M (wxThreadError * list kill_action) :=
  if negb have_cancel then mret (wxTHREAD_MISC_ERROR, [KillOnKill])
  else
    t1 ← get_thread a;
    let acts := [KillOnKill; KillPthreadCancel (GetId (m_internal t1))] in
    if negb (bool_decide (cancel_rc = 0))
    then mret (wxTHREAD_MISC_ERROR, acts)
    else
      (if m_isDetached t1 then
         if negb have_cleanup
         then ScheduleThreadForDeletion;; DeleteThread a
         else mret tt
       else modify_internal a (SetExitCode EXITCODE_CANCELLED));;
      mret (wxTHREAD_NO_ERROR, acts).

(** [wxThread::Kill()]. *)
Definition Kill (have_cancel have_cleanup : bool) (a self : Z) (cancel_rc : Z)
    : M (wxThreadError * list kill_action) :=
  t ← get_thread a;
  match GetState (m_internal t) with
  | STATE_NEW | STATE_EXITED => mret (wxTHREAD_NOT_RUNNING, [KillOnKill])
  | st =>
      (if bool_decide (st = STATE_PAUSED)
       then Thread.Resume a self;; mret tt else mret tt);;
      Kill_cancel have_cancel have_cleanup a cancel_rc
  end.

(** A thread [Kill] goes on to cancel. *)
Definition killable (t : wxThread) : bool :=
  match GetState (m_internal t) with
  | STATE_RUNNING | STATE_PAUSED => true
  | _ => false
  end.

(** The events that end the life of a thread object: the user's
    [OnExit()], the destructor, the signal that no deletion is pending. *)
Definition is_lifecycle (e : event) : bool :=
  match e with
  | EvOnExit _ | EvDestroy _ | EvSignalAllDeleted => true
  | _ => false
  end.

Definition lifecycle (evs : list event) : list event :=
  List.filter is_lifecycle evs.

(** The registry lists each live thread object once, and nothing else. *)
Definition consistent (w : world) : Prop :=
  NoDup (gs_allThreads w) ∧
  ∀ a, a ∈ gs_allThreads w ↔ is_Some (heap w !! a).

(** A computation that keeps a property of the world. *)
Definition preserves {A} (P : world → Prop) (m : M A) : Prop :=
  ∀ w v w', P w → m w = Done v w' → P w'.

(** The operations on threads, with their arguments. *)
Inductive thread_op :=
| OpCtor (detached : bool) (a : Z) (semRun semSuspend : wxSemaphoreInternal)
| OpDtor (a : Z)
| OpCreate (a rc tid : Z)
| OpRun (a self rc tid : Z)
| OpPause (a : Z)
| OpResume (a self : Z)
| OpWait (a : Z) (isMain : bool) (join : Z * ExitCode)
| OpDelete (a self : Z) (want_rc isMain : bool) (join : Z * ExitCode)
| OpKill (have_cancel have_cleanup : bool) (a self cancel_rc : Z)
| OpSetPriority (have_prio linux : bool) (a prio : Z)
| OpExit (a : Z) (status : ExitCode)
| OpPthreadStart (a self rc : Z) (wakes : list wake) (entry : ExitCode).

Definition exec (op : thread_op) : M unit :=
  match op with
  | OpCtor d a sr ss => Thread.ctor d a sr ss
  | OpDtor a => dtor a
  | OpCreate a rc tid => Thread.Create a rc tid;; mret tt
  | OpRun a self rc tid => Thread.Run a self rc tid;; mret tt
  | OpPause a => Thread.Pause a;; mret tt
  | OpResume a self => Thread.Resume a self;; mret tt
  | OpWait a isMain join => Thread.Wait a isMain join;; mret tt
  | OpDelete a self want_rc isMain join =>
      Delete a self want_rc isMain join;; mret tt
  | OpKill hc hcl a self rc => Kill hc hcl a self rc;; mret tt
  | OpSetPriority hp lx a prio => SetPriority hp lx a prio;; mret tt
  | OpExit a status => Exit a status;; mret tt
  | OpPthreadStart a self rc wakes entry =>
      PthreadStart a self rc wakes entry;; mret tt
  end.

(** A constructor needs storage no live object occupies. *)
Definition fresh (op : thread_op) (w : world) : Prop :=
  match op with
  | OpCtor _ a _ _ => heap w !! a = None
  | _ => True
  end.

(** Operations one after the other; a step that does not complete ends the
    run. *)
Fixpoint exec_all (ops : list thread_op) : M unit :=
  match ops with
  | [] => mret tt
  | op :: ops' => exec op;; exec_all ops'
  end.

(** Each constructor of the run finds its storage free at its turn. *)
Fixpoint all_fresh (ops : list thread_op) (w : world) : Prop :=
  match ops with
  | [] => True
  | op :: ops' =>
      fresh op w ∧ ∀ w', exec op w = Done tt w' → all_fresh ops' w'
  end.

(** The events [a] run of [n] [Delete()] calls on an exited thread leaves. *)
Fixpoint delete_events (a : Z) (n : nat) : list event :=
  match n with
  | O => []
  | S n' =>
      [EvEnterCritsect a; EvLeaveCritsect a; EvOnDelete a]
        ++ delete_events a n'
  end.

Definition is_join_event (e : event) : bool :=
  match e with EvInternal _ (EvPthreadJoin _ _) => true | _ => false end.

(** Number of [pthread_join] calls among the events of the world. *)
Definition world_joins (evs : list event) : nat :=
  length (List.filter is_join_event evs).

End ThreadExtra.

(** * Properties *)

(** Splits on every test a member function makes. *)
Ltac split_tests :=
  repeat match goal with
  | |- context [bool_decide ?P] => destruct (bool_decide_reflect P)
  | H : context [bool_decide ?P] |- _ => destruct (bool_decide_reflect P)
  end.

(** Exposes the pthread calls inside a member function of the mutex. *)
Ltac unfold_calls :=
  cbv [Mutex.call Mutex.Lock Mutex.LockTimeout Mutex.TryLock Mutex.Unlock
       Mutex.HandleLockResult Mutex.pthread_mutex_timedlock
       Mutex.pthread_mutex_trylock Mutex.pthread_mutex_lock
       Mutex.pthread_mutex_unlock Mutex.set_mutex Mutex.set_owner
       Mutex.m_mutex Mutex.m_type Mutex.m_owningThread Mutex.m_isOk].

(** ** The mutex *)

Section MutexProperties.

Import Mutex.

Lemma Unlock_owner self m : m_owningThread (Unlock self m).2 = 0.
Proof.
  unfold Unlock.
  destruct (pthread_mutex_unlock _ self (m_mutex (set_owner 0 m))) as [err pm].
  split_tests; reflexivity.
Qed.

Lemma ctor_owner_tracks_holder ty err : owner_tracks_holder (ctor ty err).
Proof. intros H. simpl in H. congruence. Qed.

Lemma call_owner_tracks_holder self c m :
  owner_tracks_holder m → owner_tracks_holder (call self c m).2.
Proof.
  destruct m as [pm ok ty own]. unfold owner_tracks_holder. intros Hinv.
  destruct c as [|[] ms [[s u]|] now| |]; destruct pm as [| |h d], ty;
    unfold_calls; simpl in *; split_tests; simpl in *;
    try tauto; try (intros; split; congruence);
    try (intros Hne; destruct (Hinv Hne); split; congruence).
Qed.

Lemma run_owner_tracks_holder cs m :
  owner_tracks_holder m → owner_tracks_holder (run cs m).2.
Proof.
  revert m. induction cs as [|[self c] cs IH]; intros m Hm; [exact Hm|].
  simpl. pose proof (call_owner_tracks_holder self c m Hm) as H1.
  destruct (call self c m) as [r m1]. simpl in H1.
  specialize (IH m1 H1). destruct (run cs m1) as [rs m2]. exact IH.
Qed.

Lemma ctor_single_thread_inv self err :
  single_thread_inv self (ctor wxMUTEX_DEFAULT err).
Proof.
  split; [reflexivity|]. unfold ctor; simpl.
  destruct (bool_decide_reflect (err = 0)); auto.
Qed.

Lemma call_single_thread_inv self c m :
  self ≠ 0 → single_thread_inv self m →
  single_thread_inv self (call self c m).2 ∧ is_blocked (call self c m).1 = false.
Proof.
  intros Hself [Hty Hst]. destruct m as [pm ok ty own]. simpl in *. subst ty.
  unfold single_thread_inv.
  destruct Hst as [[-> ->]|[[-> ->]|[-> ->]]];
    destruct c as [|[] ms [[s u]|] now| |];
    unfold_calls; simpl; split_tests; simpl; try congruence; auto 10.
Qed.

Lemma run_single_thread_inv self cs m :
  self ≠ 0 → single_thread_inv self m →
  single_thread_inv self (run (by_thread self cs) m).2 ∧
  Forall (λ r, is_blocked r = false) (run (by_thread self cs) m).1.
Proof.
  intros Hself. revert m. induction cs as [|c cs IH]; intros m Hm.
  - simpl. split; [exact Hm|constructor].
  - simpl. destruct (call_single_thread_inv self c m Hself Hm) as [H1 H2].
    destruct (call self c m) as [r m1]. simpl in *.
    destruct (IH m1 H1) as [H3 H4].
    destruct (run (by_thread self cs) m1) as [rs m2]. simpl in *.
    split; [exact H3|]. constructor; assumption.
Qed.

Lemma Lock_by_owner self m :
  self ≠ 0 → m_type m = wxMUTEX_DEFAULT → m_owningThread m = self →
  Lock self m = (Returned wxMUTEX_DEAD_LOCK, m).
Proof.
  intros Hself Hty Hown. unfold Lock.
  split_tests; simpl; congruence.
Qed.

Lemma Lock_ok_sets_owner self m m' :
  m_type m = wxMUTEX_DEFAULT →
  Lock self m = (Returned wxMUTEX_NO_ERROR, m') →
  m_type m' = wxMUTEX_DEFAULT ∧ m_owningThread m' = self.
Proof.
  intros Hty. destruct m as [pm ok ty own]. simpl in Hty. subst ty.
  unfold Lock; simpl.
  destruct pm as [| |h d]; simpl; split_tests; simpl;
    intros H; inversion H; subst; simpl; auto.
Qed.

(** C5: for a default mutex and any sequence of calls from a single thread
    (whose identifier is not the reserved value 0), no call of the sequence
    suspends the thread; the tracked owner is the thread exactly when it
    holds the native lock; a [Lock()] issued while the thread is the tracked
    owner returns [wxMUTEX_DEAD_LOCK] and leaves the mutex as it is; so a
    second [Lock()] right after a successful one returns
    [wxMUTEX_DEAD_LOCK]. *)
Theorem Lock_by_owner_returns_dead_lock self err cs :
  self ≠ 0 →
  let m := (run (by_thread self cs) (ctor wxMUTEX_DEFAULT err)).2 in
  Forall (λ r, is_blocked r = false)
    (run (by_thread self cs) (ctor wxMUTEX_DEFAULT err)).1 ∧
  (m_owningThread m = self ↔ m_mutex m = PM_held self 0) ∧
  (m_owningThread m = self → Lock self m = (Returned wxMUTEX_DEAD_LOCK, m)) ∧
  (∀ m', Lock self m = (Returned wxMUTEX_NO_ERROR, m') →
         Lock self m' = (Returned wxMUTEX_DEAD_LOCK, m')).
Proof.
  intros Hself m.
  destruct (run_single_thread_inv self cs (ctor wxMUTEX_DEFAULT err) Hself
              (ctor_single_thread_inv self err)) as [[Hty Hst] Hnb].
  fold m in Hty, Hst. split; [exact Hnb|]. split; [|split].
  - destruct Hst as [[E1 E2]|[[E1 E2]|[E1 E2]]]; rewrite E1, E2;
      split; intros H; congruence.
  - intros Hown. apply Lock_by_owner; assumption.
  - intros m' Hlock.
    destruct (Lock_ok_sets_owner self m m' Hty Hlock) as [Hty' Hown'].
    apply Lock_by_owner; assumption.
Qed.

Lemma Lock_by_owner_returns_dead_lock_witness :
  7 ≠ 0 ∧
  Lock 7 (run (by_thread 7 [CallLock]) (ctor wxMUTEX_DEFAULT 0)).2 =
    (Returned wxMUTEX_DEAD_LOCK,
     (run (by_thread 7 [CallLock]) (ctor wxMUTEX_DEFAULT 0)).2).
Proof.
  assert (H7 : 7 ≠ 0) by lia. split; [exact H7|].
  destruct (Lock_by_owner_returns_dead_lock 7 0 [CallLock] H7)
    as (_ & _ & Hrelock & _).
  apply Hrelock. reflexivity.
Defined.

(** The error paths of [Unlock()] on a mutex whose owner field is set: not
    owned, and an invalid native lock. *)
Example Unlock_not_owned_clears_owner :
  Unlock 3 (mkMutex (PM_held 5 0) true wxMUTEX_RECURSIVE 5) =
    (wxMUTEX_UNLOCKED, mkMutex (PM_held 5 0) true wxMUTEX_RECURSIVE 0).
Proof. reflexivity. Qed.

Example Unlock_invalid_clears_owner :
  Unlock 3 (mkMutex PM_invalid false wxMUTEX_DEFAULT 5) =
    (wxMUTEX_MISC_ERROR, mkMutex PM_invalid false wxMUTEX_DEFAULT 0).
Proof. reflexivity. Qed.

(** C6, as stated, fails: while a thread sleeps in the condition wait of a
    semaphore's [Wait()], the mutex of the semaphore is of the default kind
    and its owner field names the sleeper, but its native lock is free. *)
Lemma owner_set_while_condition_wait_released_lock :
  Sema.Wait_sleeping 7 (Sema.ctor (Sema.mkRaw 0 0 false) 0 1 0 0) =
    Some (Sema.mkSema (mkMutex PM_free true wxMUTEX_DEFAULT 7) true 0 1 true) ∧
  ¬ owner_tracks_holder (mkMutex PM_free true wxMUTEX_DEFAULT 7).
Proof.
  split; [reflexivity|]. unfold owner_tracks_holder. cbn.
  intros H. destruct H as [_ H]; [lia|discriminate].
Qed.

(** C6, amended: [Unlock()] leaves the tracked owner cleared whatever it
    returns, the results [wxMUTEX_UNLOCKED] and [wxMUTEX_MISC_ERROR]
    included; and after any sequence of [Lock], timed [Lock], [TryLock] and
    [Unlock] calls by any threads on a constructed mutex, with no condition
    wait on it, a set owner means that the mutex is of the default kind and
    that its native lock is held by that owner. *)
Theorem Unlock_clears_owner_and_owner_set_only_while_locked
    self m0 ty err cs :
  let m := (run cs (ctor ty err)).2 in
  m_owningThread (Unlock self m0).2 = 0 ∧
  ((Unlock self m0).1 = wxMUTEX_NO_ERROR ∨
   (Unlock self m0).1 = wxMUTEX_UNLOCKED ∨
   (Unlock self m0).1 = wxMUTEX_MISC_ERROR) ∧
  (m_owningThread m ≠ 0 →
   m_type m = wxMUTEX_DEFAULT ∧ m_mutex m = PM_held (m_owningThread m) 0).
Proof.
  intros m. split; [apply Unlock_owner|]. split.
  - unfold Unlock.
    destruct (pthread_mutex_unlock _ self (m_mutex (set_owner 0 m0))) as [e pm].
    split_tests; simpl; auto.
  - apply (run_owner_tracks_holder cs (ctor ty err)).
    apply ctor_owner_tracks_holder.
Qed.

Lemma Unlock_clears_owner_and_owner_set_only_while_locked_witness :
  let m := (run [(7, CallLock)] (ctor wxMUTEX_DEFAULT 0)).2 in
  m_owningThread m ≠ 0 ∧
  m_type m = wxMUTEX_DEFAULT ∧ m_mutex m = PM_held (m_owningThread m) 0.
Proof.
  assert (H : m_owningThread (run [(7, CallLock)] (ctor wxMUTEX_DEFAULT 0)).2 ≠ 0)
    by (vm_compute; discriminate).
  split; [exact H|].
  apply (Unlock_clears_owner_and_owner_set_only_while_locked
           7 (ctor wxMUTEX_DEFAULT 0) wxMUTEX_DEFAULT 0 [(7, CallLock)]).
  exact H.
Defined.

End MutexProperties.

(** ** The semaphore *)

Section SemaProperties.

Import Mutex Sema.

Lemma to_size_t_small x : 0 <= x <= SIZE_MAX → to_size_t x = x.
Proof. unfold SIZE_MAX, to_size_t. intros H. apply Z.mod_small. lia. Qed.

Lemma to_size_t_range x : 0 <= to_size_t x <= SIZE_MAX.
Proof.
  unfold SIZE_MAX, to_size_t.
  pose proof (Z.mod_pos_bound x (2 ^ 64) ltac:(lia)). lia.
Qed.

Lemma to_size_t_wrap : to_size_t (SIZE_MAX + 1) = 0.
Proof. reflexivity. Qed.

(** A property of the counters survives the locker when the body keeps it. *)
Lemma with_locker_keeps (Q : Z → Z → Prop) self s body :
  Q (m_count s) (m_maxcount s) →
  (∀ s0, m_count s0 = m_count s → m_maxcount s0 = m_maxcount s →
         Q (m_count (body s0).1.2) (m_maxcount (body s0).1.2)) →
  Q (m_count (with_locker self s body).1.2)
    (m_maxcount (with_locker self s body).1.2).
Proof.
  intros Hs Hbody. unfold with_locker.
  destruct (Lock self (m_mutex s)) as [[e|] mx]; [|exact Hs].
  specialize (Hbody (set_mx mx s) eq_refl eq_refl).
  destruct (body (set_mx mx s)) as [[[r|] s2] evs]; simpl in *; [|exact Hs].
  destruct (bool_decide (e = wxMUTEX_NO_ERROR)); [|exact Hbody].
  destruct (Unlock self (m_mutex s2)) as [u mx']. exact Hbody.
Qed.

Lemma sem_ok_counters s : sem_ok s ↔ counters_ok (m_count s) (m_maxcount s).
Proof. reflexivity. Qed.

Lemma decrement_ok c m :
  counters_ok c m → c ≠ 0 → counters_ok (to_size_t (c - 1)) m.
Proof.
  unfold counters_ok. intros [[Hc Hm] Hb] Hne.
  rewrite to_size_t_small by lia. split; [lia|]. intros H. specialize (Hb H). lia.
Qed.

Lemma increment_ok c m :
  counters_ok c m → ¬ (0 < m ∧ c = m) → counters_ok (to_size_t (c + 1)) m.
Proof.
  unfold counters_ok. intros [[Hc Hm] Hb] Hne.
  split; [split; [apply to_size_t_range|exact Hm]|].
  intros H. specialize (Hb H). rewrite to_size_t_small by lia. lia.
Qed.

Lemma on_wake_ok w s :
  wake_ok (m_maxcount s) w →
  counters_ok (m_count s) (m_maxcount s) →
  counters_ok (m_count (on_wake w s)) (m_maxcount (on_wake w s)).
Proof.
  unfold on_wake, wake_ok, counters_ok. intros [Hw Hwb] Hs.
  destruct (_ || _); simpl; [|exact Hs]. intuition lia.
Qed.

Lemma on_wake_maxcount w s : m_maxcount (on_wake w s) = m_maxcount s.
Proof. unfold on_wake. destruct (_ || _); reflexivity. Qed.

Lemma Wait_loop_ok wakes s :
  Forall (wake_ok (m_maxcount s)) wakes →
  counters_ok (m_count s) (m_maxcount s) →
  counters_ok (m_count (Wait_loop wakes s).1.2)
              (m_maxcount (Wait_loop wakes s).1.2).
Proof.
  revert s. induction wakes as [|w wakes IH]; intros s Hw Hs; simpl.
  - destruct (bool_decide_reflect (m_count s = 0)); simpl; [exact Hs|].
    apply decrement_ok; assumption.
  - destruct (bool_decide_reflect (m_count s = 0)); simpl;
      [|apply decrement_ok; assumption].
    inversion Hw as [|? ? Hw1 Hw2]; subst.
    pose proof (on_wake_ok w s Hw1 Hs) as Hs1.
    destruct (bool_decide (cond_Wait (wake_err w) = wxCOND_NO_ERROR));
      simpl; [|exact Hs1].
    assert (Hw3 : Forall (wake_ok (m_maxcount (on_wake w s))) wakes)
      by (rewrite on_wake_maxcount; exact Hw2).
    specialize (IH (on_wake w s) Hw3 Hs1).
    destruct (Wait_loop wakes (on_wake w s)) as [[r s'] evs]. exact IH.
Qed.

Lemma WaitTimeout_loop_ok ms start steps s :
  Forall (wake_ok (m_maxcount s)) (map snd steps) →
  counters_ok (m_count s) (m_maxcount s) →
  counters_ok (m_count (WaitTimeout_loop ms start steps s).1.2)
              (m_maxcount (WaitTimeout_loop ms start steps s).1.2).
Proof.
  revert s. induction steps as [|[now w] steps IH]; intros s Hw Hs; simpl.
  - destruct (bool_decide_reflect (m_count s = 0)); simpl; [exact Hs|].
    apply decrement_ok; assumption.
  - destruct (bool_decide_reflect (m_count s = 0)); simpl;
      [|apply decrement_ok; assumption].
    destruct (bool_decide _); simpl; [exact Hs|].
    inversion Hw as [|? ? Hw1 Hw2]; subst. simpl in Hw1.
    pose proof (on_wake_ok w s Hw1 Hs) as Hs1.
    destruct (cond_WaitTimeout (wake_err w)); simpl; try exact Hs1.
    assert (Hw3 : Forall (wake_ok (m_maxcount (on_wake w s))) (map snd steps))
      by (rewrite on_wake_maxcount; exact Hw2).
    specialize (IH (on_wake w s) Hw3 Hs1).
    destruct (WaitTimeout_loop ms start steps (on_wake w s)) as [[r s'] evs].
    exact IH.
Qed.

Lemma Post_body_ok s :
  counters_ok (m_count s) (m_maxcount s) →
  counters_ok (m_count (Post_body s).1.2) (m_maxcount (Post_body s).1.2).
Proof.
  intros Hs. unfold Post_body.
  destruct (bool_decide_reflect (0 < m_maxcount s));
    destruct (bool_decide_reflect (m_count s = m_maxcount s)); simpl;
    try exact Hs; apply increment_ok; try exact Hs; tauto.
Qed.

Lemma call_ok self c s :
  sem_ok s → call_wakes_ok (m_maxcount s) c → sem_ok (call self c s).1.2.
Proof.
  intros Hs Hc. apply sem_ok_counters. apply sem_ok_counters in Hs.
  destruct c as [wakes| |ms start steps|]; simpl in *.
  - apply (with_locker_keeps counters_ok); [exact Hs|].
    intros s0 E1 E2. apply Wait_loop_ok; rewrite ?E1, ?E2; assumption.
  - apply (with_locker_keeps counters_ok); [exact Hs|].
    intros s0 E1 E2.
    destruct (bool_decide_reflect (m_count s0 = 0)); simpl;
      [|apply decrement_ok]; rewrite ?E1, ?E2; try assumption. congruence.
  - apply (with_locker_keeps counters_ok); [exact Hs|].
    intros s0 E1 E2. apply WaitTimeout_loop_ok; rewrite ?E1, ?E2; assumption.
  - apply (with_locker_keeps counters_ok); [exact Hs|].
    intros s0 E1 E2. apply Post_body_ok; rewrite ?E1, ?E2; assumption.
Qed.

Lemma ctor_valid_ok raw initialcount maxcount mutex_err cond_err :
  is_int initialcount → is_int maxcount →
  ¬ invalid_args initialcount maxcount →
  sem_ok (ctor raw initialcount maxcount mutex_err cond_err).
Proof.
  unfold is_int, invalid_args. intros Hi Hm Hv. unfold ctor.
  destruct (bool_decide_reflect (initialcount < 0)); [tauto|].
  destruct (bool_decide_reflect (maxcount < 0)); [tauto|].
  destruct (bool_decide_reflect (0 < maxcount));
    destruct (bool_decide_reflect (maxcount < initialcount)); simpl;
    try tauto;
    (split; [split; simpl; apply to_size_t_range|];
     intros H; simpl in *;
     rewrite !to_size_t_small in * by (unfold SIZE_MAX; lia); lia).
Qed.

(** C9: whatever the argument pair, [IsOk()] after construction tells only
    whether the mutex and the condition were created; when the pair is one
    the constructor tests for, [m_count] and [m_maxcount] are not assigned
    and keep what the storage held, otherwise they are the arguments. *)
Theorem ctor_IsOk_ignores_invalid_arguments
    raw initialcount maxcount mutex_err cond_err :
  let s := ctor raw initialcount maxcount mutex_err cond_err in
  IsOk s = bool_decide (mutex_err = 0) && bool_decide (cond_err = 0) ∧
  ((invalid_args initialcount maxcount ∧
    m_count s = raw_count raw ∧ m_maxcount s = raw_maxcount raw) ∨
   (¬ invalid_args initialcount maxcount ∧
    m_count s = to_size_t initialcount ∧ m_maxcount s = to_size_t maxcount)).
Proof.
  unfold ctor, IsOk, invalid_args. simpl. split.
  - split_tests; reflexivity.
  - destruct (bool_decide_reflect (initialcount < 0)); simpl; [left; auto|].
    destruct (bool_decide_reflect (maxcount < 0)); simpl; [left; auto|].
    destruct (bool_decide_reflect (0 < maxcount));
      destruct (bool_decide_reflect (maxcount < initialcount)); simpl;
      (left; solve [auto 6]) || (right; split; [lia|auto]).
Qed.

(** An invalid pair on storage holding stale counters: the object reports
    Ok and its counters break the bound. *)
Example ctor_invalid_pair_reports_ok :
  let s := ctor (mkRaw 7 3 false) 5 2 0 0 in
  IsOk s = true ∧ m_count s = 7 ∧ m_maxcount s = 3.
Proof. repeat split. Qed.

(** C2, as stated, fails: constructed with the pair (5, 2) on storage that
    held the counters 7 and 3, the semaphore has [m_maxcount > 0] and
    [m_count > m_maxcount]. *)
Lemma bounded_inv_fails_after_invalid_ctor :
  ¬ bounded_inv (ctor (mkRaw 7 3 false) 5 2 0 0).
Proof. unfold bounded_inv. simpl. lia. Qed.

(** C2, amended: constructed with a valid pair ([0 <= initialcount],
    [0 <= maxcount], and [initialcount <= maxcount] when [maxcount > 0]),
    the semaphore has counters in the range of their type that satisfy
    [0 <= m_count <= m_maxcount] when [m_maxcount > 0]; and from any state
    with these two properties each of [Wait], [TryWait], [WaitTimeout] and
    [Post] leads to a state that has them, provided the count a waiter finds
    on waking up was left in range and within the bound by the other
    threads. *)
Theorem bounded_inv_after_valid_ctor_and_preserved
    raw initialcount maxcount mutex_err cond_err self c s :
  is_int initialcount → is_int maxcount →
  ¬ invalid_args initialcount maxcount →
  in_range s → bounded_inv s → call_wakes_ok (m_maxcount s) c →
  (in_range (ctor raw initialcount maxcount mutex_err cond_err) ∧
   bounded_inv (ctor raw initialcount maxcount mutex_err cond_err)) ∧
  (in_range (call self c s).1.2 ∧ bounded_inv (call self c s).1.2).
Proof.
  intros Hi Hm Hv Hr Hb Hc. split.
  - apply ctor_valid_ok; assumption.
  - apply call_ok; [split|]; assumption.
Qed.

Lemma bounded_inv_after_valid_ctor_and_preserved_witness :
  bounded_inv (ctor (mkRaw 7 3 false) 1 1 0 0) ∧
  bounded_inv (call 9 CallPost (ctor (mkRaw 7 3 false) 1 1 0 0)).1.2.
Proof.
  assert (Hi : is_int 1) by (unfold is_int; lia).
  assert (Hv : ¬ invalid_args 1 1) by (unfold invalid_args; lia).
  assert (Hr : in_range (ctor (mkRaw 7 3 false) 1 1 0 0))
    by (cbv -[Z.le Z.lt]; lia).
  assert (Hb : bounded_inv (ctor (mkRaw 7 3 false) 1 1 0 0))
    by (cbv -[Z.le Z.lt]; lia).
  destruct (bounded_inv_after_valid_ctor_and_preserved
              (mkRaw 7 3 false) 1 1 0 0 9 CallPost
              (ctor (mkRaw 7 3 false) 1 1 0 0) Hi Hi Hv Hr Hb I)
    as [[_ H1] [_ H2]].
  split; [exact H1|exact H2].
Defined.

Lemma Lock_free self ok :
  Lock self (mkMutex PM_free ok wxMUTEX_DEFAULT 0) =
    (Returned wxMUTEX_NO_ERROR, mkMutex (PM_held self 0) ok wxMUTEX_DEFAULT self).
Proof. reflexivity. Qed.

Lemma Unlock_held self ok ty own :
  Unlock self (mkMutex (PM_held self 0) ok ty own) =
    (wxMUTEX_NO_ERROR, mkMutex PM_free ok ty 0).
Proof.
  unfold Unlock, pthread_mutex_unlock. simpl.
  destruct ty; [reflexivity|].
  rewrite !bool_decide_eq_true_2 by reflexivity. reflexivity.
Qed.

(** What a run of [Post] records when it finds the mutex free. *)
Lemma Post_idle self s :
  idle s →
  Post self s =
    match Post_body s with
    | (r, s', evs) =>
        (r, s', EvLock self wxMUTEX_NO_ERROR :: evs
                  ++ [EvUnlock self wxMUTEX_NO_ERROR])
    end.
Proof.
  destruct s as [[pm ok ty own] cok c m isok].
  intros (Hpm & Hty & Hown). simpl in *. subst pm ty own.
  unfold Post, with_locker. cbn [m_mutex]. rewrite Lock_free.
  unfold Post_body, set_mx, set_count. cbn.
  destruct (_ && _); cbn; rewrite Unlock_held; reflexivity.
Qed.

(** A waiter that finds the mutex free and the count positive takes one unit
    at once. *)
Lemma Wait_idle_positive self wakes s :
  idle s → m_count s ≠ 0 →
  Wait self wakes s =
    (Returned wxSEMA_NO_ERROR, set_count (to_size_t (m_count s - 1)) s,
     [EvLock self wxMUTEX_NO_ERROR; EvStoreCount (to_size_t (m_count s - 1));
      EvUnlock self wxMUTEX_NO_ERROR]).
Proof.
  destruct s as [[pm ok ty own] cok c m isok].
  intros (Hpm & Hty & Hown) Hc. simpl in *. subst pm ty own.
  unfold Wait, with_locker. cbn [m_mutex]. rewrite Lock_free.
  assert (E : ∀ s0, m_count s0 = c →
            Wait_loop wakes s0 =
              (Returned wxSEMA_NO_ERROR, set_count (to_size_t (c - 1)) s0,
               [EvStoreCount (to_size_t (c - 1))])).
  { intros s0 <-. destruct wakes; simpl;
      rewrite bool_decide_eq_false_2 by exact Hc; reflexivity. }
  rewrite E by reflexivity. cbn. rewrite Unlock_held. reflexivity.
Qed.

(** A body that leaves the native lock and the kind of the mutex alone. *)
Lemma with_locker_idle self s body :
  idle s →
  (∀ s0, Mutex.m_mutex (m_mutex (body s0).1.2) = Mutex.m_mutex (m_mutex s0) ∧
         Mutex.m_type (m_mutex (body s0).1.2) = Mutex.m_type (m_mutex s0)) →
  idle (with_locker self s body).1.2.
Proof.
  destruct s as [[pm ok ty own] cok c m isok].
  intros (Hpm & Hty & Hown) Hbody. simpl in *. subst pm ty own.
  unfold with_locker. cbn [m_mutex]. rewrite Lock_free.
  match goal with |- context [body ?S] => specialize (Hbody S) end.
  destruct (body _) as [[[r|] s2] evs]; [|repeat split].
  destruct s2 as [[pm2 ok2 ty2 own2] cok2 c2 m2 isok2].
  cbn in Hbody. destruct Hbody as [-> ->]. cbn.
  rewrite Unlock_held. repeat split.
Qed.

Lemma on_wake_mutex w s :
  Mutex.m_mutex (m_mutex (on_wake w s)) = Mutex.m_mutex (m_mutex s) ∧
  Mutex.m_type (m_mutex (on_wake w s)) = Mutex.m_type (m_mutex s).
Proof. unfold on_wake. destruct (_ || _); split; reflexivity. Qed.

Lemma Wait_loop_mutex wakes s :
  Mutex.m_mutex (m_mutex (Wait_loop wakes s).1.2) = Mutex.m_mutex (m_mutex s) ∧
  Mutex.m_type (m_mutex (Wait_loop wakes s).1.2) = Mutex.m_type (m_mutex s).
Proof.
  revert s. induction wakes as [|w wakes IH]; intros s; simpl;
    destruct (bool_decide (m_count s = 0)); simpl; try (split; reflexivity).
  destruct (bool_decide _); simpl; [|apply on_wake_mutex].
  specialize (IH (on_wake w s)).
  destruct (Wait_loop wakes (on_wake w s)) as [[r s'] evs]. simpl in *.
  destruct (on_wake_mutex w s) as [E1 E2]. rewrite <- E1, <- E2. exact IH.
Qed.

Lemma WaitTimeout_loop_mutex ms start steps s :
  Mutex.m_mutex (m_mutex (WaitTimeout_loop ms start steps s).1.2)
    = Mutex.m_mutex (m_mutex s) ∧
  Mutex.m_type (m_mutex (WaitTimeout_loop ms start steps s).1.2)
    = Mutex.m_type (m_mutex s).
Proof.
  revert s. induction steps as [|[now w] steps IH]; intros s; simpl;
    destruct (bool_decide (m_count s = 0)); simpl; try (split; reflexivity).
  destruct (bool_decide _); simpl; [split; reflexivity|].
  destruct (cond_WaitTimeout (wake_err w)); simpl; try apply on_wake_mutex.
  specialize (IH (on_wake w s)).
  destruct (WaitTimeout_loop ms start steps (on_wake w s)) as [[r s'] evs].
  simpl in *. destruct (on_wake_mutex w s) as [E1 E2].
  rewrite <- E1, <- E2. exact IH.
Qed.

(** A semaphore whose mutex was initialised starts idle, and every
    operation that starts on an idle semaphore leaves it idle. *)
Lemma ctor_idle raw initialcount maxcount cond_err :
  idle (ctor raw initialcount maxcount 0 cond_err).
Proof.
  unfold ctor. destruct (_ || _); repeat split.
Qed.

Lemma call_idle self c s : idle s → idle (call self c s).1.2.
Proof.
  intros Hidle. destruct c as [wakes| |ms start steps|]; simpl;
    apply with_locker_idle; try exact Hidle; intros s0.
  - apply Wait_loop_mutex.
  - destruct (bool_decide _); split; reflexivity.
  - apply WaitTimeout_loop_mutex.
  - unfold Post_body. destruct (_ && _); split; reflexivity.
Qed.

(** C7: on a semaphore no other operation is in progress on, [Post] at
    [m_count = m_maxcount > 0] returns [wxSEMA_OVERFLOW] and leaves the
    semaphore as it was; otherwise it stores the incremented count (which
    wraps to 0 from [SIZE_MAX], as [size_t] does) and then signals the
    condition.  In both cases all it does lies between the acquisition and
    the release of the semaphore's mutex. *)
Theorem Post_overflow_or_increment_under_mutex self s :
  idle s → in_range s →
  (0 < m_maxcount s ∧ m_count s = m_maxcount s ∧
   Post self s =
     (Returned wxSEMA_OVERFLOW, s,
      [EvLock self wxMUTEX_NO_ERROR; EvUnlock self wxMUTEX_NO_ERROR])) ∨
  (¬ (0 < m_maxcount s ∧ m_count s = m_maxcount s) ∧
   Post self s =
     (Returned (if m_cond_isOk s then wxSEMA_NO_ERROR else wxSEMA_MISC_ERROR),
      set_count (to_size_t (m_count s + 1)) s,
      [EvLock self wxMUTEX_NO_ERROR;
       EvStoreCount (to_size_t (m_count s + 1));
       EvCondSignal;
       EvUnlock self wxMUTEX_NO_ERROR]) ∧
   ((m_count s < SIZE_MAX ∧ to_size_t (m_count s + 1) = m_count s + 1) ∨
    (m_count s = SIZE_MAX ∧ to_size_t (m_count s + 1) = 0))).
Proof.
  intros Hidle [Hc Hm]. rewrite (Post_idle self s Hidle). unfold Post_body.
  destruct (bool_decide_reflect (0 < m_maxcount s)) as [H1|H1];
    destruct (bool_decide_reflect (m_count s = m_maxcount s)) as [H2|H2];
    simpl; [left; auto| | |];
    (right; split; [tauto|]; split;
     [destruct (m_cond_isOk s); reflexivity|];
     destruct (Z.eq_dec (m_count s) SIZE_MAX) as [E|E];
     [right; split; [exact E|rewrite E; reflexivity]
     |left; split; [lia|apply to_size_t_small; lia]]).
Qed.

Lemma Post_overflow_or_increment_under_mutex_witness :
  Post 9 (ctor (mkRaw 7 3 false) 1 1 0 0) =
    (Returned wxSEMA_OVERFLOW, ctor (mkRaw 7 3 false) 1 1 0 0,
     [EvLock 9 wxMUTEX_NO_ERROR; EvUnlock 9 wxMUTEX_NO_ERROR]).
Proof.
  assert (Hidle : idle (ctor (mkRaw 7 3 false) 1 1 0 0))
    by (repeat split).
  assert (Hr : in_range (ctor (mkRaw 7 3 false) 1 1 0 0))
    by (cbv -[Z.le Z.lt]; lia).
  destruct (Post_overflow_or_increment_under_mutex 9
              (ctor (mkRaw 7 3 false) 1 1 0 0) Hidle Hr)
    as [(_ & _ & H)|(Hn & _)].
  - exact H.
  - exfalso. apply Hn. cbv -[Z.le Z.lt]. split; [lia|reflexivity].
Defined.

End SemaProperties.

(** ** The thread *)

Section ThreadProperties.

Import Mutex Sema ThreadInternal Thread ThreadModule Scenario.

Lemma Wait_joined isMain join t :
  m_shouldBeJoined t = false →
  (ThreadInternal.Wait isMain join t).1 = t ∧
  joins (ThreadInternal.Wait isMain join t).2 = 0%nat.
Proof.
  intros H. unfold ThreadInternal.Wait. rewrite H.
  destruct isMain; split; reflexivity.
Qed.

Lemma Wait_first isMain join t :
  m_shouldBeJoined t = true →
  m_shouldBeJoined (ThreadInternal.Wait isMain join t).1 = false ∧
  (ThreadInternal.Wait isMain join t).2 =
    (if isMain then [EvMutexGuiLeave] else [])
    ++ [EvEnterJoinFlag; EvPthreadJoin (GetId t) join.1; EvLeaveJoinFlag]
    ++ (if isMain then [EvMutexGuiEnter] else []) ∧
  joins (ThreadInternal.Wait isMain join t).2 = 1%nat.
Proof.
  intros H. unfold ThreadInternal.Wait. rewrite H.
  destruct isMain; repeat split.
Qed.

Lemma Wait_seq_joined calls t :
  m_shouldBeJoined t = false →
  (Wait_seq calls t).2 = t ∧
  Forall (λ r, joins r.2 = 0%nat ∧ r.1 = GetExitCode t) (Wait_seq calls t).1.
Proof.
  intros H. induction calls as [|[isMain join] calls [IH1 IH2]]; simpl.
  - split; constructor.
  - destruct (Wait_joined isMain join t H) as [E1 E2].
    destruct (ThreadInternal.Wait isMain join t) as [t1 evs]. simpl in *.
    subst t1. destruct (Wait_seq calls t) as [rs t2]. simpl in *.
    split; [exact IH1|]. constructor; [split; [exact E2|reflexivity]|exact IH2].
Qed.

(** The constructor leaves a thread to be joined, and creating it as a
    joinable thread, running it or asking it to stop keeps it so. *)
Lemma joinable_shouldBeJoined semRun semSuspend rc tid self :
  let t0 := ThreadInternal.ctor semRun semSuspend in
  let t1 := (ThreadInternal.Create false rc tid t0).1.2 in
  m_shouldBeJoined t0 = true ∧ m_shouldBeJoined t1 = true ∧
  m_shouldBeJoined (ThreadInternal.Run self t1).1.2 = true ∧
  m_shouldBeJoined (SetCancelFlag t1) = true.
Proof.
  simpl. unfold ThreadInternal.Create. simpl.
  destruct (bool_decide (rc = 0)); simpl; repeat split;
    unfold ThreadInternal.Run, SignalRun; simpl;
    destruct (Post self semRun) as [[[r|] s] evs]; reflexivity.
Qed.

(** C4: on a joinable thread that has not been joined yet, whatever the
    sequence of [Wait()] calls that follows, the first call enters the join
    lock, calls [pthread_join] and clears [m_shouldBeJoined]; the exit code
    it returns is the one [pthread_join] stored, or the one the thread had
    when the join failed.  Every later call makes no [pthread_join] call and
    returns that same captured exit code, which is the one the thread keeps;
    so the whole sequence contains exactly one [pthread_join] call. *)
Theorem Wait_joins_exactly_once t isMain join calls :
  m_shouldBeJoined t = true →
  ∃ code evs rest t',
    Wait_seq ((isMain, join) :: calls) t = ((code, evs) :: rest, t') ∧
    code = (if bool_decide (join.1 = 0) then join.2 else GetExitCode t) ∧
    evs = (if isMain then [EvMutexGuiLeave] else [])
          ++ [EvEnterJoinFlag; EvPthreadJoin (GetId t) join.1; EvLeaveJoinFlag]
          ++ (if isMain then [EvMutexGuiEnter] else []) ∧
    m_shouldBeJoined (ThreadInternal.Wait isMain join t).1 = false ∧
    length rest = length calls ∧
    Forall (λ r, joins r.2 = 0%nat ∧ r.1 = code) rest ∧
    joins (evs ++ concat (map snd rest)) = 1%nat ∧
    m_shouldBeJoined t' = false ∧
    GetExitCode t' = code.
Proof.
  intros H. destruct (Wait_first isMain join t H) as (E1 & E2 & E3).
  assert (Ecode : GetExitCode (ThreadInternal.Wait isMain join t).1 =
                    if bool_decide (join.1 = 0) then join.2
                    else GetExitCode t).
  { unfold ThreadInternal.Wait. rewrite H.
    destruct (bool_decide (join.1 = 0)); reflexivity. }
  simpl. destruct (ThreadInternal.Wait isMain join t) as [t1 evs] eqn:EW.
  simpl in *. destruct (Wait_seq_joined calls t1 E1) as [F1 F2].
  assert (Hlen : length (Wait_seq calls t1).1 = length calls).
  { clear. revert t1. induction calls as [|[i j] calls IH]; intros t1; simpl;
      [reflexivity|].
    destruct (ThreadInternal.Wait i j t1) as [t2 e2].
    specialize (IH t2). destruct (Wait_seq calls t2) as [rs t3]. simpl in *.
    congruence. }
  destruct (Wait_seq calls t1) as [rs t2]. simpl in *. subst t2.
  exists (GetExitCode t1), evs, rs, t1.
  split; [reflexivity|]. split; [exact Ecode|]. split; [exact E2|].
  split; [exact E1|].
  split; [exact Hlen|]. split; [exact F2|].
  split; [|split; [exact E1|reflexivity]].
  unfold joins in *. rewrite List.filter_app, length_app, E3.
  assert (Hz : length (List.filter is_join (concat (map snd rs))) = 0%nat).
  { clear -F2. induction F2 as [|r rs [Hr _] _ IH]; simpl; [reflexivity|].
    rewrite List.filter_app, length_app, Hr, IH. reflexivity. }
  rewrite Hz. reflexivity.
Qed.

Lemma Wait_joins_exactly_once_witness :
  let t := (ThreadInternal.Create false 0 worker
              (ThreadInternal.ctor gate gate)).1.2 in
  m_shouldBeJoined t = true ∧
  ∃ evs rest t',
    Wait_seq [(false, (0, 42)); (true, (0, 43)); (false, (5, 44))] t
      = ((42, evs) :: rest, t') ∧
    evs = [EvEnterJoinFlag; EvPthreadJoin worker 0; EvLeaveJoinFlag] ∧
    Forall (λ r, joins r.2 = 0%nat ∧ r.1 = 42) rest ∧
    joins (evs ++ concat (map snd rest)) = 1%nat ∧
    GetExitCode t' = 42.
Proof.
  intros t.
  assert (Hj : m_shouldBeJoined t = true) by reflexivity.
  split; [exact Hj|].
  destruct (Wait_joins_exactly_once t false (0, 42)
              [(true, (0, 43)); (false, (5, 44))] Hj)
    as (code & evs & rest & t' & E & C & V & _ & _ & F & J & _ & X).
  cbn in C. subst code.
  exists evs, rest, t'. split; [exact E|]. split; [exact V|].
  split; [exact F|]. split; [exact J|exact X].
Defined.

(** *** Runs on the world *)

Lemma Post_idle_returns self s :
  idle s →
  ∃ r s' evs, Post self s = (Returned r, s', evs) ∧ idle s' ∧
              m_maxcount s' = m_maxcount s.
Proof.
  intros Hidle. rewrite (Post_idle self s Hidle). unfold Post_body.
  destruct Hidle as (H1 & H2 & H3).
  destruct (_ && _); eexists _, _, _; (split; [reflexivity|]);
    repeat split; assumption.
Qed.

(** C10: on a thread whose OS thread was created, and whose start gate no
    other operation is in progress on, [Run()] returns [wxTHREAD_NO_ERROR]
    whatever the state of the thread; it sets the state to [STATE_RUNNING]
    and calls [Post()] on the start gate, whose new value and events are
    those of that call; the thread is then again one this statement applies
    to, so each further [Run()] posts once more. *)
Theorem Run_created_thread_sets_running_and_posts a self rc tid w t :
  heap w !! a = Some t →
  WasCreated (m_internal t) = true →
  idle (m_semRun (m_internal t)) →
  ∃ r s' evs,
    Post self (m_semRun (m_internal t)) = (Returned r, s', evs) ∧
    Run a self rc tid w =
      Done wxTHREAD_NO_ERROR
        (mkWorld
           (<[a:=mkThread (set_semRun s' (SetState STATE_RUNNING (m_internal t)))
                   (m_isDetached t)]> (heap w))
           (gs_allThreads w) (gs_nThreadsBeingDeleted w)
           (trace w ++ [EvEnterCritsect a]
              ++ map (EvInternal a) (map EvSemRun evs)
              ++ [EvLeaveCritsect a])) ∧
    GetState (set_semRun s' (SetState STATE_RUNNING (m_internal t)))
      = STATE_RUNNING ∧
    WasCreated (set_semRun s' (SetState STATE_RUNNING (m_internal t))) = true ∧
    idle s'.
Proof.
  intros Hlook Hcreated Hidle.
  destruct (Post_idle_returns self _ Hidle) as (r & s' & evs & HP & Hidle' & _).
  exists r, s', evs. split; [exact HP|].
  split; [|split; [reflexivity|split; [exact Hcreated|exact Hidle']]].
  unfold Run, mbind, M_bind, get_thread, emit, internal, mret, M_ret.
  cbn. rewrite Hlook. unfold WasCreated in *. rewrite Hcreated. cbn.
  rewrite bool_decide_eq_true_2 by reflexivity. cbn.
  rewrite Hlook. unfold ThreadInternal.Run, SignalRun. cbn. rewrite HP. cbn.
  rewrite <- !app_assoc. reflexivity.
Qed.

Lemma Run_created_thread_sets_running_and_posts_witness :
  ∃ t, heap joinable_finished !! 1 = Some t ∧
       GetState (m_internal t) = STATE_EXITED ∧
       ∃ w', Run 1 main_thread 0 worker joinable_finished =
               Done wxTHREAD_NO_ERROR w'.
Proof.
  assert (H : ∃ t, heap joinable_finished !! 1 = Some t ∧
                   GetState (m_internal t) = STATE_EXITED ∧
                   WasCreated (m_internal t) = true ∧
                   idle (m_semRun (m_internal t))).
  { eexists. split; [vm_compute; reflexivity|]. repeat split. }
  destruct H as (t & Hl & Hs & Hc & Hi).
  exists t. split; [exact Hl|]. split; [exact Hs|].
  destruct (Run_created_thread_sets_running_and_posts
              1 main_thread 0 worker joinable_finished t Hl Hc Hi)
    as (r & s' & evs & _ & HR & _).
  eexists. exact HR.
Defined.

Lemma Post_gate_closed self s :
  idle s → m_count s = 0 →
  Post self s =
    (Returned (if m_cond_isOk s then wxSEMA_NO_ERROR else wxSEMA_MISC_ERROR),
     set_count 1 s,
     [EvLock self wxMUTEX_NO_ERROR; EvStoreCount 1; EvCondSignal;
      EvUnlock self wxMUTEX_NO_ERROR]).
Proof.
  intros Hidle Hc. rewrite (Post_idle self s Hidle). unfold Post_body.
  rewrite Hc.
  destruct (bool_decide_reflect (0 < m_maxcount s));
    destruct (bool_decide_reflect (0 = m_maxcount s)); simpl;
    try lia; destruct (m_cond_isOk s); reflexivity.
Qed.

(** The entry function on a thread that was cancelled while new, once its
    start gate has been posted: [Entry()] is not called, and unless
    [pthread_setspecific] failed the thread object is destroyed and the OS
    thread ends with [EXITCODE_CANCELLED], whatever the kind of the thread. *)
Lemma PthreadStart_cancelled_while_new a self rc wakes entry w t :
  heap w !! a = Some t →
  GetState (m_internal t) = STATE_NEW →
  WasCancelled (m_internal t) = true →
  idle (m_semRun (m_internal t)) →
  m_count (m_semRun (m_internal t)) ≠ 0 →
  ∃ v w' evs,
    PthreadStart a self rc wakes entry w = Done v w' ∧
    trace w' = trace w ++ evs ∧ entries evs = 0%nat ∧
    (rc = 0 → v = EXITCODE_CANCELLED ∧ heap w' !! a = None ∧
              gs_allThreads w' = array_Remove a (gs_allThreads w) ∧
              In (EvDestroy a) evs).
Proof.
  intros Hlook Hnew Hcan Hidle Hcount.
  unfold PthreadStart, mbind, M_bind, get_thread, emit, mret, M_ret.
  cbn. rewrite Hlook.
  destruct (bool_decide_reflect (rc = 0)) as [Hrc|Hrc]; cbn.
  2: { eexists _, _, [_]. split; [reflexivity|]. split; [reflexivity|].
       split; [reflexivity|]. intros; contradiction. }
  unfold internal. cbn. rewrite Hlook.
  rewrite (Wait_idle_positive self wakes _ Hidle Hcount). cbn.
  rewrite lookup_insert_eq. cbn.
  unfold GetState, WasCancelled in *. rewrite Hnew, Hcan.
  rewrite !bool_decide_eq_true_2 by reflexivity. cbn.
  unfold dtor, mbind, M_bind, get_thread, emit, free_thread. cbn.
  rewrite lookup_insert_eq. cbn.
  eexists _, _, _. split; [reflexivity|]. cbn.
  split; [rewrite <- !app_assoc; reflexivity|].
  split; [reflexivity|]. intros _. split; [reflexivity|].
  split; [apply lookup_delete_eq|]. split; [reflexivity|].
  cbn. auto 20.
Qed.

(** C8: [Delete()] on a thread in [STATE_NEW] whose start gate is closed
    sets the cancel flag, posts the start gate (its count becomes 1) and
    returns [wxTHREAD_MISC_ERROR], the state staying [STATE_NEW]; the entry
    function run from there passes the gate and ends without calling
    [Entry()]. *)
Theorem Delete_new_thread_posts_gate_and_returns_misc_error
    a self want_rc isMain join w t :
  heap w !! a = Some t →
  GetState (m_internal t) = STATE_NEW →
  idle (m_semRun (m_internal t)) →
  m_count (m_semRun (m_internal t)) = 0 →
  ∃ w1 t1,
    Delete a self want_rc isMain join w = Done (wxTHREAD_MISC_ERROR, None) w1 ∧
    trace w1 =
      trace w ++
        [EvEnterCritsect a; EvLeaveCritsect a; EvOnDelete a;
         EvInternal a (EvSemRun (EvLock self wxMUTEX_NO_ERROR));
         EvInternal a (EvSemRun (EvStoreCount 1));
         EvInternal a (EvSemRun EvCondSignal);
         EvInternal a (EvSemRun (EvUnlock self wxMUTEX_NO_ERROR))] ∧
    heap w1 !! a = Some t1 ∧
    GetState (m_internal t1) = STATE_NEW ∧
    WasCancelled (m_internal t1) = true ∧
    m_count (m_semRun (m_internal t1)) = 1 ∧
    ∀ self' rc wakes entry,
      ∃ v w2 evs,
        PthreadStart a self' rc wakes entry w1 = Done v w2 ∧
        trace w2 = trace w1 ++ evs ∧ entries evs = 0%nat ∧
        (rc = 0 → v = EXITCODE_CANCELLED).
Proof.
  intros Hlook Hnew Hidle Hcount.
  unfold Delete, mbind, M_bind, get_thread, emit, mret, M_ret,
    modify_internal, internal.
  unfold GetState in *.
  repeat first [rewrite Hlook | rewrite Hnew | rewrite lookup_insert_eq
               | rewrite bool_decide_eq_true_2 by reflexivity | progress cbn].
  unfold SignalRun. cbn. rewrite (Post_gate_closed self _ Hidle Hcount).
  repeat first [rewrite lookup_insert_eq
               | rewrite bool_decide_eq_true_2 by reflexivity | progress cbn].
  eexists _, _. split; [reflexivity|]. cbn.
  split; [rewrite app_nil_r, <- !app_assoc; reflexivity|].
  split; [apply lookup_insert_eq|]. cbn.
  split; [exact Hnew|]. split; [reflexivity|]. split; [reflexivity|].
  intros self' rc wakes entry.
  match goal with |- context [PthreadStart _ _ _ _ _ ?W] =>
    destruct (PthreadStart_cancelled_while_new a self' rc wakes entry W
                (mkThread
                   (set_semRun (set_count 1 (m_semRun (m_internal t)))
                      (SetCancelFlag (m_internal t)))
                   (m_isDetached t)))
      as (v & w2 & evs & HP & Htr & Hent & Hrc)
  end.
  - cbn. apply lookup_insert_eq.
  - exact Hnew.
  - reflexivity.
  - destruct Hidle as (H1 & H2 & H3). repeat split; assumption.
  - cbn. discriminate.
  - exists v, w2, evs. split; [exact HP|]. split; [exact Htr|].
    split; [exact Hent|]. intros E. apply (Hrc E).
Qed.

Lemma Delete_new_thread_posts_gate_and_returns_misc_error_witness :
  ∃ t, heap joinable_created !! 1 = Some t ∧
       GetState (m_internal t) = STATE_NEW ∧
       ∃ w1, Delete 1 main_thread false true (0, 0) joinable_created =
               Done (wxTHREAD_MISC_ERROR, None) w1 ∧
             ∃ v w2 evs, PthreadStart 1 worker 0 [] 42 w1 = Done v w2 ∧
                         trace w2 = trace w1 ++ evs ∧ entries evs = 0%nat.
Proof.
  assert (H : ∃ t, heap joinable_created !! 1 = Some t ∧
                   GetState (m_internal t) = STATE_NEW ∧
                   idle (m_semRun (m_internal t)) ∧
                   m_count (m_semRun (m_internal t)) = 0).
  { eexists. split; [vm_compute; reflexivity|]. repeat split. }
  destruct H as (t & Hl & Hs & Hi & Hc).
  exists t. split; [exact Hl|]. split; [exact Hs|].
  destruct (Delete_new_thread_posts_gate_and_returns_misc_error
              1 main_thread false true (0, 0) joinable_created t Hl Hs Hi Hc)
    as (w1 & t1 & HD & _ & _ & _ & _ & _ & HP).
  exists w1. split; [exact HD|].
  destruct (HP worker 0 [] 42) as (v & w2 & evs & H1 & H2 & H3 & _).
  exists v, w2, evs. split; [exact H1|]. split; [exact H2|exact H3].
Defined.

(** The same entry function on a detached thread deleted before it was run:
    the object is destroyed there too. *)
Example PthreadStart_destroys_cancelled_detached_thread :
  ∃ w, PthreadStart 1 worker 0 [] 42
         (after (Delete 1 main_thread false true (0, 0)) detached_created) =
         Done EXITCODE_CANCELLED w ∧
       entries (trace w) = 0%nat ∧ heap w !! 1 = None ∧ gs_allThreads w = [].
Proof. vm_compute. eexists. split; [reflexivity|]. repeat split. Qed.

(** C1: a joinable thread is created and deleted before it is run; the entry
    function then passes the start gate, finds the thread new and cancelled,
    and calls no [Entry()].  It ends with [EXITCODE_CANCELLED] as the value
    of the OS thread, but it destroys the thread object, joinable though it
    is: the object is no longer alive nor registered, and its [m_exitcode]
    was never set to the sentinel. *)
Theorem PthreadStart_destroys_cancelled_joinable_thread :
  (∃ t, heap joinable_deleted_before_run !! 1 = Some t ∧
        m_isDetached t = false ∧
        GetState (m_internal t) = STATE_NEW ∧
        WasCancelled (m_internal t) = true ∧
        GetExitCode (m_internal t) = 0) ∧
  ∃ w, PthreadStart 1 worker 0 [] 42 joinable_deleted_before_run =
         Done EXITCODE_CANCELLED w ∧
       entries (trace w) = 0%nat ∧
       In (EvDestroy 1) (trace w) ∧
       heap w !! 1 = None ∧
       gs_allThreads w = [].
Proof.
  split.
  - eexists. split; [vm_compute; reflexivity|]. repeat split.
  - vm_compute. eexists. split; [reflexivity|].
    split; [reflexivity|]. split; [|split; reflexivity]. auto 30.
Qed.

(** *** The shutdown loop *)

Lemma keeps_registry_bind {A B} (m : M A) (f : A → M B) :
  keeps_registry m → (∀ v, keeps_registry (f v)) → keeps_registry (m ≫= f).
Proof.
  intros Hm Hf w v w'. unfold mbind, M_bind.
  destruct (m w) as [v1 w1| |] eqn:E; try discriminate.
  intros H. rewrite (Hf v1 w1 v w' H). exact (Hm w v1 w1 E).
Qed.

Lemma keeps_registry_ret {A} (v : A) : keeps_registry (mret v).
Proof. intros w v' w' H. inversion H. reflexivity. Qed.

Lemma keeps_registry_emit e : keeps_registry (emit e).
Proof. intros w v' w' H. inversion H. reflexivity. Qed.

Lemma keeps_registry_get_thread a : keeps_registry (get_thread a).
Proof.
  intros w v' w'. unfold get_thread. destruct (heap w !! a); [|discriminate].
  intros H. inversion H. reflexivity.
Qed.

Lemma keeps_registry_internal {A} a
    (f : wxThreadInternal → outcome A * wxThreadInternal * list ThreadInternal.event) :
  keeps_registry (internal a f).
Proof.
  intros w v' w'. unfold internal. destruct (heap w !! a) as [t|]; [|discriminate].
  destruct (f (m_internal t)) as [[[v|] ti] evs]; [|discriminate].
  intros H. inversion H. reflexivity.
Qed.

(** [Delete()] itself never takes a thread out of the registry: only a
    destructor does, and [Delete()] runs none. *)
Lemma Delete_keeps_registry a self want_rc isMain join :
  keeps_registry (Delete a self want_rc isMain join).
Proof.
  unfold Delete, modify_internal.
  repeat first
    [ apply keeps_registry_bind; [|intros ?]
    | apply keeps_registry_ret
    | apply keeps_registry_emit
    | apply keeps_registry_get_thread
    | apply keeps_registry_internal
    | match goal with |- keeps_registry (match ?x with _ => _ end) =>
        destruct x end
    | match goal with |- keeps_registry (if ?x then _ else _) =>
        destruct x end ].
Qed.

Lemma keeps_registry_get : keeps_registry get.
Proof. intros w v' w' H. inversion H. reflexivity. Qed.

Lemma keeps_registry_suspend : keeps_registry suspend.
Proof. intros w v' w' H. discriminate. Qed.

Lemma keeps_registry_fault : keeps_registry fault.
Proof. intros w v' w' H. discriminate. Qed.

Lemma OnExit_loop_alone_keeps_registry self isMain join n k :
  keeps_registry (OnExit_loop self isMain (alone join) n k).
Proof.
  revert n. induction k as [|k IH]; intros n; simpl.
  - apply keeps_registry_ret.
  - apply keeps_registry_bind; [apply keeps_registry_get|intros w].
    destruct (gs_allThreads w); [apply keeps_registry_fault|].
    apply keeps_registry_bind; [apply Delete_keeps_registry|intros _].
    apply keeps_registry_bind; [|intros _; apply IH].
    intros w1 v w2 H. inversion H. reflexivity.
Qed.

(** With no other thread running, [OnExit()] leaves the registry as it
    found it: what is registered at shutdown stays registered. *)
Lemma OnExit_alone_keeps_registry self isMain join :
  keeps_registry (OnExit self isMain None (alone join)).
Proof.
  unfold OnExit.
  repeat first
    [ apply keeps_registry_bind; [|intros ?]
    | apply keeps_registry_get
    | apply keeps_registry_emit
    | apply keeps_registry_ret
    | apply keeps_registry_suspend
    | apply OnExit_loop_alone_keeps_registry
    | match goal with |- keeps_registry (if ?x then _ else _) =>
        destruct x end ].
Qed.

(** With every thread of the registry joinable and no other thread running,
    the loop calls [Delete()] on the first one each time, and never on the
    second. *)
Example OnExit_deletes_first_thread_twice :
  ∃ w, OnExit main_thread true None (alone (0, 0)) two_joinable_finished =
         Done tt w ∧
       deletes 1 (trace w) = 2%nat ∧ deletes 2 (trace w) = 0%nat ∧
       gs_allThreads w = [1; 2].
Proof. vm_compute. eexists. split; [reflexivity|]. repeat split. Qed.

(** A detached thread that was created but not run does leave the registry:
    its own OS thread destroys it once [Delete()] has posted the gate. *)
Example OnExit_detached_thread_leaves_registry :
  ∃ w, OnExit main_thread true None worker_runs detached_created = Done tt w ∧
       deletes 1 (trace w) = 1%nat ∧ gs_allThreads w = [] ∧ heap w !! 1 = None.
Proof. vm_compute. eexists. split; [reflexivity|]. repeat split. Qed.

(** C3: at shutdown with no deletion pending and one registered thread, a
    joinable thread that has finished and was joined, [OnExit()] does not
    wait, calls [Delete()] once on that thread and goes on to release the
    GUI mutex and the process-wide objects; but [Delete()] runs no
    destructor: the thread is still alive and still registered when
    [OnExit()] is done. *)
Theorem OnExit_leaves_joinable_thread_registered :
  gs_allThreads joinable_finished = [1] ∧
  gs_nThreadsBeingDeleted joinable_finished = 0 ∧
  ∃ w, OnExit main_thread true None (alone (0, 0)) joinable_finished =
         Done tt w ∧
       trace w =
         trace joinable_finished ++
           [EvEnterCritsect 1; EvLeaveCritsect 1; EvOnDelete 1;
            EvDeleteMutexAllThreads; EvMutexGuiUnlock; EvDeleteMutexGui;
            EvPthreadKeyDelete; EvDeleteCondAllDeleted;
            EvDeleteMutexDeleteThread] ∧
       gs_allThreads w = [1] ∧
       is_Some (heap w !! 1).
Proof.
  split; [reflexivity|]. split; [reflexivity|].
  vm_compute. eexists. split; [reflexivity|].
  split; [reflexivity|]. split; [reflexivity|]. eexists; reflexivity.
Qed.

End ThreadProperties.

(** * Further properties *)

(** Closes a case on the value of an error code. *)
Ltac solve_errno :=
  solve [ congruence
        | exfalso; unfold EPERM, EBUSY, EINVAL, EDEADLK, ETIMEDOUT in *; lia ].

(** ** The mutex, further *)

Section MutexExtra.

Import Mutex Timespec.

Lemma run_app cs1 cs2 m :
  run (cs1 ++ cs2) m =
    ((run cs1 m).1 ++ (run cs2 (run cs1 m).2).1, (run cs2 (run cs1 m).2).2).
Proof.
  revert m. induction cs1 as [|[self c] cs1 IH]; intros m; simpl.
  - destruct (run cs2 m); reflexivity.
  - destruct (call self c m) as [r m1]. rewrite IH.
    destruct (run cs1 m1) as [rs1 m2]. simpl.
    destruct (run cs2 m2); reflexivity.
Qed.

Lemma Lock_recursive_held self ok own d :
  Lock self (mkMutex (PM_held self d) ok wxMUTEX_RECURSIVE own) =
    (Returned wxMUTEX_NO_ERROR,
     mkMutex (PM_held self (S d)) ok wxMUTEX_RECURSIVE own).
Proof.
  unfold_calls. split_tests; simpl; solve_errno.
Qed.

Lemma Unlock_recursive_held self ok own d :
  Unlock self (mkMutex (PM_held self d) ok wxMUTEX_RECURSIVE own) =
    (wxMUTEX_NO_ERROR,
     mkMutex (match d with O => PM_free | S d' => PM_held self d' end)
       ok wxMUTEX_RECURSIVE 0).
Proof.
  unfold_calls. split_tests; simpl; solve_errno.
Qed.

Lemma recursive_locks self ok own d j :
  run (by_thread self (replicate j CallLock))
      (mkMutex (PM_held self d) ok wxMUTEX_RECURSIVE own) =
    (replicate j (Returned wxMUTEX_NO_ERROR),
     mkMutex (PM_held self (d + j)) ok wxMUTEX_RECURSIVE own).
Proof.
  unfold by_thread. revert d. induction j as [|j IH]; intros d.
  - cbn. rewrite Nat.add_0_r. reflexivity.
  - cbn [replicate map run call]. rewrite Lock_recursive_held, (IH (S d)).
    rewrite Nat.add_succ_r. reflexivity.
Qed.

Lemma recursive_unlocks self ok d j :
  (j <= d)%nat →
  run (by_thread self (replicate j CallUnlock))
      (mkMutex (PM_held self d) ok wxMUTEX_RECURSIVE 0) =
    (replicate j (Returned wxMUTEX_NO_ERROR),
     mkMutex (PM_held self (d - j)) ok wxMUTEX_RECURSIVE 0).
Proof.
  unfold by_thread. revert d. induction j as [|j IH]; intros d Hj.
  - cbn. rewrite Nat.sub_0_r. reflexivity.
  - destruct d as [|d]; [lia|].
    cbn [replicate map run call]. rewrite Unlock_recursive_held.
    rewrite (IH d) by lia. reflexivity.
Qed.

Lemma recursive_unlock_all self ok d :
  run (by_thread self (replicate (S d) CallUnlock))
      (mkMutex (PM_held self d) ok wxMUTEX_RECURSIVE 0) =
    (replicate (S d) (Returned wxMUTEX_NO_ERROR),
     mkMutex PM_free ok wxMUTEX_RECURSIVE 0).
Proof.
  unfold by_thread. induction d as [|d IH].
  - cbn [replicate map run call]. rewrite Unlock_recursive_held. reflexivity.
  - change (replicate (S (S d)) CallUnlock)
      with (CallUnlock :: replicate (S d) CallUnlock).
    cbn [map run call]. rewrite Unlock_recursive_held, IH. reflexivity.
Qed.

Lemma recursive_lock_first self n :
  run (by_thread self (replicate (S n) CallLock)) (ctor wxMUTEX_RECURSIVE 0) =
    (replicate (S n) (Returned wxMUTEX_NO_ERROR),
     mkMutex (PM_held self n) true wxMUTEX_RECURSIVE 0).
Proof.
  pose proof (recursive_locks self true 0 0 n) as H.
  unfold by_thread in *. cbn [replicate map run call].
  change (Lock self (ctor wxMUTEX_RECURSIVE 0))
    with (Returned wxMUTEX_NO_ERROR,
          mkMutex (PM_held self 0) true wxMUTEX_RECURSIVE 0).
  cbn beta iota. rewrite H. reflexivity.
Qed.

(** X1: a recursive mutex counts.  After [n+1] [Lock()] calls by one
    thread and [k <= n] [Unlock()] calls, all of which succeed, the thread
    still holds the mutex ([TryLock()] by another thread finds it busy and
    changes nothing); one more [Unlock()] than that and the mutex is free
    again, in the state the constructor left it in.  The owner field is
    never set on the way. *)
Theorem recursive_lock_balance self other n k :
  other ≠ self → (k <= n)%nat →
  let m0 := ctor wxMUTEX_RECURSIVE 0 in
  let held :=
    run (by_thread self (replicate (S n) CallLock ++ replicate k CallUnlock))
        m0 in
  held.1 = replicate (S n + k) (Returned wxMUTEX_NO_ERROR) ∧
  m_mutex held.2 = PM_held self (n - k) ∧
  m_owningThread held.2 = 0 ∧
  TryLock other held.2 = (wxMUTEX_BUSY, held.2) ∧
  run (by_thread self (replicate (S n - k) CallUnlock)) held.2 =
    (replicate (S n - k) (Returned wxMUTEX_NO_ERROR), m0).
Proof.
  intros Hother Hk m0 held.
  assert (Hheld : held =
            (replicate (S n + k) (Returned wxMUTEX_NO_ERROR),
             mkMutex (PM_held self (n - k)) true wxMUTEX_RECURSIVE 0)).
  { unfold held, by_thread. rewrite map_app.
    fold (by_thread self (replicate (S n) CallLock)).
    fold (by_thread self (replicate k CallUnlock)).
    rewrite run_app, recursive_lock_first. cbn [fst snd].
    rewrite (recursive_unlocks self true n k Hk). cbn [fst snd].
    rewrite <- replicate_add. reflexivity. }
  rewrite Hheld. cbn [fst snd m_mutex m_owningThread].
  split; [reflexivity|]. split; [reflexivity|]. split; [reflexivity|]. split.
  - unfold_calls. split_tests; simpl; solve_errno.
  - replace (S n - k)%nat with (S (n - k)) by lia.
    apply recursive_unlock_all.
Qed.

Lemma recursive_lock_balance_witness :
  8 ≠ 7 ∧ (1 <= 2)%nat ∧
  TryLock 8
    (run (by_thread 7 (replicate 3 CallLock ++ replicate 1 CallUnlock))
         (ctor wxMUTEX_RECURSIVE 0)).2 =
    (wxMUTEX_BUSY,
     (run (by_thread 7 (replicate 3 CallLock ++ replicate 1 CallUnlock))
          (ctor wxMUTEX_RECURSIVE 0)).2).
Proof.
  assert (H1 : 8 ≠ 7) by lia. assert (H2 : (1 <= 2)%nat) by lia.
  split; [exact H1|]. split; [exact H2|].
  destruct (recursive_lock_balance 7 8 2 1 H1 H2) as (_ & _ & _ & H & _).
  exact H.
Defined.

(** X2: an [Unlock()] by a thread that does not hold a default mutex
    releases it all the same.  The native lock of a default mutex is
    initialised with default attributes and does not check its holder: on
    a mutex locked by thread [a], an [Unlock()] by another thread [b]
    returns [wxMUTEX_NO_ERROR], frees the native lock and clears the
    tracked owner, leaving the mutex as the constructor made it.  A
    [Lock()] by any thread [c] then succeeds while [a] is in its critical
    section; for [c = a] this is the call that returned
    [wxMUTEX_DEAD_LOCK] before.  A default mutex never returns
    [wxMUTEX_UNLOCKED] from [Unlock()]. *)
Theorem foreign_Unlock_releases_default_mutex a b c :
  a ≠ 0 → b ≠ a →
  let m := (Lock a (ctor wxMUTEX_DEFAULT 0)).2 in
  m_mutex m = PM_held a 0 ∧
  Lock a m = (Returned wxMUTEX_DEAD_LOCK, m) ∧
  Unlock b m = (wxMUTEX_NO_ERROR, ctor wxMUTEX_DEFAULT 0) ∧
  Lock c (Unlock b m).2 =
    (Returned wxMUTEX_NO_ERROR, mkMutex (PM_held c 0) true wxMUTEX_DEFAULT c) ∧
  ∀ self m1,
    m_type m1 = wxMUTEX_DEFAULT → (Unlock self m1).1 ≠ wxMUTEX_UNLOCKED.
Proof.
  intros Ha Hb m. unfold m.
  change (ctor wxMUTEX_DEFAULT 0)
    with (mkMutex PM_free true wxMUTEX_DEFAULT 0).
  rewrite Lock_free. cbn [snd].
  assert (HU : Unlock b (mkMutex (PM_held a 0) true wxMUTEX_DEFAULT a) =
                 (wxMUTEX_NO_ERROR, mkMutex PM_free true wxMUTEX_DEFAULT 0)).
  { unfold_calls. split_tests; simpl; solve_errno. }
  rewrite HU. cbn [fst snd m_mutex].
  split; [reflexivity|].
  split; [apply Lock_by_owner; [exact Ha|reflexivity|reflexivity]|].
  split; [reflexivity|]. split; [apply Lock_free|].
  intros self [pm ok ty own] Hty. cbn in Hty. subst ty.
  destruct pm as [| |h d]; unfold_calls; simpl; split_tests; simpl;
    solve_errno.
Qed.

Lemma foreign_Unlock_releases_default_mutex_witness :
  7 ≠ 0 ∧ 8 ≠ 7 ∧
  Unlock 8 (Lock 7 (ctor wxMUTEX_DEFAULT 0)).2 =
    (wxMUTEX_NO_ERROR, ctor wxMUTEX_DEFAULT 0) ∧
  Lock 9 (Unlock 8 (Lock 7 (ctor wxMUTEX_DEFAULT 0)).2).2 =
    (Returned wxMUTEX_NO_ERROR, mkMutex (PM_held 9 0) true wxMUTEX_DEFAULT 9).
Proof.
  assert (H1 : 7 ≠ 0) by lia. assert (H2 : 8 ≠ 7) by lia.
  split; [exact H1|]. split; [exact H2|].
  destruct (foreign_Unlock_releases_default_mutex 7 8 9 H1 H2)
    as (_ & _ & HU & HL & _).
  split; [exact HU|exact HL].
Defined.

(** X3: what the result [wxMUTEX_NO_ERROR] tells.  When [Lock],
    [Lock(ms)] or [TryLock] returns it, the native lock was free before the
    call, or held by the caller itself on a recursive mutex, and the caller
    holds it afterwards.  When [Unlock] returns it on a recursive mutex,
    the caller held the lock and has given up one level of it; on a
    default mutex it only tells that the native lock was initialised and is
    free now, whoever held it. *)
Theorem NO_ERROR_means_lock_taken_or_released self c m m' :
  call self c m = (Returned wxMUTEX_NO_ERROR, m') →
  match c with
  | CallUnlock =>
      match m_type m with
      | wxMUTEX_RECURSIVE =>
          ∃ d, m_mutex m = PM_held self d ∧
               m_mutex m' =
                 match d with O => PM_free | S d' => PM_held self d' end
      | wxMUTEX_DEFAULT => m_mutex m ≠ PM_invalid ∧ m_mutex m' = PM_free
      end
  | _ =>
      (m_mutex m = PM_free ∧ m_mutex m' = PM_held self 0) ∨
      (m_type m = wxMUTEX_RECURSIVE ∧
       ∃ d, m_mutex m = PM_held self d ∧ m_mutex m' = PM_held self (S d))
  end.
Proof.
  destruct m as [pm ok ty own].
  destruct c as [|[] ms [[s u]|] now| |]; destruct pm as [| |h d], ty;
    unfold_calls; simpl; split_tests; simpl;
    intros H; inversion H; subst; simpl;
    try solve_errno; eauto 10; try (split; [discriminate|reflexivity]).
Qed.

Lemma NO_ERROR_means_lock_taken_or_released_witness :
  call 8 CallUnlock (mkMutex (PM_held 7 0) true wxMUTEX_DEFAULT 7) =
    (Returned wxMUTEX_NO_ERROR, mkMutex PM_free true wxMUTEX_DEFAULT 0) ∧
  PM_held 7 0 ≠ PM_invalid ∧
  m_mutex (mkMutex PM_free true wxMUTEX_DEFAULT 0) = PM_free.
Proof.
  split; [reflexivity|].
  exact (NO_ERROR_means_lock_taken_or_released 8 CallUnlock
           (mkMutex (PM_held 7 0) true wxMUTEX_DEFAULT 7)
           (mkMutex PM_free true wxMUTEX_DEFAULT 0) eq_refl).
Defined.

(** X4: the deadline of [Lock(ms)].  The [timespec] handed to
    [pthread_mutex_timedlock] is the time of day plus [ms], to the
    nanosecond; its nanosecond field is carried into the seconds only when
    it exceeds one second, so it ranges up to 1000000000 inclusive, and it
    is exactly 1000000000 when the microseconds of the clock and the
    milliseconds of [ms] add up to one second. *)
Theorem Lock_timespec_exact_but_not_normalised self ms s u now m :
  0 <= ms → 0 <= u < 1000000 →
  let ts := Lock_timespec ms (Some (s, u)) now in
  LockTimeout true self ms (Some (s, u)) now m =
    (let '(err, pm) :=
       pthread_mutex_timedlock (m_type m) self (m_mutex m) ts.1 ts.2 in
     HandleLockResult self err (set_mutex pm m)) ∧
  ts.1 * 1000000000 + ts.2 = s * 1000000000 + u * 1000 + ms * 1000000 ∧
  0 <= ts.2 <= 1000000000 ∧
  (ts.2 = 1000000000 ↔ u * 1000 + (ms mod 1000) * 1000000 = 1000000000).
Proof.
  intros Hms Hu ts. unfold ts, Lock_timespec, LockTimeout.
  pose proof (Z.div_mod ms 1000 ltac:(lia)) as Hdm.
  pose proof (Z.mod_pos_bound ms 1000 ltac:(lia)) as Hmod.
  cbv zeta. cbn [fst snd].
  destruct (bool_decide_reflect
              (1000 * 1000000 < u * 1000 + ms mod 1000 * 1000000));
    cbn [fst snd]; (split; [reflexivity|]); lia.
Qed.

(** With such a deadline a mutex held by another thread gives
    [wxMUTEX_MISC_ERROR] at once instead of [wxMUTEX_TIMEOUT]. *)
Example Lock_timeout_with_invalid_deadline :
  LockTimeout true 8 1500 (Some (10, 500000)) 0
    (mkMutex (PM_held 7 0) true wxMUTEX_DEFAULT 7) =
    (wxMUTEX_MISC_ERROR, mkMutex (PM_held 7 0) true wxMUTEX_DEFAULT 7) ∧
  LockTimeout true 8 1500 (Some (10, 499999)) 0
    (mkMutex (PM_held 7 0) true wxMUTEX_DEFAULT 7) =
    (wxMUTEX_TIMEOUT, mkMutex (PM_held 7 0) true wxMUTEX_DEFAULT 7).
Proof. split; reflexivity. Qed.

Lemma Lock_timespec_exact_but_not_normalised_witness :
  0 <= 1500 ∧ 0 <= 500000 < 1000000 ∧
  (Lock_timespec 1500 (Some (10, 500000)) 0).2 = 1000000000.
Proof.
  assert (H1 : 0 <= 1500) by lia. assert (H2 : 0 <= 500000 < 1000000) by lia.
  split; [exact H1|]. split; [exact H2|].
  destruct (Lock_timespec_exact_but_not_normalised
              7 1500 10 500000 0 (ctor wxMUTEX_DEFAULT 0) H1 H2)
    as (_ & _ & _ & H).
  apply H. reflexivity.
Defined.

Lemma to_int_small x : 0 <= x < 2 ^ 31 → to_int x = x.
Proof.
  unfold to_int. intros H. rewrite Z.mod_small by lia. lia.
Qed.

Lemma to_int_id x : - 2 ^ 31 <= x < 2 ^ 31 → to_int x = x.
Proof.
  unfold to_int. intros H. rewrite Z.mod_small by lia. lia.
Qed.

Lemma to_int_wraps x : 2 ^ 31 <= x < 2 ^ 32 → to_int x = x - 2 ^ 32.
Proof.
  unfold to_int. intros H.
  replace (x + 2 ^ 31) with (x - 2 ^ 31 + 1 * 2 ^ 32) by lia.
  rewrite Z_mod_plus_full, Z.mod_small by lia. lia.
Qed.

(** X5: the deadline of the condition's [WaitTimeout].  For a clock
    reading plus timeout [t] milliseconds, the nanosecond field is the
    milliseconds of [t] below the second, so it is below one second; the
    seconds field is [t / 1000] as long as that fits the [int] it passes
    through, and from 2^31 seconds on (January 2038) it is [t / 1000 - 2^32],
    a negative time. *)
Theorem WaitTimeout_timespec_exact_until_2038 now ms :
  0 <= now + ms < 2 ^ 32 * 1000 →
  let t := now + ms in
  let ts := WaitTimeout_timespec now ms in
  ts.2 = (t mod 1000) * 1000000 ∧
  0 <= ts.2 < 1000000000 ∧
  (t / 1000 < 2 ^ 31 → ts.1 = t / 1000) ∧
  (2 ^ 31 <= t / 1000 → ts.1 = t / 1000 - 2 ^ 32 ∧ ts.1 < 0).
Proof.
  intros Ht t ts. unfold ts, WaitTimeout_timespec. fold t. cbn [fst snd].
  rewrite Z.quot_div_nonneg by lia.
  pose proof (Z.div_mod t 1000 ltac:(lia)) as Hdm.
  pose proof (Z.mod_pos_bound t 1000 ltac:(lia)) as Hmod.
  assert (Hq : 0 <= t / 1000 < 2 ^ 32).
  { split; [apply Z.div_pos; lia|]. apply Z.div_lt_upper_bound; lia. }
  replace (t - t / 1000 * 1000) with (t mod 1000) by lia.
  unfold Sema.GetLo.
  rewrite (Z.mod_small (t mod 1000)) by lia.
  rewrite (Z.mod_small (t / 1000)) by lia.
  rewrite (to_int_small (t mod 1000)) by lia.
  split; [lia|]. split; [lia|]. split.
  - intros H. apply to_int_small. lia.
  - intros H. rewrite to_int_wraps by lia. lia.
Qed.

Lemma WaitTimeout_timespec_exact_until_2038_witness :
  0 <= 2147483648000 + 250 < 2 ^ 32 * 1000 ∧
  WaitTimeout_timespec 2147483648000 250 = (-2147483648, 250000000).
Proof.
  assert (H : 0 <= 2147483648000 + 250 < 2 ^ 32 * 1000) by lia.
  split; [exact H|].
  destruct (WaitTimeout_timespec_exact_until_2038 2147483648000 250 H)
    as (H2 & _ & _ & H1).
  destruct (WaitTimeout_timespec 2147483648000 250) as [sec nsec].
  cbn [fst snd] in *. destruct H1 as [H1 _]; [vm_compute; discriminate|].
  rewrite H1, H2. reflexivity.
Defined.

End MutexExtra.

(** ** The semaphore, further *)

Section SemaExtra.

Import Mutex Sema SemaRun.

(** What the locker does around a body when it finds the mutex free. *)
Lemma with_locker_idle_run self s body :
  idle s →
  with_locker self s body =
    match body (set_mx (mkMutex (PM_held self 0) (Mutex.m_isOk (m_mutex s))
                          wxMUTEX_DEFAULT self) s) with
    | (Blocked, _, _) => (Blocked, s, [])
    | (Returned r, s2, evs) =>
        let '(u, mx') := Unlock self (m_mutex s2) in
        (Returned r, set_mx mx' s2,
         EvLock self wxMUTEX_NO_ERROR :: evs ++ [EvUnlock self u])
    end.
Proof.
  destruct s as [[pm ok ty own] cok c m isok].
  intros (Hpm & Hty & Hown). simpl in *. subst pm ty own.
  unfold with_locker. cbn [m_mutex]. rewrite Lock_free. reflexivity.
Qed.

Lemma TryWait_idle self s :
  idle s →
  TryWait self s =
    if bool_decide (m_count s = 0)
    then (Returned wxSEMA_BUSY, s,
          [EvLock self wxMUTEX_NO_ERROR; EvUnlock self wxMUTEX_NO_ERROR])
    else (Returned wxSEMA_NO_ERROR, set_count (to_size_t (m_count s - 1)) s,
          [EvLock self wxMUTEX_NO_ERROR;
           EvStoreCount (to_size_t (m_count s - 1));
           EvUnlock self wxMUTEX_NO_ERROR]).
Proof.
  intros Hidle. unfold TryWait. rewrite (with_locker_idle_run _ _ _ Hidle).
  destruct s as [[pm ok ty own] cok c m isok].
  destruct Hidle as (Hpm & Hty & Hown). simpl in *. subst pm ty own.
  cbn. destruct (bool_decide (c = 0)); cbn; rewrite Unlock_held; reflexivity.
Qed.

Lemma Wait_idle_empty self s :
  idle s → m_count s = 0 → Wait self [] s = (Blocked, s, []).
Proof.
  intros Hidle Hc. unfold Wait. rewrite (with_locker_idle_run _ _ _ Hidle).
  cbn. rewrite Hc. reflexivity.
Qed.

(** One undisturbed call moves the count by what it gave or took. *)
Lemma undisturbed_call self c s :
  idle s → in_range s → undisturbed c → m_count s < SIZE_MAX →
  idle (call self c s).1.2 ∧
  m_maxcount (call self c s).1.2 = m_maxcount s ∧
  0 <= m_count (call self c s).1.2 ∧
  m_count (call self c s).1.2 =
    m_count s
    + (if gave (c, (call self c s).1.1) then 1 else 0)
    - (if took (c, (call self c s).1.1) then 1 else 0).
Proof.
  intros Hidle [Hc Hm] Hu Hlt.
  destruct c as [[|w wakes]| |ms start steps|]; try contradiction; simpl.
  - destruct (Z.eq_dec (m_count s) 0) as [E|E].
    + rewrite (Wait_idle_empty self s Hidle E). simpl. repeat split; try apply Hidle; lia.
    + rewrite (Wait_idle_positive self [] s Hidle E). simpl.
      rewrite to_size_t_small by lia. repeat split; try apply Hidle; lia.
  - rewrite (TryWait_idle self s Hidle).
    destruct (bool_decide_reflect (m_count s = 0)); simpl.
    + repeat split; try apply Hidle; lia.
    + rewrite to_size_t_small by lia. repeat split; try apply Hidle; lia.
  - rewrite (Post_idle self s Hidle). unfold Post_body.
    destruct (_ && _); simpl.
    + repeat split; try apply Hidle; lia.
    + rewrite to_size_t_small by lia.
      destruct (bool_decide _); simpl; repeat split; try apply Hidle; lia.
Qed.

(** X6: units are conserved.  On a semaphore no operation is in progress
    on, after any sequence of [Post], [TryWait] and undisturbed [Wait] calls
    by any threads (short enough for the count not to wrap), the count is
    the initial count plus the posts that did not overflow minus the waits
    that succeeded: no post is lost and no unit is taken twice. *)
Theorem units_are_conserved cs s :
  idle s → in_range s →
  Forall (λ x, undisturbed x.2) cs →
  m_count s + Z.of_nat (length cs) <= SIZE_MAX →
  m_count (run cs s).2 = m_count s + gives (run cs s).1 - takes (run cs s).1 ∧
  idle (run cs s).2 ∧
  m_maxcount (run cs s).2 = m_maxcount s.
Proof.
  revert s. induction cs as [|[self c] cs IH]; intros s Hidle Hr Hu Hlen.
  - simpl. unfold gives, takes. simpl. repeat split; try apply Hidle. lia.
  - inversion Hu as [|? ? Hu1 Hu2]; subst. simpl in Hu1.
    cbn [length] in Hlen.
    assert (Hlt : m_count s < SIZE_MAX) by lia.
    destruct (undisturbed_call self c s Hidle Hr Hu1 Hlt)
      as (H1 & H2 & H0 & H3).
    cbn [run]. destruct (call self c s) as [[r s1] evs]. cbn [fst snd] in *.
    assert (Hr1 : in_range s1).
    { destruct Hr as [Hc Hm]. split; [|rewrite H2; exact Hm].
      split; [exact H0|].
      rewrite H3. destruct (gave (c, r)), (took (c, r)); lia. }
    assert (Hlen1 : m_count s1 + Z.of_nat (length cs) <= SIZE_MAX).
    { rewrite H3. destruct (gave (c, r)), (took (c, r)); lia. }
    destruct (IH s1 H1 Hr1 Hu2 Hlen1) as (I1 & I2 & I3).
    destruct (run cs s1) as [log s2]. cbn [fst snd] in *.
    split; [|split; [exact I2|congruence]].
    rewrite I1, H3. unfold gives, takes. cbn [List.filter].
    destruct (gave (c, r)), (took (c, r)); cbn [length]; lia.
Qed.

Lemma units_are_conserved_witness :
  let cs := [(1, CallPost); (2, CallTryWait); (2, CallTryWait);
             (1, CallPost); (3, CallPost); (2, CallWait [])] in
  let s := ctor (mkRaw 7 3 false) 0 1 0 0 in
  idle s ∧ m_count (run cs s).2 = 0 + 2 - 2.
Proof.
  intros cs s.
  assert (Hidle : idle s) by (repeat split).
  assert (Hr : in_range s) by (cbv -[Z.le Z.lt]; lia).
  assert (Hu : Forall (λ x : Z * sema_call, undisturbed x.2) cs)
    by (repeat constructor).
  assert (Hlen : m_count s + Z.of_nat (length cs) <= SIZE_MAX)
    by (cbv -[Z.le Z.lt]; lia).
  split; [exact Hidle|].
  destruct (units_are_conserved cs s Hidle Hr Hu Hlen) as (H & _ & _).
  exact H.
Defined.

Lemma stores_app evs1 evs2 : stores (evs1 ++ evs2) = (stores evs1 + stores evs2)%nat.
Proof. unfold stores. rewrite List.filter_app, length_app. reflexivity. Qed.

(** The locker adds no store of its own and hides nothing. *)
Lemma with_locker_stores self s body :
  stores (with_locker self s body).2 =
    match (with_locker self s body).1.1 with
    | Blocked => 0%nat
    | Returned _ => stores (body (set_mx (Lock self (m_mutex s)).2 s)).2
    end ∧
  match (with_locker self s body).1.1 with
  | Blocked => True
  | Returned r =>
      (body (set_mx (Lock self (m_mutex s)).2 s)).1.1 = Returned r
  end.
Proof.
  unfold with_locker.
  destruct (Lock self (m_mutex s)) as [[e|] mx]; cbn [fst snd];
    [|split; [reflexivity|exact I]].
  destruct (body (set_mx mx s)) as [[[r|] s2] evs]; cbn [fst snd];
    [|split; [reflexivity|exact I]].
  destruct (bool_decide (e = wxMUTEX_NO_ERROR)).
  - destruct (Unlock self (m_mutex s2)) as [u mx']. cbn [fst snd].
    split; [|reflexivity].
    change (EvLock self e :: evs ++ [EvUnlock self u])
      with ([EvLock self e] ++ evs ++ [EvUnlock self u]).
    rewrite !stores_app. cbn. lia.
  - cbn [fst snd]. split; reflexivity.
Qed.

Lemma Wait_loop_stores wakes s :
  stores (Wait_loop wakes s).2 =
    match (Wait_loop wakes s).1.1 with
    | Returned wxSEMA_NO_ERROR => 1%nat
    | _ => 0%nat
    end.
Proof.
  revert s. induction wakes as [|w wakes IH]; intros s; simpl;
    destruct (bool_decide (m_count s = 0)); simpl; try reflexivity.
  destruct (bool_decide _); simpl; [|reflexivity].
  specialize (IH (on_wake w s)).
  destruct (Wait_loop wakes (on_wake w s)) as [[r s'] evs]. exact IH.
Qed.

Lemma WaitTimeout_loop_stores ms start steps s :
  stores (WaitTimeout_loop ms start steps s).2 =
    match (WaitTimeout_loop ms start steps s).1.1 with
    | Returned wxSEMA_NO_ERROR => 1%nat
    | _ => 0%nat
    end.
Proof.
  revert s. induction steps as [|[now w] steps IH]; intros s; simpl;
    destruct (bool_decide (m_count s = 0)); simpl; try reflexivity.
  destruct (bool_decide _); simpl; [reflexivity|].
  destruct (cond_WaitTimeout (wake_err w)); simpl; try reflexivity.
  specialize (IH (on_wake w s)).
  destruct (WaitTimeout_loop ms start steps (on_wake w s)) as [[r s'] evs].
  exact IH.
Qed.

(** X7: the count is stored exactly when a unit moves.  Whatever the state
    of the semaphore and whatever the other threads do, a [Wait], [TryWait]
    or [WaitTimeout] stores to [m_count] once if it returns
    [wxSEMA_NO_ERROR] and never if it returns anything else or stays
    suspended; a [Post] stores once unless it returns [wxSEMA_OVERFLOW]
    or stays suspended, and so also when it goes on to fail with
    [wxSEMA_MISC_ERROR] because the signal failed. *)
Theorem count_stored_exactly_when_unit_moves self c s :
  stores (call self c s).2 =
    if took (c, (call self c s).1.1) || gave (c, (call self c s).1.1)
    then 1%nat else 0%nat.
Proof.
  destruct c as [wakes| |ms start steps|]; cbn [call];
    unfold Wait, TryWait, WaitTimeout, Post;
    match goal with |- context [with_locker self s ?b] =>
      destruct (with_locker_stores self s b) as [H1 H2];
      rewrite H1;
      destruct (with_locker self s b).1.1 as [r|]; try reflexivity
    end; cbn [took gave].
  - rewrite Wait_loop_stores, H2. destruct r; reflexivity.
  - destruct (bool_decide (m_count _ = 0)); cbn in *;
      inversion H2; subst; reflexivity.
  - rewrite WaitTimeout_loop_stores, H2. destruct r; reflexivity.
  - unfold Post_body in *. destruct (_ && _); cbn in *.
    + inversion H2; subst; reflexivity.
    + destruct (bool_decide _); inversion H2; subst; reflexivity.
Qed.

(** A [Post] whose signal fails has stored the new count all the same. *)
Example Post_fails_after_storing :
  Post 9 (mkSema (Mutex.ctor wxMUTEX_DEFAULT 0) false 0 1 true) =
    (Returned wxSEMA_MISC_ERROR,
     mkSema (Mutex.ctor wxMUTEX_DEFAULT 0) false 1 1 true,
     [EvLock 9 wxMUTEX_NO_ERROR; EvStoreCount 1; EvCondSignal;
      EvUnlock 9 wxMUTEX_NO_ERROR]).
Proof. reflexivity. Qed.

Lemma on_wake_spurious w s :
  spurious w →
  on_wake w s = set_mx (set_owner (wake_owner w) (m_mutex s)) (set_count 0 s).
Proof.
  intros [He Hc]. unfold on_wake. rewrite He, Hc. reflexivity.
Qed.

(** The loop of [Wait] goes through spurious wake-ups as if they had not
    happened, but for the owner the other threads left in the mutex. *)
Lemma Wait_loop_after_spurious cok m isok sp :
  Forall spurious sp →
  ∀ mx tail, ∃ own,
    Wait_loop (sp ++ tail) (mkSema mx cok 0 m isok) =
      let '(r, s', evs) :=
        Wait_loop tail (mkSema (set_owner own mx) cok 0 m isok) in
      (r, s', replicate (length sp) EvCondWait ++ evs).
Proof.
  induction 1 as [|w sp Hw Hsp IH]; intros mx tail.
  - exists (m_owningThread mx). destruct mx as [pm ok ty own]. cbn.
    destruct (Wait_loop tail _) as [[r s'] evs]. reflexivity.
  - destruct (IH (set_owner (wake_owner w) mx) tail) as [own E].
    exists own. cbn [app Wait_loop m_count].
    rewrite bool_decide_eq_true_2 by reflexivity.
    rewrite (on_wake_spurious w _ Hw). destruct Hw as [He Hc].
    unfold cond_Wait. rewrite He.
    rewrite !bool_decide_eq_true_2 by reflexivity.
    unfold set_mx, set_count. cbn [m_mutex m_cond_isOk m_count m_maxcount m_isOk].
    rewrite E. destruct mx as [pm ok ty o0]. cbn.
    destruct (Wait_loop tail _) as [[r s'] evs]. reflexivity.
Qed.

(** X8: spurious wake-ups do not release a waiter.  On an empty semaphore
    no operation is in progress on, a [Wait] goes to sleep on the condition
    with the native lock released and the owner field of the mutex naming
    the sleeper; a [Wait] that has seen only wake-ups which found the count
    at 0 is still suspended; when a wake-up then finds the count at
    [c > 0] the [Wait] returns [wxSEMA_NO_ERROR] and leaves the count at
    [c - 1], having waited on the condition once per wake-up. *)
Theorem Wait_survives_spurious_wakeups self sp c o rest s :
  idle s → m_count s = 0 → Forall spurious sp → 0 < c <= SIZE_MAX →
  Wait_sleeping self s = Some (set_mx (set_owner self (m_mutex s)) s) ∧
  (Wait self sp s).1.1 = Blocked ∧
  Wait self (sp ++ mkWake 0 c o :: rest) s =
    (Returned wxSEMA_NO_ERROR, set_count (c - 1) s,
     EvLock self wxMUTEX_NO_ERROR
       :: replicate (length sp) EvCondWait
          ++ [EvCondWait; EvStoreCount (c - 1);
              EvUnlock self wxMUTEX_NO_ERROR]).
Proof.
  intros Hidle Hcount Hsp Hc.
  split.
  { destruct s as [[pm ok ty own] cok cnt m isok].
    destruct Hidle as (Hpm & Hty & Hown). cbn in Hpm, Hty, Hown, Hcount.
    subst pm ty own cnt. unfold Wait_sleeping. cbn [m_mutex].
    rewrite Lock_free. reflexivity. }
  unfold Wait. rewrite !(with_locker_idle_run _ _ _ Hidle).
  destruct s as [[pm ok ty own] cok cnt m isok].
  destruct Hidle as (Hpm & Hty & Hown). cbn in Hpm, Hty, Hown, Hcount.
  subst pm ty own cnt. unfold set_mx at 1 3.
  cbn [m_mutex Mutex.m_isOk m_cond_isOk m_count m_maxcount m_isOk].
  split.
  - destruct (Wait_loop_after_spurious cok m isok sp Hsp
                (mkMutex (PM_held self 0) ok wxMUTEX_DEFAULT self) [])
      as [own E].
    rewrite app_nil_r in E. rewrite E. reflexivity.
  - destruct (Wait_loop_after_spurious cok m isok sp Hsp
                (mkMutex (PM_held self 0) ok wxMUTEX_DEFAULT self)
                (mkWake 0 c o :: rest)) as [own E].
    rewrite E. clear E. cbn [Wait_loop m_count wake_err].
    rewrite bool_decide_eq_true_2 by reflexivity.
    unfold cond_Wait. rewrite !bool_decide_eq_true_2 by reflexivity.
    unfold on_wake. cbn [wake_err wake_count wake_owner].
    rewrite bool_decide_eq_true_2 by reflexivity. cbn [orb].
    assert (E : ∀ s0, m_count s0 = c →
              Wait_loop rest s0 =
                (Returned wxSEMA_NO_ERROR, set_count (c - 1) s0,
                 [EvStoreCount (c - 1)])).
    { intros s0 <-. rewrite <- (to_size_t_small (m_count s0 - 1)) by lia.
      destruct rest; simpl;
        rewrite bool_decide_eq_false_2 by lia; reflexivity. }
    rewrite E by reflexivity. unfold set_owner. cbn. rewrite Unlock_held.
    rewrite <- app_assoc. reflexivity.
Qed.

Lemma Wait_survives_spurious_wakeups_witness :
  let s := ctor (mkRaw 7 3 false) 0 1 0 0 in
  idle s ∧
  Wait 9 [mkWake 0 0 4; mkWake 0 0 5; mkWake 0 1 6] s =
    (Returned wxSEMA_NO_ERROR, set_count (1 - 1) s,
     EvLock 9 wxMUTEX_NO_ERROR
       :: replicate 2 EvCondWait
          ++ [EvCondWait; EvStoreCount (1 - 1); EvUnlock 9 wxMUTEX_NO_ERROR]).
Proof.
  intros s.
  assert (Hidle : idle s) by (repeat split).
  assert (Hsp : Forall spurious [mkWake 0 0 4; mkWake 0 0 5])
    by (repeat constructor).
  assert (Hc : 0 < 1 <= SIZE_MAX) by (unfold SIZE_MAX; lia).
  split; [exact Hidle|].
  destruct (Wait_survives_spurious_wakeups 9 [mkWake 0 0 4; mkWake 0 0 5]
              1 6 [] s Hidle eq_refl Hsp Hc) as (_ & _ & H).
  exact H.
Defined.

Lemma timeouts_app evs1 evs2 :
  timeouts (evs1 ++ evs2) = timeouts evs1 ++ timeouts evs2.
Proof.
  induction evs1 as [|e evs1 IH]; [reflexivity|].
  destruct e; simpl; rewrite ?IH; reflexivity.
Qed.

Lemma WaitTimeout_loop_timeouts ms start steps s :
  Forall (λ r, 0 < r) (timeouts (WaitTimeout_loop ms start steps s).2).
Proof.
  revert s. induction steps as [|[now w] steps IH]; intros s; simpl;
    destruct (bool_decide (m_count s = 0)); simpl; try constructor.
  destruct (bool_decide_reflect
              (to_long (to_long ms - to_long (GetLo (now - start))) <= 0))
    as [Hle|Hgt]; simpl; [constructor|].
  destruct (cond_WaitTimeout (wake_err w)); simpl;
    try (constructor; [lia|constructor]).
  specialize (IH (on_wake w s)).
  destruct (WaitTimeout_loop ms start steps (on_wake w s)) as [[r s'] evs].
  simpl in *. constructor; [lia|exact IH].
Qed.

(** X9: [WaitTimeout] never waits on the condition without time left.
    Whatever the clock readings and the wake-ups, every timeout it hands to
    the condition is positive. *)
Theorem WaitTimeout_waits_only_with_time_left self ms start steps s :
  Forall (λ r, 0 < r) (timeouts (WaitTimeout self ms start steps s).2).
Proof.
  unfold WaitTimeout, with_locker.
  destruct (Lock self (m_mutex s)) as [[e|] mx]; [|constructor].
  pose proof (WaitTimeout_loop_timeouts ms start steps (set_mx mx s)) as H.
  destruct (WaitTimeout_loop ms start steps (set_mx mx s)) as [[[r|] s2] evs];
    [|constructor].
  cbn [snd] in H. destruct (bool_decide (e = wxMUTEX_NO_ERROR)).
  - destruct (Unlock self (m_mutex s2)) as [u mx']. cbn [snd].
    change (EvLock self e :: evs ++ [EvUnlock self u])
      with ([EvLock self e] ++ evs ++ [EvUnlock self u]).
    rewrite !timeouts_app. cbn. rewrite app_nil_r. exact H.
  - cbn [snd]. exact H.
Qed.

Lemma to_long_small x : - 2 ^ 63 <= x < 2 ^ 63 → to_long x = x.
Proof. unfold to_long. intros H. rewrite Z.mod_small by lia. lia. Qed.

(** X10: with the deadline already passed, [WaitTimeout] is a poll.  On a
    semaphore no operation is in progress on, when the first clock reading
    shows that [ms] milliseconds or more have gone by (so also for
    [ms = 0]), an empty semaphore gives [wxSEMA_TIMEOUT] at once, without a
    wait on the condition and with nothing changed; a semaphore with units
    gives one and returns [wxSEMA_NO_ERROR]. *)
Theorem WaitTimeout_expired_deadline_polls self ms start now w rest s :
  idle s → 0 <= ms < 2 ^ 63 → 0 <= now - start < 2 ^ 32 → ms <= now - start →
  WaitTimeout self ms start ((now, w) :: rest) s =
    if bool_decide (m_count s = 0)
    then (Returned wxSEMA_TIMEOUT, s,
          [EvLock self wxMUTEX_NO_ERROR; EvUnlock self wxMUTEX_NO_ERROR])
    else (Returned wxSEMA_NO_ERROR, set_count (to_size_t (m_count s - 1)) s,
          [EvLock self wxMUTEX_NO_ERROR;
           EvStoreCount (to_size_t (m_count s - 1));
           EvUnlock self wxMUTEX_NO_ERROR]).
Proof.
  intros Hidle Hms Hel Hexp.
  unfold WaitTimeout. rewrite (with_locker_idle_run _ _ _ Hidle).
  destruct s as [[pm ok ty own] cok cnt m isok].
  destruct Hidle as (Hpm & Hty & Hown). cbn in Hpm, Hty, Hown.
  subst pm ty own.
  unfold set_mx at 1.
  cbn [WaitTimeout_loop m_mutex Mutex.m_isOk m_cond_isOk m_count
       m_maxcount m_isOk].
  destruct (bool_decide_reflect (cnt = 0)) as [E|E].
  - assert (Hrem : to_long (to_long ms - to_long (GetLo (now - start))) <= 0).
    { unfold GetLo. rewrite (Z.mod_small (now - start)) by lia.
      rewrite (to_long_small ms) by lia.
      rewrite (to_long_small (now - start)) by lia.
      rewrite to_long_small by lia. lia. }
    rewrite bool_decide_eq_true_2 by exact Hrem.
    cbn. rewrite Unlock_held. reflexivity.
  - cbn. rewrite Unlock_held. reflexivity.
Qed.

Lemma WaitTimeout_expired_deadline_polls_witness :
  let s := ctor (mkRaw 7 3 false) 0 1 0 0 in
  idle s ∧
  WaitTimeout 9 0 1000 [(1000, mkWake 0 0 0)] s =
    (Returned wxSEMA_TIMEOUT, s,
     [EvLock 9 wxMUTEX_NO_ERROR; EvUnlock 9 wxMUTEX_NO_ERROR]).
Proof.
  intros s.
  assert (Hidle : idle s) by (repeat split).
  split; [exact Hidle|].
  exact (WaitTimeout_expired_deadline_polls 9 0 1000 1000 (mkWake 0 0 0) [] s
           Hidle ltac:(lia) ltac:(lia) ltac:(lia)).
Defined.

End SemaExtra.

(** ** The thread, further *)

Section ThreadExtraProperties.

Import Mutex Sema ThreadInternal Thread ThreadModule Scenario Timespec
  ThreadExtra.

(** Exposes the steps of a computation on the world. *)
Ltac unfold_world :=
  unfold mbind, M_bind, get_thread, emit, mret, M_ret, modify_internal,
    internal, get, set_nThreadsBeingDeleted, free_thread, modify.

(** Runs the steps that need no case analysis. *)
Ltac run_world :=
  repeat first
    [ rewrite lookup_insert_eq
    | rewrite bool_decide_eq_true_2 by reflexivity
    | rewrite bool_decide_eq_false_2 by discriminate
    | progress cbn ].

(** Shows the events a computation added to the trace. *)
Ltac new_events :=
  cbn [trace]; rewrite ?app_nil_r, <- ?app_assoc;
  eexists; split; [reflexivity|].

(** X11: the priority on Linux.  For priorities [0 <= p <= q <= 100] the
    nice value [SetPriority] asks for is [20 - 2p/5]: it lies between -20
    and 20, goes down as the priority goes up, and is 20 at priority 0 and
    -20 at priority 100. *)
Theorem linux_nice_range p q :
  0 <= p → p <= q → q <= 100 →
  linux_nice p = 20 - (2 * p) / 5 ∧
  -20 <= linux_nice q ∧ linux_nice q <= linux_nice p ∧ linux_nice p <= 20 ∧
  linux_nice 0 = 20 ∧ linux_nice 100 = -20.
Proof.
  intros Hp Hpq Hq.
  assert (E : ∀ x, 0 <= x <= 100 → linux_nice x = 20 - (2 * x) / 5).
  { intros x Hx. unfold linux_nice.
    rewrite (to_int_id x), (to_int_id (2 * x)), (to_int_id (- (2 * x)))
      by lia.
    rewrite Z.quot_opp_l by lia. rewrite Z.quot_div_nonneg by lia. lia. }
  rewrite !E by lia.
  assert (H1 : (2 * p) / 5 <= (2 * q) / 5) by (apply Z.div_le_mono; lia).
  assert (H2 : 0 <= (2 * p) / 5) by (apply Z.div_pos; lia).
  assert (H3 : (2 * q) / 5 <= 40) by (apply Z.div_le_upper_bound; lia).
  repeat split; try lia; reflexivity.
Qed.

Lemma linux_nice_range_witness :
  0 <= 50 ∧ 50 <= 75 ∧ 75 <= 100 ∧
  -20 <= linux_nice 75 ∧ linux_nice 75 <= linux_nice 50 ∧ linux_nice 50 <= 20.
Proof.
  assert (H1 : 0 <= 50) by lia. assert (H2 : 50 <= 75) by lia.
  assert (H3 : 75 <= 100) by lia.
  destruct (linux_nice_range 50 75 H1 H2 H3) as (_ & A & B & C & _).
  repeat split; assumption.
Defined.

(** X12: the priority at creation.  When the scheduling policy reports a
    range [min < max] (neither bound being -1, which the source takes for a
    failure), priorities [0 <= p <= q <= 100] are mapped into that range in
    order, with 0 going to [min] and 100 to [max]. *)
Theorem sched_priority_range min_prio max_prio p q :
  min_prio ≠ -1 → max_prio ≠ -1 → min_prio < max_prio →
  0 <= p → p <= q → q <= 100 →
  ∃ x y,
    sched_priority min_prio max_prio p = Some x ∧
    sched_priority min_prio max_prio q = Some y ∧
    min_prio <= x ∧ x <= y ∧ y <= max_prio ∧
    sched_priority min_prio max_prio 0 = Some min_prio ∧
    sched_priority min_prio max_prio 100 = Some max_prio.
Proof.
  intros Hmin Hmax Hlt Hp Hpq Hq.
  assert (E : ∀ x, 0 <= x →
            sched_priority min_prio max_prio x =
              Some (min_prio + (x * (max_prio - min_prio)) / 100)).
  { intros x Hx. unfold sched_priority.
    rewrite !bool_decide_eq_false_2 by lia. cbn.
    rewrite Z.quot_div_nonneg by nia. reflexivity. }
  rewrite !E by lia.
  eexists _, _. split; [reflexivity|]. split; [reflexivity|].
  assert (H0 : 0 <= (p * (max_prio - min_prio)) / 100)
    by (apply Z.div_pos; nia).
  assert (H1 : (p * (max_prio - min_prio)) / 100
               <= (q * (max_prio - min_prio)) / 100)
    by (apply Z.div_le_mono; nia).
  assert (H2 : (q * (max_prio - min_prio)) / 100 <= max_prio - min_prio)
    by (apply Z.div_le_upper_bound; nia).
  split; [lia|]. split; [lia|]. split; [lia|]. split.
  - f_equal. rewrite Z.mul_0_l, Z.div_0_l by lia. lia.
  - f_equal. rewrite Z.mul_comm, Z.div_mul by lia. lia.
Qed.

Lemma sched_priority_range_witness :
  1 ≠ -1 ∧ 99 ≠ -1 ∧ 1 < 99 ∧
  sched_priority 1 99 50 = Some 50 ∧ sched_priority 1 99 100 = Some 99.
Proof.
  assert (H1 : 1 ≠ -1) by lia. assert (H2 : 99 ≠ -1) by lia.
  assert (H3 : 1 < 99) by lia.
  split; [exact H1|]. split; [exact H2|]. split; [exact H3|].
  destruct (sched_priority_range 1 99 50 100 H1 H2 H3
              ltac:(lia) ltac:(lia) ltac:(lia))
    as (x & y & _ & _ & _ & _ & _ & _ & E).
  split; [reflexivity|exact E].
Defined.

(** Where the priority is not a wxWidgets priority the conversion to [int]
    shows: the largest [unsigned int] is priority -1 and gives nice 20. *)
Example linux_nice_of_UINT_MAX : linux_nice 4294967295 = 20.
Proof. reflexivity. Qed.

(** X13: [SetPriority] is read back only before the start.  For every
    [unsigned int] priority: on a thread in [STATE_NEW] the priority is
    stored and [GetPriority] returns it; on a running or paused thread the
    priority goes to the operating system (converted to [int], and as a
    nice value computed in [int] on Linux) but is not stored, and on an
    exited thread nothing is done, so in both cases [GetPriority] still
    returns the priority the thread had. *)
Theorem SetPriority_read_back_only_before_start have_prio linux a prio w t :
  heap w !! a = Some t →
  0 <= prio < 2 ^ 32 →
  ∃ w1 w2,
    SetPriority have_prio linux a prio w =
      Done (match GetState (m_internal t) with
            | STATE_RUNNING | STATE_PAUSED =>
                if have_prio then
                  Some (if linux then Setpriority (linux_nice prio)
                        else PthreadSetschedparam (GetId (m_internal t))
                               (to_int prio))
                else None
            | _ => None
            end) w1 ∧
    GetPriority a w1 =
      Done (match GetState (m_internal t) with
            | STATE_NEW => prio
            | _ => to_unsigned (m_prio (m_internal t))
            end) w2 ∧
    gs_allThreads w2 = gs_allThreads w.
Proof.
  intros Hlook Hprio.
  assert (Hback : to_unsigned (to_int prio) = prio).
  { unfold to_unsigned, to_int.
    rewrite Zminus_mod_idemp_l.
    replace (prio + 2 ^ 31 - 2 ^ 31) with prio by lia.
    apply Z.mod_small. lia. }
  unfold SetPriority, GetPriority. unfold_world.
  cbn -[to_int to_unsigned linux_nice]. rewrite Hlook. unfold GetState.
  destruct (m_state (m_internal t)); cbn -[to_int to_unsigned linux_nice];
    rewrite ?Hlook; run_world;
    (eexists _, _; split; [reflexivity|]; split;
     [run_world; rewrite ?Hlook; run_world; rewrite ?Hback; reflexivity
     |reflexivity]).
Qed.

Lemma SetPriority_read_back_only_before_start_witness :
  ∃ t, heap joinable_finished !! 1 = Some t ∧
       m_prio (m_internal t) = 50 ∧
       ∃ w1 w2,
         SetPriority true true 1 90 joinable_finished = Done None w1 ∧
         GetPriority 1 w1 = Done 50 w2.
Proof.
  assert (H : ∃ t, heap joinable_finished !! 1 = Some t ∧
                   m_prio (m_internal t) = 50 ∧
                   GetState (m_internal t) = STATE_EXITED).
  { eexists. split; [vm_compute; reflexivity|]. split; reflexivity. }
  destruct H as (t & Hl & Hp & Hs).
  exists t. split; [exact Hl|]. split; [exact Hp|].
  destruct (SetPriority_read_back_only_before_start true true 1 90
              joinable_finished t Hl ltac:(lia)) as (w1 & w2 & E1 & E2 & _).
  rewrite Hs in E1, E2. rewrite Hp in E2.
  exists w1, w2. split; [exact E1|exact E2].
Defined.

(** X14: [Delete()] on a thread that has exited joins nothing.  Whatever
    the kind of the thread, and though an exit code was asked for, the call
    sets the cancel flag, calls [OnDelete()], returns [wxTHREAD_NO_ERROR] and
    stores no exit code; [pthread_join] is not called, so a joinable thread
    that was never waited for is still to be joined. *)
Theorem Delete_exited_thread_joins_nothing a self want_rc isMain join w t :
  heap w !! a = Some t →
  GetState (m_internal t) = STATE_EXITED →
  Delete a self want_rc isMain join w =
    Done (wxTHREAD_NO_ERROR, None)
      (mkWorld
         (<[a:=mkThread (SetCancelFlag (m_internal t)) (m_isDetached t)]>
            (heap w))
         (gs_allThreads w) (gs_nThreadsBeingDeleted w)
         (trace w ++ [EvEnterCritsect a; EvLeaveCritsect a; EvOnDelete a])) ∧
  m_shouldBeJoined (SetCancelFlag (m_internal t))
    = m_shouldBeJoined (m_internal t).
Proof.
  intros Hlook Hst. split; [|reflexivity].
  unfold Delete. unfold_world. cbn. rewrite Hlook. cbn. rewrite Hlook.
  unfold GetState in *. rewrite Hst. run_world.
  rewrite app_nil_r, <- !app_assoc. reflexivity.
Qed.

Lemma Delete_exited_thread_joins_nothing_witness :
  ∃ t w', heap joinable_finished !! 1 = Some t ∧
          GetState (m_internal t) = STATE_EXITED ∧
          Delete 1 main_thread true true (0, 42) joinable_finished =
            Done (wxTHREAD_NO_ERROR, None) w'.
Proof.
  assert (H : ∃ t, heap joinable_finished !! 1 = Some t ∧
                   GetState (m_internal t) = STATE_EXITED).
  { eexists. split; [vm_compute; reflexivity|]. reflexivity. }
  destruct H as (t & Hl & Hs).
  destruct (Delete_exited_thread_joins_nothing 1 main_thread true true (0, 42)
              joinable_finished t Hl Hs) as [E _].
  eexists t, _. split; [exact Hl|]. split; [exact Hs|exact E].
Defined.

(** X15: the exit protocol.  [Exit(status)] ends the OS thread with
    [status].  For a detached thread it destroys the thread object, takes
    it out of the registry, leaves the count of pending deletions as it
    found it, and signals the all-deleted condition exactly when no other
    deletion is pending; [OnExit()] runs before the object is destroyed.
    For a joinable thread it only sets the state to [STATE_EXITED]. *)
Theorem Exit_protocol a status w t :
  heap w !! a = Some t →
  0 <= gs_nThreadsBeingDeleted w < SIZE_MAX →
  Exit a status w =
    Done status
      (if m_isDetached t then
         mkWorld (delete a (heap w)) (array_Remove a (gs_allThreads w))
           (gs_nThreadsBeingDeleted w)
           (trace w
              ++ [EvOnExit a; EvEnterCritsect a; EvLeaveCritsect a;
                  EvDestroy a]
              ++ (if bool_decide (gs_nThreadsBeingDeleted w = 0)
                  then [EvSignalAllDeleted] else [])
              ++ [EvPthreadSetspecific 0; EvPthreadExit status])
       else
         mkWorld
           (<[a:=mkThread (SetState STATE_EXITED (m_internal t)) false]>
              (heap w))
           (gs_allThreads w) (gs_nThreadsBeingDeleted w)
           (trace w
              ++ [EvOnExit a; EvEnterCritsect a; EvLeaveCritsect a;
                  EvPthreadExit status])).
Proof.
  intros Hlook Hn.
  unfold Exit, ScheduleThreadForDeletion, DeleteThread, dtor. unfold_world.
  cbn. rewrite Hlook. destruct (m_isDetached t) eqn:Hdet; cbn.
  - rewrite Hlook. cbn.
    rewrite (to_size_t_small (gs_nThreadsBeingDeleted w + 1)) by lia.
    replace (gs_nThreadsBeingDeleted w + 1 - 1)
      with (gs_nThreadsBeingDeleted w) by lia.
    rewrite to_size_t_small by lia.
    destruct (bool_decide (gs_nThreadsBeingDeleted w = 0)); cbn;
      rewrite <- !app_assoc; reflexivity.
  - rewrite Hlook. cbn. rewrite Hdet, app_nil_r, <- !app_assoc. reflexivity.
Qed.

Lemma Exit_protocol_witness :
  ∃ t w', heap detached_created !! 1 = Some t ∧
          m_isDetached t = true ∧
          Exit 1 42 detached_created = Done 42 w' ∧
          heap w' !! 1 = None ∧ gs_allThreads w' = [] ∧
          gs_nThreadsBeingDeleted w' = 0.
Proof.
  assert (H : ∃ t, heap detached_created !! 1 = Some t ∧ m_isDetached t = true).
  { eexists. split; [vm_compute; reflexivity|]. reflexivity. }
  destruct H as (t & Hl & Hd).
  assert (Hn : 0 <= gs_nThreadsBeingDeleted detached_created < SIZE_MAX)
    by (change (gs_nThreadsBeingDeleted detached_created) with 0;
        unfold SIZE_MAX; lia).
  pose proof (Exit_protocol 1 42 detached_created t Hl Hn) as E.
  rewrite Hd in E.
  eexists t, _. split; [exact Hl|]. split; [exact Hd|]. split; [exact E|].
  cbn [heap gs_allThreads gs_nThreadsBeingDeleted].
  split; [apply lookup_delete_eq|]. split; reflexivity.
Defined.

Lemma world_joins_app evs1 evs2 :
  world_joins (evs1 ++ evs2) = (world_joins evs1 + world_joins evs2)%nat.
Proof. unfold world_joins. rewrite List.filter_app, length_app. reflexivity. Qed.

Lemma world_joins_semRun a evs :
  world_joins (map (EvInternal a) (map EvSemRun evs)) = 0%nat.
Proof. induction evs as [|e evs IH]; [reflexivity|exact IH]. Qed.

Lemma world_joins_semSuspend a evs :
  world_joins (map (EvInternal a) (map EvSemSuspend evs)) = 0%nat.
Proof. induction evs as [|e evs IH]; [reflexivity|exact IH]. Qed.

(** X16: a detached thread is never joined.  [Delete()] on a detached
    thread, whatever its state, returns without a [pthread_join] call and
    stores no exit code; and once a detached thread has been through
    [Create()], no sequence of [Wait()] calls makes a [pthread_join] call
    either. *)
Theorem detached_thread_is_never_joined
    a self want_rc isMain join w t r w' semRun semSuspend rc tid calls :
  heap w !! a = Some t →
  m_isDetached t = true →
  Delete a self want_rc isMain join w = Done r w' →
  r.2 = None ∧
  (∃ evs, trace w' = trace w ++ evs ∧ world_joins evs = 0%nat) ∧
  joins (concat (map snd
    (Wait_seq calls
       (ThreadInternal.Create true rc tid
          (ThreadInternal.ctor semRun semSuspend)).1.2).1)) = 0%nat.
Proof.
  intros Hlook Hdet HD. split; [|split].
  - revert HD. unfold Delete. unfold_world. cbn. rewrite Hlook. cbn.
    rewrite Hlook. cbn. rewrite Hdet. unfold GetState.
    destruct (m_state (m_internal t)); run_world.
    + unfold SignalRun. destruct (Post self _) as [[[x|] s'] evs]; cbn;
        intros H; inversion H; reflexivity.
    + intros H; inversion H; reflexivity.
    + unfold ThreadInternal.Resume.
      destruct (IsReallyPaused _); [|cbn; intros H; inversion H; reflexivity].
      destruct (Post self _) as [[[x|] s'] evs]; cbn;
        intros H; inversion H; reflexivity.
    + intros H; inversion H; reflexivity.
  - revert HD. unfold Delete. unfold_world. cbn. rewrite Hlook. cbn.
    rewrite Hlook. cbn. rewrite Hdet. unfold GetState.
    destruct (m_state (m_internal t)); run_world.
    + unfold SignalRun. destruct (Post self _) as [[[x|] s'] evs]; cbn;
        intros H; inversion H; subst; new_events.
      rewrite !world_joins_app, world_joins_semRun. reflexivity.
    + intros H; inversion H; subst; new_events. reflexivity.
    + unfold ThreadInternal.Resume. destruct (IsReallyPaused _).
      * destruct (Post self _) as [[[x|] s'] evs]; cbn;
          intros H; inversion H; subst; new_events.
        rewrite !world_joins_app, world_joins_semSuspend. reflexivity.
      * cbn. intros H; inversion H; subst; new_events. reflexivity.
    + intros H; inversion H; subst; new_events. reflexivity.
  - assert (Hj : m_shouldBeJoined
                   (ThreadInternal.Create true rc tid
                      (ThreadInternal.ctor semRun semSuspend)).1.2 = false).
    { unfold ThreadInternal.Create. cbn.
      destruct (bool_decide (rc = 0)); reflexivity. }
    destruct (Wait_seq_joined calls _ Hj) as [_ HF].
    induction HF as [|x l [Hx _] _ IH]; [reflexivity|].
    cbn [map concat]. unfold joins in *.
    rewrite List.filter_app, length_app, Hx, IH. reflexivity.
Qed.

Lemma detached_thread_is_never_joined_witness :
  ∃ t r w', heap detached_created !! 1 = Some t ∧ m_isDetached t = true ∧
            Delete 1 main_thread true true (0, 0) detached_created = Done r w' ∧
            r.2 = None.
Proof.
  assert (H : ∃ t, heap detached_created !! 1 = Some t ∧ m_isDetached t = true).
  { eexists. split; [vm_compute; reflexivity|]. reflexivity. }
  destruct H as (t & Hl & Hd).
  assert (HD : ∃ r w', Delete 1 main_thread true true (0, 0) detached_created
                         = Done r w').
  { eexists _, _. vm_compute. reflexivity. }
  destruct HD as (r & w' & HD).
  exists t, r, w'. split; [exact Hl|]. split; [exact Hd|]. split; [exact HD|].
  destruct (detached_thread_is_never_joined 1 main_thread true true (0, 0)
              detached_created t r w' gate gate 0 worker [] Hl Hd HD)
    as [E _].
  exact E.
Defined.

(** X17: a failed creation is final.  When [pthread_create] fails, [Run()]
    on a thread not yet created returns [wxTHREAD_NO_RESOURCE], leaves the
    thread in [STATE_EXITED] and does not post the start gate; from then on
    every [Run()] and every [Create()], even one for which [pthread_create]
    would succeed, returns [wxTHREAD_RUNNING] and changes nothing in the
    thread. *)
Theorem failed_creation_is_final a self rc tid w t :
  heap w !! a = Some t →
  GetState (m_internal t) = STATE_NEW →
  WasCreated (m_internal t) = false →
  rc ≠ 0 →
  ∃ w1 t1,
    Run a self rc tid w = Done wxTHREAD_NO_RESOURCE w1 ∧
    heap w1 !! a = Some t1 ∧
    GetState (m_internal t1) = STATE_EXITED ∧
    WasCreated (m_internal t1) = false ∧
    m_semRun (m_internal t1) = m_semRun (m_internal t) ∧
    ∀ self' rc' tid',
      ∃ w2 w3,
        Run a self' rc' tid' w1 = Done wxTHREAD_RUNNING w2 ∧
        heap w2 !! a = Some t1 ∧
        Thread.Create a rc' tid' w1 = Done wxTHREAD_RUNNING w3 ∧
        heap w3 !! a = Some t1.
Proof.
  intros Hlook Hst Hcr Hrc.
  unfold Run, Thread.Create. unfold_world. cbn. rewrite Hlook.
  unfold WasCreated, GetState in *. rewrite Hcr. cbn. rewrite Hlook.
  unfold ThreadInternal.Create. unfold GetState. rewrite Hst.
  rewrite bool_decide_eq_true_2 by reflexivity.
  rewrite !(bool_decide_eq_false_2 (rc = 0)) by exact Hrc. cbn.
  rewrite bool_decide_eq_false_2 by discriminate. cbn.
  assert (Hcr' : m_created (if Thread.m_isDetached t
                            then Detach (m_internal t) else m_internal t)
                 = false)
    by (destruct (Thread.m_isDetached t); exact Hcr).
  eexists _, _. split; [reflexivity|]. cbn [heap].
  split; [apply lookup_insert_eq|]. cbn.
  split; [reflexivity|].
  split; [exact Hcr'|].
  split; [destruct (Thread.m_isDetached t); reflexivity|].
  intros self' rc' tid'. rewrite !lookup_insert_eq. cbn.
  rewrite Hcr'. cbn.
  rewrite !lookup_insert_eq. cbn.
  rewrite bool_decide_eq_false_2 by discriminate. cbn.
  rewrite bool_decide_eq_false_2 by discriminate. cbn.
  eexists _, _. split; [reflexivity|]. cbn [heap].
  split; [apply lookup_insert_eq|]. split; [reflexivity|].
  apply lookup_insert_eq.
Qed.

Lemma failed_creation_is_final_witness :
  ∃ t w1, heap (after (ctor false 1 gate gate) empty_world) !! 1 = Some t ∧
          Run 1 main_thread 11 worker (after (ctor false 1 gate gate) empty_world)
            = Done wxTHREAD_NO_RESOURCE w1 ∧
          ∃ w2, Run 1 main_thread 0 worker w1 = Done wxTHREAD_RUNNING w2.
Proof.
  assert (H : ∃ t, heap (after (ctor false 1 gate gate) empty_world) !! 1
                     = Some t ∧
                   GetState (m_internal t) = STATE_NEW ∧
                   WasCreated (m_internal t) = false).
  { eexists. split; [vm_compute; reflexivity|]. split; reflexivity. }
  destruct H as (t & Hl & Hs & Hc).
  destruct (failed_creation_is_final 1 main_thread 11 worker _ t Hl Hs Hc
              ltac:(lia)) as (w1 & t1 & E & _ & _ & _ & _ & HR).
  destruct (HR main_thread 0 worker) as (w2 & w3 & E2 & _).
  exists t, w1. split; [exact Hl|]. split; [exact E|]. exists w2. exact E2.
Defined.

(** X18: pausing and resuming before any check-point.  On a running thread
    that is not blocked on its pause gate, [Pause()] then [Resume()] both
    return [wxTHREAD_NO_ERROR] and leave the thread exactly as it was,
    without a post on the pause gate; in between [IsPaused()] and
    [IsAlive()] return true and [IsRunning()] false, and a second [Pause()]
    there returns [wxTHREAD_NOT_RUNNING]. *)
Theorem Pause_Resume_round_trip a self w t :
  heap w !! a = Some t →
  GetState (m_internal t) = STATE_RUNNING →
  IsReallyPaused (m_internal t) = false →
  ∃ w1 w2 w3,
    Pause a w = Done wxTHREAD_NO_ERROR w1 ∧
    IsPaused a w1 = Done true w3 ∧
    IsRunning a w1 = Done false w3 ∧
    IsAlive a w1 = Done true w3 ∧
    (∃ w4, Pause a w1 = Done wxTHREAD_NOT_RUNNING w4) ∧
    Thread.Resume a self w1 = Done wxTHREAD_NO_ERROR w2 ∧
    heap w2 !! a = Some t ∧
    trace w2 =
      trace w ++ [EvEnterCritsect a; EvLeaveCritsect a;
                  EvEnterCritsect a; EvLeaveCritsect a].
Proof.
  intros Hlook Hst Hp.
  unfold Pause, Thread.Resume, IsPaused, IsRunning, IsAlive. unfold_world.
  cbn. rewrite Hlook.
  unfold GetState, IsReallyPaused in *. rewrite Hst. run_world. rewrite Hlook.
  run_world.
  eexists _, _, _. split; [reflexivity|]. cbn [heap].
  rewrite !lookup_insert_eq. run_world.
  split; [reflexivity|]. split; [reflexivity|]. split; [reflexivity|].
  split; [eexists; reflexivity|].
  unfold ThreadInternal.Resume, IsReallyPaused. cbn. rewrite Hp. cbn.
  split; [reflexivity|]. cbn [heap trace].
  split.
  - rewrite lookup_insert_eq. destruct t as [[] det]. cbn in *. subst.
    reflexivity.
  - rewrite !app_nil_r, <- !app_assoc. reflexivity.
Qed.

Lemma Pause_Resume_round_trip_witness :
  ∃ t w1 w2,
    heap (after (ctor false 1 gate gate;; Run 1 main_thread 0 worker)
            empty_world) !! 1 = Some t ∧
    Pause 1 (after (ctor false 1 gate gate;; Run 1 main_thread 0 worker)
               empty_world) = Done wxTHREAD_NO_ERROR w1 ∧
    Thread.Resume 1 main_thread w1 = Done wxTHREAD_NO_ERROR w2 ∧
    heap w2 !! 1 = Some t.
Proof.
  assert (H : ∃ t, heap (after (ctor false 1 gate gate;;
                                Run 1 main_thread 0 worker) empty_world) !! 1
                     = Some t ∧
                   GetState (m_internal t) = STATE_RUNNING ∧
                   IsReallyPaused (m_internal t) = false).
  { eexists. split; [vm_compute; reflexivity|]. split; reflexivity. }
  destruct H as (t & Hl & Hs & Hp).
  destruct (Pause_Resume_round_trip 1 main_thread _ t Hl Hs Hp)
    as (w1 & w2 & w3 & E1 & _ & _ & _ & _ & E2 & E3 & _).
  exists t, w1, w2. repeat split; assumption.
Defined.

(** *** Killing a thread *)

(** [Resume()] on a live thread leaves the object alive, with its
    identifier and its kind. *)
Lemma Resume_keeps_thread a self w t r w' :
  heap w !! a = Some t →
  Thread.Resume a self w = Done r w' →
  ∃ t', heap w' !! a = Some t' ∧
        GetId (m_internal t') = GetId (m_internal t) ∧
        m_isDetached t' = m_isDetached t ∧
        gs_allThreads w' = gs_allThreads w ∧
        gs_nThreadsBeingDeleted w' = gs_nThreadsBeingDeleted w ∧
        (GetState (m_internal t) = STATE_PAUSED →
         GetState (m_internal t') = STATE_RUNNING ∧
         GetExitCode (m_internal t') = GetExitCode (m_internal t)).
Proof.
  intros Hlook. unfold Thread.Resume. unfold_world. cbn. rewrite Hlook.
  unfold GetState. destruct (m_state (m_internal t)) eqn:Hst; cbn.
  all: try (intros H; inversion H; subst; cbn; exists t;
            repeat split; try assumption; discriminate).
  rewrite Hlook. unfold ThreadInternal.Resume, IsReallyPaused.
  destruct (ThreadInternal.m_isPaused (m_internal t)); cbn.
  - destruct (Post self _) as [[[v|] s] evs]; cbn; [|discriminate].
    intros H; inversion H; subst; cbn. eexists. rewrite lookup_insert_eq.
    split; [reflexivity|]. repeat split.
  - intros H; inversion H; subst; cbn. eexists. rewrite lookup_insert_eq.
    split; [reflexivity|]. repeat split.
Qed.

(** The cancellation step of [Kill()] on a live thread. *)
Lemma Kill_cancel_runs have_cancel have_cleanup a cancel_rc w t :
  heap w !! a = Some t →
  Kill_cancel have_cancel have_cleanup a cancel_rc w =
    Done
      (if have_cancel && bool_decide (cancel_rc = 0)
       then wxTHREAD_NO_ERROR else wxTHREAD_MISC_ERROR,
       if have_cancel
       then [KillOnKill; KillPthreadCancel (GetId (m_internal t))]
       else [KillOnKill])
      (if have_cancel && bool_decide (cancel_rc = 0) then
         if m_isDetached t then
           if have_cleanup then w
           else
             let n := to_size_t (to_size_t (gs_nThreadsBeingDeleted w + 1) - 1) in
             mkWorld (delete a (heap w)) (array_Remove a (gs_allThreads w)) n
               (trace w
                  ++ [EvEnterCritsect a; EvLeaveCritsect a; EvDestroy a]
                  ++ (if bool_decide (n = 0)
                      then [EvSignalAllDeleted] else []))
         else
           mkWorld
             (<[a:=mkThread (SetExitCode EXITCODE_CANCELLED (m_internal t))
                     false]> (heap w))
             (gs_allThreads w) (gs_nThreadsBeingDeleted w) (trace w)
       else w).
Proof.
  intros Hlook. unfold Kill_cancel.
  destruct have_cancel; cbn; [|reflexivity].
  unfold_world. cbn. rewrite Hlook.
  destruct (bool_decide (cancel_rc = 0)); cbn; [|reflexivity].
  destruct (m_isDetached t) eqn:Hdet; cbn.
  - destruct have_cleanup; cbn.
    + destruct w; reflexivity.
    + unfold ScheduleThreadForDeletion, DeleteThread, dtor. unfold_world.
      cbn. rewrite Hlook. cbn.
      destruct (bool_decide (to_size_t _ = 0)); cbn;
        rewrite <- ?app_assoc, ?app_nil_r; reflexivity.
  - rewrite Hlook. cbn. rewrite Hdet, app_nil_r. reflexivity.
Qed.

(** Its result does not depend on the count of pending deletions. *)
Lemma Kill_cancel_result have_cancel have_cleanup a cancel_rc w t :
  heap w !! a = Some t →
  ∃ w',
    Kill_cancel have_cancel have_cleanup a cancel_rc w =
      Done
        (if have_cancel && bool_decide (cancel_rc = 0)
         then wxTHREAD_NO_ERROR else wxTHREAD_MISC_ERROR,
         if have_cancel
         then [KillOnKill; KillPthreadCancel (GetId (m_internal t))]
         else [KillOnKill]) w'.
Proof.
  intros Hlook. unfold Kill_cancel.
  destruct have_cancel; cbn; [|eexists; reflexivity].
  unfold_world. cbn. rewrite Hlook.
  destruct (bool_decide (cancel_rc = 0)); cbn; [|eexists; reflexivity].
  destruct (m_isDetached t) eqn:Hdet; cbn.
  - destruct have_cleanup; cbn; [eexists; reflexivity|].
    unfold ScheduleThreadForDeletion, DeleteThread, dtor. unfold_world.
    cbn. rewrite Hlook. cbn.
    destruct (bool_decide _); eexists; reflexivity.
  - rewrite Hlook. cbn. eexists; reflexivity.
Qed.

(** X19: what [Kill()] returns.  [OnKill()] is called first, whatever the
    state.  On a thread that is new or has exited, [Kill()] returns
    [wxTHREAD_NOT_RUNNING] and changes nothing.  On a running or paused
    thread it calls [pthread_cancel] on the thread's identifier where the
    build has it, and returns [wxTHREAD_NO_ERROR] exactly when that call
    succeeded, [wxTHREAD_MISC_ERROR] otherwise; without
    HAVE_PTHREAD_CANCEL it can only fail. *)
Theorem Kill_result have_cancel have_cleanup a self cancel_rc w t r acts w' :
  heap w !! a = Some t →
  Kill have_cancel have_cleanup a self cancel_rc w = Done (r, acts) w' →
  head acts = Some KillOnKill ∧
  (killable t = false →
   r = wxTHREAD_NOT_RUNNING ∧ acts = [KillOnKill] ∧ w' = w) ∧
  (killable t = true →
   acts = (if have_cancel
           then [KillOnKill; KillPthreadCancel (GetId (m_internal t))]
           else [KillOnKill]) ∧
   r = (if have_cancel && bool_decide (cancel_rc = 0)
        then wxTHREAD_NO_ERROR else wxTHREAD_MISC_ERROR)).
Proof.
  intros Hlook. unfold Kill, killable.
  unfold mbind at 1. unfold M_bind at 1. unfold get_thread at 1.
  rewrite Hlook. unfold GetState.
  destruct (m_state (m_internal t)) eqn:Hst.
  1, 4: intros H; inversion H; subst; split; [reflexivity|];
        split; [intros _; repeat split|discriminate].
  - rewrite bool_decide_eq_false_2 by discriminate.
    unfold mbind, M_bind. cbn.
    destruct (Kill_cancel_result have_cancel have_cleanup a cancel_rc w t Hlook)
      as (w1 & ->).
    intros H; inversion H; subst. split; [destruct have_cancel; reflexivity|].
    split; [discriminate|]. intros _. split; reflexivity.
  - rewrite bool_decide_eq_true_2 by reflexivity.
    unfold mbind, M_bind.
    destruct (Thread.Resume a self w) as [v w1| |] eqn:HR; try discriminate.
    destruct (Resume_keeps_thread a self w t v w1 Hlook HR)
      as (t1 & Hlook1 & Hid & _).
    cbn.
    destruct (Kill_cancel_result have_cancel have_cleanup a cancel_rc w1 t1
                Hlook1) as (w2 & ->).
    intros H; inversion H; subst. rewrite Hid.
    split; [destruct have_cancel; reflexivity|].
    split; [discriminate|]. intros _. split; reflexivity.
Qed.

Lemma Kill_result_witness :
  ∃ t w',
    heap (after (ctor false 1 gate gate;; Run 1 main_thread 0 worker)
            empty_world) !! 1 = Some t ∧
    Kill true false 1 main_thread 3
      (after (ctor false 1 gate gate;; Run 1 main_thread 0 worker) empty_world)
      = Done (wxTHREAD_MISC_ERROR, [KillOnKill; KillPthreadCancel worker]) w'.
Proof.
  assert (H : ∃ t, heap (after (ctor false 1 gate gate;;
                                Run 1 main_thread 0 worker) empty_world) !! 1
                     = Some t ∧ killable t = true ∧
                   GetId (m_internal t) = worker).
  { eexists. split; [vm_compute; reflexivity|]. split; reflexivity. }
  destruct H as (t & Hl & Hk & Hid).
  assert (HK : ∃ r acts w',
             Kill true false 1 main_thread 3
               (after (ctor false 1 gate gate;; Run 1 main_thread 0 worker)
                  empty_world) = Done (r, acts) w').
  { eexists _, _, _. vm_compute. reflexivity. }
  destruct HK as (r & acts & w' & HK).
  destruct (Kill_result true false 1 main_thread 3 _ t r acts w' Hl HK)
    as (_ & _ & Hres).
  destruct (Hres Hk) as (Hacts & Hr).
  exists t, w'. split; [exact Hl|]. rewrite HK, Hacts, Hr, Hid. reflexivity.
Defined.

Lemma lifecycle_app evs1 evs2 :
  lifecycle (evs1 ++ evs2) = lifecycle evs1 ++ lifecycle evs2.
Proof. apply List.filter_app. Qed.

Lemma lifecycle_internal a evs : lifecycle (map (EvInternal a) evs) = [].
Proof. induction evs as [|e evs IH]; [reflexivity|exact IH]. Qed.

(** [Resume()] ends no life. *)
Lemma Resume_lifecycle a self w r w' :
  Thread.Resume a self w = Done r w' →
  ∃ evs, trace w' = trace w ++ evs ∧ lifecycle evs = [].
Proof.
  unfold Thread.Resume. unfold_world. cbn.
  destruct (heap w !! a) as [t|] eqn:Hlook; [|discriminate].
  unfold GetState. destruct (m_state (m_internal t)) eqn:Hst; cbn.
  all: try (intros H; inversion H; subst; cbn; rewrite <- app_assoc;
            eexists; split; reflexivity).
  rewrite Hlook.
  destruct (ThreadInternal.Resume self (m_internal t)) as [[[v|] ti] evs];
    cbn; [|discriminate].
  intros H; inversion H; subst; cbn. rewrite <- !app_assoc.
  eexists; split; [reflexivity|].
  rewrite !lifecycle_app, lifecycle_internal. reflexivity.
Qed.

(** [Kill()] on a running or paused thread: the thread is resumed if it
    was paused, then cancelled. *)
Lemma Kill_killable have_cancel have_cleanup a self cancel_rc w t :
  heap w !! a = Some t →
  killable t = true →
  Kill have_cancel have_cleanup a self cancel_rc w =
    ((if bool_decide (GetState (m_internal t) = STATE_PAUSED)
      then Thread.Resume a self;; mret tt else mret tt);;
     Kill_cancel have_cancel have_cleanup a cancel_rc) w.
Proof.
  intros Hlook Hk. unfold Kill, killable in *.
  unfold mbind at 1. unfold M_bind at 1. unfold get_thread at 1.
  rewrite Hlook. destruct (GetState (m_internal t)); try discriminate;
    reflexivity.
Qed.

Lemma Kill_resume_step a self w t v w1 :
  heap w !! a = Some t →
  killable t = true →
  (if bool_decide (GetState (m_internal t) = STATE_PAUSED)
   then Thread.Resume a self;; mret tt else mret tt) w = Done v w1 →
  ∃ t1 evs,
    heap w1 !! a = Some t1 ∧
    GetId (m_internal t1) = GetId (m_internal t) ∧
    m_isDetached t1 = m_isDetached t ∧
    gs_allThreads w1 = gs_allThreads w ∧
    gs_nThreadsBeingDeleted w1 = gs_nThreadsBeingDeleted w ∧
    GetState (m_internal t1) = STATE_RUNNING ∧
    GetExitCode (m_internal t1) = GetExitCode (m_internal t) ∧
    trace w1 = trace w ++ evs ∧ lifecycle evs = [].
Proof.
  intros Hlook Hk. unfold killable in Hk.
  destruct (GetState (m_internal t)) eqn:Hst; try discriminate.
  - rewrite bool_decide_eq_false_2 by discriminate.
    intros H; inversion H; subst. exists t, [].
    rewrite app_nil_r. repeat split; assumption.
  - rewrite bool_decide_eq_true_2 by reflexivity.
    unfold mbind, M_bind.
    destruct (Thread.Resume a self w) as [r w2| |] eqn:HR; try discriminate.
    intros H; inversion H; subst.
    destruct (Resume_keeps_thread a self w t r w1 Hlook HR)
      as (t1 & H1 & H2 & H3 & H4 & H5 & H6).
    destruct (H6 Hst) as [H7 H8].
    destruct (Resume_lifecycle a self w r w1 HR) as (evs & H9 & H10).
    exists t1, evs. repeat split; assumption.
Qed.

(** X20: killing a joinable thread, in a build without the cleanup
    handler.  [Kill()] on a running or paused joinable thread never
    destroys the object nor takes it out of the registry.  When
    [pthread_cancel] succeeds the exit code becomes [EXITCODE_CANCELLED],
    otherwise it stays; a paused thread has been resumed in both cases.
    [Kill()] does not set [STATE_EXITED]: the killed thread is left in
    [STATE_RUNNING], and [IsAlive()] called next returns true. *)
Theorem Kill_joinable_thread have_cancel a self cancel_rc w t r acts w' :
  heap w !! a = Some t →
  m_isDetached t = false →
  killable t = true →
  Kill have_cancel false a self cancel_rc w = Done (r, acts) w' →
  ∃ t' w'',
    heap w' !! a = Some t' ∧
    gs_allThreads w' = gs_allThreads w ∧
    GetExitCode (m_internal t') =
      (if have_cancel && bool_decide (cancel_rc = 0) then EXITCODE_CANCELLED
       else GetExitCode (m_internal t)) ∧
    GetState (m_internal t') = STATE_RUNNING ∧
    IsAlive a w' = Done true w''.
Proof.
  intros Hlook Hdet Hk.
  rewrite (Kill_killable _ _ _ _ _ _ t Hlook Hk).
  unfold mbind at 1. unfold M_bind at 1.
  match goal with |- context [match ?m w with _ => _ end] =>
    destruct (m w) as [v w1| |] eqn:Hstep; try discriminate end.
  destruct (Kill_resume_step a self w t v w1 Hlook Hk Hstep)
    as (t1 & evs & Hlook1 & Hid & Hdet1 & Hreg & Hn & Hst & Hcode & _).
  rewrite Hdet in Hdet1.
  rewrite (Kill_cancel_runs have_cancel false a cancel_rc w1 t1 Hlook1).
  rewrite Hdet1.
  destruct (have_cancel && bool_decide (cancel_rc = 0)) eqn:Hok;
    intros H; inversion H; subst; unfold IsAlive; unfold_world; cbn.
  - rewrite !lookup_insert_eq. cbn. unfold GetState in *. rewrite Hst.
    eexists _, _. split; [reflexivity|]. split; [exact Hreg|].
    split; [reflexivity|]. split; [exact Hst|reflexivity].
  - rewrite Hlook1. cbn. unfold GetState in *. rewrite Hst.
    eexists _, _. split; [reflexivity|]. split; [exact Hreg|].
    split; [exact Hcode|]. split; [exact Hst|reflexivity].
Qed.

Lemma Kill_joinable_thread_witness :
  ∃ t t' w' w'',
    heap (after (ctor false 1 gate gate;; Run 1 main_thread 0 worker)
            empty_world) !! 1 = Some t ∧
    Kill true false 1 main_thread 0
      (after (ctor false 1 gate gate;; Run 1 main_thread 0 worker) empty_world)
      = Done (wxTHREAD_NO_ERROR, [KillOnKill; KillPthreadCancel worker]) w' ∧
    heap w' !! 1 = Some t' ∧
    GetExitCode (m_internal t') = EXITCODE_CANCELLED ∧
    IsAlive 1 w' = Done true w''.
Proof.
  assert (H : ∃ t, heap (after (ctor false 1 gate gate;;
                                Run 1 main_thread 0 worker) empty_world) !! 1
                     = Some t ∧ m_isDetached t = false ∧ killable t = true).
  { eexists. split; [vm_compute; reflexivity|]. split; reflexivity. }
  destruct H as (t & Hl & Hd & Hk).
  assert (HK : ∃ w',
             Kill true false 1 main_thread 0
               (after (ctor false 1 gate gate;; Run 1 main_thread 0 worker)
                  empty_world)
             = Done (wxTHREAD_NO_ERROR, [KillOnKill; KillPthreadCancel worker])
                 w').
  { eexists. vm_compute. reflexivity. }
  destruct HK as (w' & HK).
  destruct (Kill_joinable_thread true 1 main_thread 0 _ t _ _ w' Hl Hd Hk HK)
    as (t' & w'' & H1 & _ & H3 & _ & H5).
  exists t, t', w', w''. repeat split; assumption.
Defined.

(** X21: killing a detached thread, in a build without the cleanup
    handler.  A successful [Kill()] of a running or paused detached thread
    destroys the thread object itself, once: afterwards the object is gone
    from the heap and from the registry, the count of pending deletions is
    what it was, the destructor ran once, and the all-deleted condition was
    signalled exactly when no other deletion was pending.  The user's
    [OnExit()] is not called. *)
Theorem Kill_detached_thread_destroys_once a self w t r acts w' :
  heap w !! a = Some t →
  m_isDetached t = true →
  killable t = true →
  0 <= gs_nThreadsBeingDeleted w < SIZE_MAX →
  Kill true false a self 0 w = Done (r, acts) w' →
  r = wxTHREAD_NO_ERROR ∧
  heap w' !! a = None ∧
  gs_allThreads w' = array_Remove a (gs_allThreads w) ∧
  gs_nThreadsBeingDeleted w' = gs_nThreadsBeingDeleted w ∧
  ∃ evs,
    trace w' = trace w ++ evs ∧
    lifecycle evs =
      EvDestroy a
        :: (if bool_decide (gs_nThreadsBeingDeleted w = 0)
            then [EvSignalAllDeleted] else []).
Proof.
  intros Hlook Hdet Hk Hn.
  rewrite (Kill_killable _ _ _ _ _ _ t Hlook Hk).
  unfold mbind at 1. unfold M_bind at 1.
  match goal with |- context [match ?m w with _ => _ end] =>
    destruct (m w) as [v w1| |] eqn:Hstep; try discriminate end.
  destruct (Kill_resume_step a self w t v w1 Hlook Hk Hstep)
    as (t1 & evs & Hlook1 & Hid & Hdet1 & Hreg & Hn1 & Hst & Hcode & Htr & Hlc).
  rewrite Hdet in Hdet1.
  rewrite (Kill_cancel_runs true false a 0 w1 t1 Hlook1).
  rewrite Hdet1. cbn [andb fst].
  rewrite !bool_decide_eq_true_2 by reflexivity.
  assert (E1 : to_size_t (gs_nThreadsBeingDeleted w1 + 1)
               = gs_nThreadsBeingDeleted w + 1)
    by (rewrite Hn1; apply to_size_t_small; lia).
  assert (E2 : to_size_t (gs_nThreadsBeingDeleted w + 1 - 1)
               = gs_nThreadsBeingDeleted w)
    by (replace (gs_nThreadsBeingDeleted w + 1 - 1)
          with (gs_nThreadsBeingDeleted w) by lia;
        apply to_size_t_small; lia).
  cbn. rewrite E1, E2.
  destruct (bool_decide (gs_nThreadsBeingDeleted w = 0)); cbn;
    intros H; inversion H; subst; cbn;
    (split; [reflexivity|]); (split; [apply lookup_delete_eq|]);
    (split; [rewrite Hreg; reflexivity|]); (split; [reflexivity|]);
    rewrite Htr, <- !app_assoc; (eexists; split; [reflexivity|]);
    rewrite !lifecycle_app, Hlc; reflexivity.
Qed.

Lemma Kill_detached_thread_destroys_once_witness :
  ∃ t w',
    heap (after (ctor true 1 gate gate;; Run 1 main_thread 0 worker)
            empty_world) !! 1 = Some t ∧
    Kill true false 1 main_thread 0
      (after (ctor true 1 gate gate;; Run 1 main_thread 0 worker) empty_world)
      = Done (wxTHREAD_NO_ERROR, [KillOnKill; KillPthreadCancel worker]) w' ∧
    heap w' !! 1 = None ∧ gs_allThreads w' = [].
Proof.
  assert (H : ∃ t, heap (after (ctor true 1 gate gate;;
                                Run 1 main_thread 0 worker) empty_world) !! 1
                     = Some t ∧ m_isDetached t = true ∧ killable t = true).
  { eexists. split; [vm_compute; reflexivity|]. split; reflexivity. }
  destruct H as (t & Hl & Hd & Hk).
  assert (HK : ∃ w',
             Kill true false 1 main_thread 0
               (after (ctor true 1 gate gate;; Run 1 main_thread 0 worker)
                  empty_world)
             = Done (wxTHREAD_NO_ERROR, [KillOnKill; KillPthreadCancel worker])
                 w').
  { eexists. vm_compute. reflexivity. }
  destruct HK as (w' & HK).
  assert (Hn : 0 <= gs_nThreadsBeingDeleted
                      (after (ctor true 1 gate gate;;
                              Run 1 main_thread 0 worker) empty_world)
               < SIZE_MAX).
  { change (gs_nThreadsBeingDeleted
              (after (ctor true 1 gate gate;; Run 1 main_thread 0 worker)
                 empty_world)) with 0.
    unfold SIZE_MAX; lia. }
  destruct (Kill_detached_thread_destroys_once 1 main_thread _ t _ _ w'
              Hl Hd Hk Hn HK) as (_ & H1 & H2 & _).
  exists t, w'. split; [exact Hl|]. split; [exact HK|].
  split; [exact H1|]. rewrite H2. reflexivity.
Defined.

(** *** The registry of threads *)

Lemma preserves_bind {A B} P (m : M A) (f : A → M B) :
  preserves P m → (∀ v, preserves P (f v)) → preserves P (m ≫= f).
Proof.
  intros Hm Hf w v w' HP. unfold mbind, M_bind.
  destruct (m w) as [v1 w1| |] eqn:E; try discriminate.
  intros H. exact (Hf v1 w1 v w' (Hm w v1 w1 HP E) H).
Qed.

Lemma preserves_ret {A} P (v : A) : preserves P (mret v).
Proof. intros w v' w' HP H. inversion H; subst. exact HP. Qed.

Lemma preserves_get P : preserves P get.
Proof. intros w v' w' HP H. inversion H; subst. exact HP. Qed.

Lemma preserves_get_thread P a : preserves P (get_thread a).
Proof.
  intros w v' w' HP. unfold get_thread. destruct (heap w !! a); [|discriminate].
  intros H. inversion H; subst. exact HP.
Qed.

Lemma consistent_emit e : preserves consistent (emit e).
Proof. intros w v' w' HP H. inversion H; subst. exact HP. Qed.

Lemma consistent_set_nThreadsBeingDeleted n :
  preserves consistent (set_nThreadsBeingDeleted n).
Proof. intros w v' w' HP H. inversion H; subst. exact HP. Qed.

Lemma consistent_internal {A} a
    (f : wxThreadInternal → outcome A * wxThreadInternal * list ThreadInternal.event) :
  preserves consistent (internal a f).
Proof.
  intros w v' w' [Hnd Hreg]. unfold internal.
  destruct (heap w !! a) as [t|] eqn:Hlook; [|discriminate].
  destruct (f (m_internal t)) as [[[v|] ti] evs]; [|discriminate].
  intros H. inversion H; subst. split; [exact Hnd|]. cbn. intros b.
  rewrite Hreg. destruct (decide (b = a)) as [->|Hne].
  - rewrite lookup_insert_eq, Hlook. split; eauto.
  - rewrite lookup_insert_ne by congruence. reflexivity.
Qed.

Lemma array_Remove_elem a b l :
  NoDup l → b ∈ array_Remove a l ↔ b ∈ l ∧ b ≠ a.
Proof.
  induction 1 as [|x l Hx Hnd IH]; cbn.
  - split; [intros H; inversion H|intros [H _]; inversion H].
  - destruct (bool_decide_reflect (x = a)) as [->|Hne].
    + rewrite elem_of_cons. split.
      * intros H. split; [right; exact H|]. intros ->. contradiction.
      * intros [[->|H] Hb]; [contradiction|exact H].
    + rewrite !elem_of_cons, IH. split.
      * intros [->|[H Hb]]; [split; [left; reflexivity|exact Hne]|].
        split; [right; exact H|exact Hb].
      * intros [[->|H] Hb]; [left; reflexivity|right; split; assumption].
Qed.

Lemma array_Remove_NoDup a l : NoDup l → NoDup (array_Remove a l).
Proof.
  induction 1 as [|x l Hx Hnd IH]; cbn; [constructor|].
  destruct (bool_decide (x = a)); [exact Hnd|].
  constructor; [|exact IH].
  rewrite array_Remove_elem by exact Hnd. intros [H _]. contradiction.
Qed.

Lemma consistent_free_thread a : preserves consistent (free_thread a).
Proof.
  intros w v' w' [Hnd Hreg] H. inversion H; subst. split; cbn.
  - apply array_Remove_NoDup, Hnd.
  - intros b. rewrite array_Remove_elem by exact Hnd. rewrite Hreg.
    destruct (decide (b = a)) as [->|Hne].
    + rewrite lookup_delete_eq. split; [intros [_ Hb]; contradiction|].
      intros [x Hx]; discriminate.
    + rewrite lookup_delete_ne by congruence. split; [intros [Hb _]; exact Hb|].
      intros Hb; split; assumption.
Qed.

Lemma consistent_ctor detached a semRun semSuspend w w' :
  consistent w → heap w !! a = None →
  Thread.ctor detached a semRun semSuspend w = Done tt w' →
  consistent w'.
Proof.
  intros [Hnd Hreg] Hfresh H. inversion H; subst. split; cbn.
  - apply NoDup_app. split; [exact Hnd|]. split; [|apply NoDup_singleton].
    intros b Hb Hba. apply list_elem_of_singleton in Hba. subst b.
    apply Hreg in Hb. rewrite Hfresh in Hb. destruct Hb; discriminate.
  - intros b. rewrite elem_of_app, list_elem_of_singleton, Hreg.
    destruct (decide (b = a)) as [->|Hne].
    + rewrite lookup_insert_eq. split; eauto.
    + rewrite lookup_insert_ne by congruence. split; [|intros Hb; left; exact Hb].
      intros [Hb|Hb]; [exact Hb|contradiction].
Qed.

Ltac consistent_steps :=
  repeat first
    [ apply preserves_bind; [|intros ?]
    | apply preserves_ret
    | apply preserves_get
    | apply preserves_get_thread
    | apply consistent_emit
    | apply consistent_set_nThreadsBeingDeleted
    | apply consistent_internal
    | apply consistent_free_thread
    | match goal with |- preserves _ (match ?x with _ => _ end) =>
        destruct x end
    | match goal with |- preserves _ (if ?x then _ else _) =>
        destruct x end ].

Lemma consistent_dtor a : preserves consistent (dtor a).
Proof. unfold dtor. consistent_steps. Qed.

Lemma consistent_DeleteThread a : preserves consistent (DeleteThread a).
Proof.
  unfold DeleteThread.
  apply preserves_bind; [apply consistent_dtor|intros ?]. consistent_steps.
Qed.

Lemma consistent_Schedule : preserves consistent ScheduleThreadForDeletion.
Proof. unfold ScheduleThreadForDeletion. consistent_steps. Qed.

Lemma consistent_Exit a status : preserves consistent (Exit a status).
Proof.
  unfold Exit, modify_internal.
  repeat first
    [ apply consistent_Schedule | apply consistent_DeleteThread
    | progress consistent_steps ].
Qed.

Lemma consistent_Resume a self : preserves consistent (Thread.Resume a self).
Proof. unfold Thread.Resume. consistent_steps. Qed.

Lemma consistent_exec op w w' :
  consistent w → fresh op w → exec op w = Done tt w' → consistent w'.
Proof.
  intros Hc Hf. destruct op; cbn [exec fresh] in *.
  1: { apply consistent_ctor; assumption. }
  all: clear Hf; intros H;
    match type of H with ?m ?w0 = Done _ ?w1 =>
      assert (Hp : preserves consistent m); [|exact (Hp w0 tt w1 Hc H)] end.
  all: clear; unfold Thread.Create, Thread.Run, Thread.Pause, Thread.Wait,
         Delete, Kill, Kill_cancel, SetPriority, PthreadStart, modify_internal;
       repeat first
         [ apply consistent_dtor | apply consistent_Schedule
         | apply consistent_DeleteThread | apply consistent_Exit
         | apply consistent_Resume | progress consistent_steps ].
Qed.

(** X22: the registry stays consistent.  Whatever operations are run on
    whatever threads -- construction at an address no live object occupies,
    destruction, [Create], [Run], [Pause], [Resume], [Wait], [Delete],
    [Kill], [SetPriority], [Exit] and the entry function -- if the run
    completes, [gs_allThreads] still lists each live thread object exactly
    once and nothing else: no operation leaves a destroyed thread
    registered or a live one unregistered. *)
Theorem registry_stays_consistent ops w w' :
  consistent w →
  all_fresh ops w →
  exec_all ops w = Done tt w' →
  consistent w'.
Proof.
  revert w. induction ops as [|op ops IH]; intros w Hc Hf; cbn [exec_all].
  - intros H. inversion H; subst. exact Hc.
  - unfold mbind, M_bind. destruct (exec op w) as [[] w1| |] eqn:E;
      try discriminate.
    destruct Hf as [Hf1 Hf2]. intros H.
    exact (IH w1 (consistent_exec op w w1 Hc Hf1 E) (Hf2 w1 E) H).
Qed.

Lemma consistent_empty_world : consistent empty_world.
Proof.
  split; [constructor|]. intros a. cbn. rewrite lookup_empty. split.
  - intros H. inversion H.
  - intros [x Hx]. discriminate.
Qed.

Lemma registry_stays_consistent_witness :
  consistent empty_world ∧
  ∃ w', exec_all [OpCtor true 1 gate gate; OpRun 1 main_thread 0 worker;
                  OpPthreadStart 1 worker 0 [] 42] empty_world = Done tt w' ∧
        consistent w'.
Proof.
  split; [exact consistent_empty_world|].
  assert (E : ∃ w', exec_all [OpCtor true 1 gate gate;
                              OpRun 1 main_thread 0 worker;
                              OpPthreadStart 1 worker 0 [] 42] empty_world
                    = Done tt w').
  { eexists. vm_compute. reflexivity. }
  destruct E as (w' & E). exists w'. split; [exact E|].
  apply (registry_stays_consistent
           [OpCtor true 1 gate gate; OpRun 1 main_thread 0 worker;
            OpPthreadStart 1 worker 0 [] 42]
           empty_world w' consistent_empty_world); [|exact E].
  cbn [all_fresh fresh]. split; [reflexivity|]. intros w1 _.
  split; [exact I|]. intros w2 _. split; [exact I|]. intros w3 _. exact I.
Defined.

(** *** Shutdown *)

(** One [Delete()] of the shutdown loop on a thread that has exited: the
    thread stays as exited as it was, and registered. *)
Lemma Delete_exited_step a self isMain join w t :
  heap w !! a = Some t →
  GetState (m_internal t) = STATE_EXITED →
  ∃ w' t',
    Delete a self false isMain join w = Done (wxTHREAD_NO_ERROR, None) w' ∧
    heap w' !! a = Some t' ∧
    GetState (m_internal t') = STATE_EXITED ∧
    (∀ b, b ≠ a → heap w' !! b = heap w !! b) ∧
    gs_allThreads w' = gs_allThreads w ∧
    gs_nThreadsBeingDeleted w' = gs_nThreadsBeingDeleted w ∧
    trace w' = trace w ++ delete_events a 1.
Proof.
  intros Hlook Hst.
  unfold Delete. unfold_world. cbn. rewrite Hlook. cbn. rewrite Hlook.
  unfold GetState in *. rewrite Hst. run_world.
  eexists _, _. split; [reflexivity|]. cbn.
  split; [apply lookup_insert_eq|]. split; [exact Hst|].
  split; [intros b Hb; apply lookup_insert_ne; congruence|].
  split; [reflexivity|]. split; [reflexivity|].
  rewrite app_nil_r, <- !app_assoc. reflexivity.
Qed.

Lemma delete_events_S a n :
  delete_events a 1 ++ delete_events a n = delete_events a (S n).
Proof. reflexivity. Qed.

Lemma OnExit_loop_first_exited self isMain join k :
  ∀ n w a rest t,
    gs_allThreads w = a :: rest →
    heap w !! a = Some t →
    GetState (m_internal t) = STATE_EXITED →
    ∃ w' t',
      OnExit_loop self isMain (alone join) n k w = Done tt w' ∧
      heap w' !! a = Some t' ∧
      GetState (m_internal t') = STATE_EXITED ∧
      (∀ b, b ≠ a → heap w' !! b = heap w !! b) ∧
      gs_allThreads w' = gs_allThreads w ∧
      gs_nThreadsBeingDeleted w' = gs_nThreadsBeingDeleted w ∧
      trace w' = trace w ++ delete_events a k.
Proof.
  induction k as [|k IH]; intros n w a rest t Hreg Hlook Hst.
  - exists w, t. cbn. rewrite app_nil_r. repeat split; assumption.
  - cbn [OnExit_loop]. unfold mbind at 1. unfold M_bind at 1. unfold get at 1.
    rewrite Hreg.
    destruct (Delete_exited_step a self isMain join w t Hlook Hst)
      as (w1 & t1 & HD & Hlook1 & Hst1 & Hoth1 & Hreg1 & Hn1 & Htr1).
    unfold mbind at 1. unfold M_bind at 1. cbn [alone env_join].
    rewrite HD.
    unfold mbind at 1. unfold M_bind at 1. unfold modify at 1.
    cbn [alone env_others].
    assert (Hreg1' : gs_allThreads w1 = a :: rest) by congruence.
    destruct (IH (S n) w1 a rest t1 Hreg1' Hlook1 Hst1)
      as (w2 & t2 & HL & Hlook2 & Hst2 & Hoth2 & Hreg2 & Hn2 & Htr2).
    exists w2, t2. split; [exact HL|]. split; [exact Hlook2|].
    split; [exact Hst2|].
    split; [intros b Hb; rewrite Hoth2, Hoth1 by exact Hb; reflexivity|].
    split; [congruence|]. split; [congruence|].
    rewrite Htr2, Htr1, <- app_assoc, delete_events_S. reflexivity.
Qed.

(** X23: the shutdown loop never gets past the first thread.  With no
    deletion pending and no other thread running, when the first thread of
    the registry has exited, [OnExit()] calls [Delete()] on that thread
    once for every registered thread and on no other; it runs no
    destructor: the registry is what it was, the other threads' objects
    are untouched, and every thread registered at shutdown is still alive
    when the process-wide objects are released. *)
Theorem OnExit_only_deletes_first_thread self isMain join w a rest t :
  gs_allThreads w = a :: rest →
  heap w !! a = Some t →
  GetState (m_internal t) = STATE_EXITED →
  gs_nThreadsBeingDeleted w = 0 →
  ∃ w',
    OnExit self isMain None (alone join) w = Done tt w' ∧
    trace w' =
      trace w ++ delete_events a (S (length rest))
        ++ [EvDeleteMutexAllThreads; EvMutexGuiUnlock; EvDeleteMutexGui;
            EvPthreadKeyDelete; EvDeleteCondAllDeleted;
            EvDeleteMutexDeleteThread] ∧
    gs_allThreads w' = a :: rest ∧
    is_Some (heap w' !! a) ∧
    ∀ b, b ≠ a → heap w' !! b = heap w !! b.
Proof.
  intros Hreg Hlook Hst Hn. unfold OnExit.
  unfold mbind at 1. unfold M_bind at 1. unfold get at 1.
  rewrite Hn. rewrite bool_decide_eq_false_2 by lia.
  unfold mbind at 1. unfold M_bind at 1. unfold mret at 1. unfold M_ret at 1.
  unfold mbind at 1. unfold M_bind at 1. unfold get at 1.
  rewrite Hreg. cbn [length].
  destruct (OnExit_loop_first_exited self isMain join (S (length rest)) 0%nat
              w a rest t Hreg Hlook Hst)
    as (w1 & t1 & HL & Hlook1 & Hst1 & Hoth1 & Hreg1 & Hn1 & Htr1).
  unfold mbind at 1. unfold M_bind at 1. rewrite HL.
  unfold_world. cbn.
  eexists. split; [reflexivity|]. cbn.
  split; [rewrite Htr1, <- !app_assoc; reflexivity|].
  split; [congruence|]. split; [eexists; exact Hlook1|exact Hoth1].
Qed.

Lemma OnExit_only_deletes_first_thread_witness :
  ∃ t w',
    heap two_joinable_finished !! 1 = Some t ∧
    OnExit main_thread true None (alone (0, 0)) two_joinable_finished
      = Done tt w' ∧
    gs_allThreads w' = [1; 2] ∧
    heap w' !! 2 = heap two_joinable_finished !! 2.
Proof.
  assert (H : ∃ t, heap two_joinable_finished !! 1 = Some t ∧
                   GetState (m_internal t) = STATE_EXITED).
  { eexists. split; [vm_compute; reflexivity|]. reflexivity. }
  destruct H as (t & Hl & Hs).
  destruct (OnExit_only_deletes_first_thread main_thread true (0, 0)
              two_joinable_finished 1 [2] t eq_refl Hl Hs eq_refl)
    as (w' & E & _ & Hreg & _ & Hoth).
  exists t, w'. split; [exact Hl|]. split; [exact E|]. split; [exact Hreg|].
  apply Hoth. lia.
Defined.

(** *** From construction to the end *)

Ltac life_steps :=
  repeat first
    [ rewrite lookup_insert_eq
    | rewrite bool_decide_eq_true_2 by reflexivity
    | rewrite bool_decide_eq_false_2 by discriminate
    | progress cbn -[Post Sema.Wait] ].

Lemma set_count_idle c s : idle s → idle (set_count c s).
Proof. intros H. exact H. Qed.

(** X24: the life of a joinable thread.  A joinable thread is constructed
    with a closed start gate, [Run()] creates and starts it, its entry
    function runs to the end, and [Wait()] is given by [pthread_join] the
    value the OS thread ended with.  Then [Run()] returns
    [wxTHREAD_NO_ERROR], the OS thread ends with the value [Entry()]
    returned, and [Wait()] returns that same value.  [Entry()] was called
    once and [pthread_join] once; the start gate is closed again; the
    object is still alive and registered, in [STATE_EXITED]: destroying it
    is left to the caller. *)
Theorem joinable_thread_returns_entry_value
    a self tid entry isMain wakes sr ss w :
  idle sr →
  m_count sr = 0 →
  ∃ w1 w2 w3 t3 evs,
    (Thread.ctor false a sr ss;; Run a self 0 tid) w
      = Done wxTHREAD_NO_ERROR w1 ∧
    PthreadStart a tid 0 wakes entry w1 = Done entry w2 ∧
    Thread.Wait a isMain (0, entry) w2 = Done entry w3 ∧
    heap w3 !! a = Some t3 ∧
    GetState (m_internal t3) = STATE_EXITED ∧
    m_semRun (m_internal t3) = sr ∧
    gs_allThreads w3 = gs_allThreads w ++ [a] ∧
    trace w3 = trace w ++ evs ∧
    entries evs = 1%nat ∧
    world_joins evs = 1%nat.
Proof.
  intros Hidle Hcount.
  unfold Run, Thread.ctor. unfold_world. cbn -[Post Sema.Wait].
  eexists _, _, _, _, _.
  split.
  { unfold ThreadInternal.Create, ThreadInternal.Run, SignalRun, GetState.
    life_steps.
    rewrite (Post_gate_closed self sr Hidle Hcount). life_steps.
    reflexivity. }
  split.
  { unfold PthreadStart, Exit. unfold_world. life_steps.
    rewrite (Wait_idle_positive tid wakes (set_count 1 sr)
               (set_count_idle 1 sr Hidle)) by (cbn; lia).
    unfold GetState, WasCancelled. life_steps. reflexivity. }
  split.
  { unfold Thread.Wait, ThreadInternal.Wait, GetExitCode. unfold_world.
    life_steps. reflexivity. }
  life_steps.
  split; [reflexivity|]. split; [reflexivity|].
  split; [destruct sr; cbn in *; subst; reflexivity|].
  split; [reflexivity|].
  rewrite <- !app_assoc.
  split; [reflexivity|].
  destruct isMain; split; reflexivity.
Qed.

Lemma joinable_thread_returns_entry_value_witness :
  idle gate ∧ m_count gate = 0 ∧
  ∃ w1 w2 w3,
    (Thread.ctor false 1 gate gate;; Run 1 main_thread 0 worker) empty_world
      = Done wxTHREAD_NO_ERROR w1 ∧
    PthreadStart 1 worker 0 [] 42 w1 = Done 42 w2 ∧
    Thread.Wait 1 true (0, 42) w2 = Done 42 w3.
Proof.
  assert (Hi : idle gate) by (repeat split).
  assert (Hc : m_count gate = 0) by reflexivity.
  split; [exact Hi|]. split; [exact Hc|].
  destruct (joinable_thread_returns_entry_value 1 main_thread worker 42 true
              [] gate gate empty_world Hi Hc)
    as (w1 & w2 & w3 & t3 & evs & E1 & E2 & E3 & _).
  exists w1, w2, w3. repeat split; assumption.
Defined.

Lemma array_Remove_last a l : a ∉ l → array_Remove a (l ++ [a]) = l.
Proof.
  induction l as [|x l IH]; intros Hnot; cbn.
  - rewrite bool_decide_eq_true_2 by reflexivity. reflexivity.
  - rewrite not_elem_of_cons in Hnot. destruct Hnot as [Hne Hnot].
    rewrite bool_decide_eq_false_2 by congruence. rewrite IH by exact Hnot.
    reflexivity.
Qed.

(** X25: the life of a detached thread.  A detached thread is constructed
    with a closed start gate at an address not yet registered, and [Run()]
    creates and starts it.  When its entry function has run to the end,
    [Entry()] was called once, then [OnExit()], then the destructor, by the
    thread itself; nothing joined it; the registry and the count of
    pending deletions are what they were before the constructor, and the
    all-deleted condition was signalled exactly when no other deletion was
    pending.  The object is gone: a later call on it, such as [Wait()] or
    [Delete()], is a call on a destroyed object. *)
Theorem detached_thread_destroys_itself
    a self tid entry wakes sr ss w isMain join want_rc :
  idle sr →
  m_count sr = 0 →
  a ∉ gs_allThreads w →
  0 <= gs_nThreadsBeingDeleted w < SIZE_MAX →
  ∃ w1 w2 evs,
    (Thread.ctor true a sr ss;; Run a self 0 tid) w
      = Done wxTHREAD_NO_ERROR w1 ∧
    PthreadStart a tid 0 wakes entry w1 = Done entry w2 ∧
    heap w2 !! a = None ∧
    gs_allThreads w2 = gs_allThreads w ∧
    gs_nThreadsBeingDeleted w2 = gs_nThreadsBeingDeleted w ∧
    trace w2 = trace w ++ evs ∧
    entries evs = 1%nat ∧
    world_joins evs = 0%nat ∧
    lifecycle evs =
      [EvOnExit a; EvDestroy a]
        ++ (if bool_decide (gs_nThreadsBeingDeleted w = 0)
            then [EvSignalAllDeleted] else []) ∧
    Thread.Wait a isMain join w2 = Undefined ∧
    Delete a self want_rc isMain join w2 = Undefined.
Proof.
  intros Hidle Hcount Hnot Hn.
  assert (E1 : to_size_t (gs_nThreadsBeingDeleted w + 1)
               = gs_nThreadsBeingDeleted w + 1)
    by (apply to_size_t_small; lia).
  assert (E2 : to_size_t (gs_nThreadsBeingDeleted w + 1 - 1)
               = gs_nThreadsBeingDeleted w)
    by (replace (gs_nThreadsBeingDeleted w + 1 - 1)
          with (gs_nThreadsBeingDeleted w) by lia;
        apply to_size_t_small; lia).
  destruct (bool_decide (gs_nThreadsBeingDeleted w = 0)) eqn:Hz.
  all: unfold Run, Thread.ctor; unfold_world; cbn -[Post Sema.Wait];
    eexists _, _, _;
    (split;
     [ unfold ThreadInternal.Create, ThreadInternal.Run, SignalRun, GetState;
       life_steps;
       rewrite (Post_gate_closed self sr Hidle Hcount); life_steps;
       reflexivity |]);
    (split;
     [ unfold PthreadStart, Exit, ScheduleThreadForDeletion, DeleteThread,
         dtor;
       unfold_world; life_steps;
       rewrite (Wait_idle_positive tid wakes (set_count 1 sr)
                  (set_count_idle 1 sr Hidle)) by (cbn; lia);
       unfold GetState, WasCancelled; life_steps;
       rewrite E1, E2, Hz; life_steps; reflexivity |]);
    cbn [heap gs_allThreads gs_nThreadsBeingDeleted trace];
    (split; [apply lookup_delete_eq|]);
    (split; [apply array_Remove_last; exact Hnot|]);
    (split; [reflexivity|]);
    rewrite <- !app_assoc;
    (split; [reflexivity|]);
    (split; [reflexivity|]);
    (split; [reflexivity|]);
    (split; [reflexivity|]);
    unfold Thread.Wait, Delete; unfold_world; cbn;
    rewrite !lookup_delete_eq; split; reflexivity.
Qed.

Lemma detached_thread_destroys_itself_witness :
  idle gate ∧ m_count gate = 0 ∧
  ∃ w1 w2,
    (Thread.ctor true 1 gate gate;; Run 1 main_thread 0 worker) empty_world
      = Done wxTHREAD_NO_ERROR w1 ∧
    PthreadStart 1 worker 0 [] 42 w1 = Done 42 w2 ∧
    heap w2 !! 1 = None ∧
    Thread.Wait 1 true (0, 42) w2 = Undefined.
Proof.
  assert (Hi : idle gate) by (repeat split).
  assert (Hc : m_count gate = 0) by reflexivity.
  assert (Hnot : 1 ∉ gs_allThreads empty_world) by (cbn; apply not_elem_of_nil).
  assert (Hn : 0 <= gs_nThreadsBeingDeleted empty_world < SIZE_MAX)
    by (change (gs_nThreadsBeingDeleted empty_world) with 0;
        unfold SIZE_MAX; lia).
  split; [exact Hi|]. split; [exact Hc|].
  destruct (detached_thread_destroys_itself 1 main_thread worker 42 [] gate
              gate empty_world true (0, 42) false Hi Hc Hnot Hn)
    as (w1 & w2 & evs & E1 & E2 & E3 & _ & _ & _ & _ & _ & _ & E4 & _).
  exists w1, w2. repeat split; assumption.
Defined.

End ThreadExtraProperties.
